(** * claudish: request transcoding and Gemini stream re-emission

    A shallow embedding of [src/transform.ts] and of the streaming part of
    [src/handlers/gemini-handler.ts], followed by the properties of the
    transcoding engine proved over it.

    Part I holds the embedding, Part II the lemmas and theorems. *)

From Stdlib Require Import ZArith Lia Ascii String List Bool.
From stdpp Require Import base list strings gmap pretty.
Import ListNotations.

Local Open Scope Z_scope.

(** * Part I: the embedding *)

(** ** JavaScript values and built-ins

    Strings are byte strings holding the UTF-8 form of the JavaScript
    string.  A [json] is a value produced by [JSON.parse]: an object is
    the list of its own enumerable properties in enumeration order, so the
    keys of one object are pairwise distinct.  Numbers are the integers
    that a double holds exactly; fractions and the special key
    [__proto__] are outside the model. *)

Module Js.

(** *** Strings *)

Definition nl : string := String "010"%char "".
Definition dq : string := String "034"%char "".
Definition backslash : string := String "092"%char "".

Definition bytes (codes : list nat) : string :=
  fold_right (fun n s => String (ascii_of_nat n) s) "" codes.

(** [s.startsWith(p)] *)
Definition startsWith (p s : string) : bool := String.prefix p s.

(** [s.includes(sub)] *)
Fixpoint includes (sub s : string) : bool :=
  String.prefix sub s ||
  match s with
  | String _ s' => includes sub s'
  | EmptyString => false
  end.

(** [s.slice(n)] for [n >= 0] *)
Fixpoint slice (n : nat) (s : string) : string :=
  match n, s with
  | S k, String _ s' => slice k s'
  | _, _ => s
  end.

(** [s.split(sep)] for a non-empty separator: [split_from sep skip s] is
    the segment that is open at the start of [s] and the segments after
    it; [skip] counts the characters of a separator still to pass over. *)
Fixpoint split_from (sep : string) (skip : nat) (s : string) : string * list string :=
  match s with
  | EmptyString => (EmptyString, [])
  | String c s' =>
      match skip with
      | S k => split_from sep k s'
      | O =>
          if String.prefix sep s then
            let (seg, rest) := split_from sep (Nat.pred (String.length sep)) s' in
            (EmptyString, seg :: rest)
          else
            let (seg, rest) := split_from sep O s' in
            (String c seg, rest)
      end
  end.

Definition split (sep s : string) : list string :=
  let (seg, rest) := split_from sep O s in seg :: rest.

(** [parts.join(sep)] on strings *)
Definition join (sep : string) (parts : list string) : string :=
  String.concat sep parts.

(** White space and line terminators of ECMAScript, in UTF-8. *)
Definition whitespace : list string :=
  map bytes
    [ [9]; [10]; [11]; [12]; [13]; [32]; [194; 160]; [225; 154; 128];
      [226; 128; 128]; [226; 128; 129]; [226; 128; 130]; [226; 128; 131];
      [226; 128; 132]; [226; 128; 133]; [226; 128; 134]; [226; 128; 135];
      [226; 128; 136]; [226; 128; 137]; [226; 128; 138]; [226; 128; 168];
      [226; 128; 169]; [226; 128; 175]; [226; 129; 159]; [227; 128; 128];
      [239; 187; 191] ]%nat.

(** Length of the white-space character [s] starts with, 0 when none. *)
Definition space_prefix (ws : list string) (s : string) : nat :=
  match List.filter (fun w => String.prefix w s) ws with
  | w :: _ => String.length w
  | [] => O
  end.

Fixpoint trim_from (ws : list string) (skip : nat) (s : string) : string :=
  match s with
  | EmptyString => EmptyString
  | String c s' =>
      match skip with
      | S k => trim_from ws k s'
      | O =>
          match space_prefix ws s with
          | O => s
          | S k => trim_from ws k s'
          end
      end
  end.

Definition trimStart (s : string) : string := trim_from whitespace O s.
Definition trimEnd (s : string) : string :=
  String.rev (trim_from (map String.rev whitespace) O (String.rev s)).

(** [s.trim()] *)
Definition trim (s : string) : string := trimEnd (trimStart s).

(** *** [decodeURIComponent]

    An escape [%XX] stands for one byte; the bytes of a run of escapes have
    to form well-formed UTF-8, otherwise the call throws a [URIError],
    which is [None] here. *)

Definition hex_value (c : ascii) : option nat :=
  let n := nat_of_ascii c in
  if (48 <=? n)%nat && (n <=? 57)%nat then Some (n - 48)%nat
  else if (65 <=? n)%nat && (n <=? 70)%nat then Some (n - 55)%nat
  else if (97 <=? n)%nat && (n <=? 102)%nat then Some (n - 87)%nat
  else None.

(** The byte of the escape [s] starts with, and what follows it. *)
Definition escaped_byte (s : list ascii) : option (nat * list ascii) :=
  match s with
  | "%"%char :: h :: l :: rest =>
      match hex_value h, hex_value l with
      | Some a, Some b => Some (16 * a + b, rest)%nat
      | _, _ => None
      end
  | _ => None
  end.

Definition in_range (lo hi n : nat) : bool := (lo <=? n)%nat && (n <=? hi)%nat.

(** The ranges of the bytes that may follow a lead byte. *)
Definition utf8_tail (lead : nat) : option (list (nat * nat)) :=
  if in_range 194 223 lead then Some [(128, 191)]%nat
  else if (lead =? 224)%nat then Some [(160, 191); (128, 191)]%nat
  else if in_range 225 236 lead || in_range 238 239 lead
  then Some [(128, 191); (128, 191)]%nat
  else if (lead =? 237)%nat then Some [(128, 159); (128, 191)]%nat
  else if (lead =? 240)%nat then Some [(144, 191); (128, 191); (128, 191)]%nat
  else if in_range 241 243 lead then Some [(128, 191); (128, 191); (128, 191)]%nat
  else if (lead =? 244)%nat then Some [(128, 143); (128, 191); (128, 191)]%nat
  else None.

Fixpoint escaped_tail (ranges : list (nat * nat)) (s : list ascii)
  : option (list ascii * list ascii) :=
  match ranges with
  | [] => Some ([], s)
  | (lo, hi) :: ranges' =>
      match escaped_byte s with
      | Some (b, rest) =>
          if in_range lo hi b then
            match escaped_tail ranges' rest with
            | Some (bs, rest') => Some (ascii_of_nat b :: bs, rest')
            | None => None
            end
          else None
      | None => None
      end
  end.

Fixpoint decode_uri (fuel : nat) (s : list ascii) : option (list ascii) :=
  match fuel with
  | O => None
  | S fuel' =>
      match s with
      | [] => Some []
      | c :: rest =>
          if Ascii.eqb c "%"%char then
            match escaped_byte s with
            | Some (b, rest) =>
                if (b <? 128)%nat then
                  option_map (cons (ascii_of_nat b)) (decode_uri fuel' rest)
                else
                  match utf8_tail b with
                  | Some ranges =>
                      match escaped_tail ranges rest with
                      | Some (bs, rest') =>
                          option_map (fun d => ascii_of_nat b :: bs ++ d)
                            (decode_uri fuel' rest')
                      | None => None
                      end
                  | None => None
                  end
            | None => None
            end
          else option_map (cons c) (decode_uri fuel' rest)
      end
  end.

Definition decodeURIComponent (s : string) : option string :=
  option_map string_of_list_ascii
    (decode_uri (S (String.length s)) (list_ascii_of_string s)).

(** *** JSON values *)

#[warnings="-register-all"] Inductive json : Type :=
| JNull
| JBool (b : bool)
| JNum (n : Z)
| JStr (s : string)
| JArr (items : list json)
| JObj (props : list (string * json)).

(** *** Induction over the nested lists of a JSON value *)

Section JsonInd.
Variable P : json -> Prop.
Hypothesis Hnull : P JNull.
Hypothesis Hbool : forall b, P (JBool b).
Hypothesis Hnum : forall n, P (JNum n).
Hypothesis Hstr : forall s, P (JStr s).
Hypothesis Harr : forall items, Forall P items -> P (JArr items).
Hypothesis Hobj : forall props, Forall (fun kv => P (snd kv)) props -> P (JObj props).

Fixpoint json_nested_ind (j : json) : P j :=
  match j with
  | JNull => Hnull
  | JBool b => Hbool b
  | JNum n => Hnum n
  | JStr s => Hstr s
  | JArr items =>
      Harr items
        ((fix go (l : list json) : Forall P l :=
            match l with
            | [] => List.Forall_nil P
            | x :: l' => List.Forall_cons P x l' (json_nested_ind x) (go l')
            end) items)
  | JObj props =>
      Hobj props
        ((fix go (l : list (string * json)) : Forall (fun kv => P (snd kv)) l :=
            match l with
            | [] => List.Forall_nil _
            | kv :: l' =>
                List.Forall_cons (fun kv => P (snd kv)) kv l'
                  (json_nested_ind (snd kv)) (go l')
            end) props)
  end.
End JsonInd.

(** [!v] is false: the falsy values are null, false, 0 and the empty string. *)
Definition truthy (v : json) : bool :=
  match v with
  | JNull => false
  | JBool b => b
  | JNum n => negb (n =? 0)
  | JStr s => negb (s =? "")%string
  | JArr _ | JObj _ => true
  end.

(** Truthiness of a property read, [undefined] when the key is absent. *)
Definition truthy_opt (o : option json) : bool :=
  match o with Some v => truthy v | None => false end.

(** [typeof v === 'object']: null, arrays and objects. *)
Definition typeof_object (v : json) : bool :=
  match v with
  | JNull | JArr _ | JObj _ => true
  | _ => false
  end.

(** [Array.isArray(v)] *)
Definition isArray (v : json) : bool :=
  match v with JArr _ => true | _ => false end.

(** [o === s] for a property read [o] and a string literal [s] *)
Definition is_str (o : option json) (s : string) : bool :=
  match o with Some (JStr t) => (t =? s)%string | _ => false end.

(** [arr.includes(key)] on an array of strings *)
Definition includes_key (keys : list string) (key : string) : bool :=
  existsb (String.eqb key) keys.

(** The decimal index keys ["0"], ["1"], ... of an array of [n] elements. *)
Definition index_keys (n : nat) : list string :=
  map (fun i : nat => pretty i) (seq 0 n).

(** *** Objects *)

Definition object : Type := list (string * json).

(** [obj.key], [None] for [undefined] *)
Fixpoint get (key : string) (obj : object) : option json :=
  match obj with
  | [] => None
  | (k, v) :: rest => if (k =? key)%string then Some v else get key rest
  end.

(** [key in obj] *)
Definition has_key (key : string) (obj : object) : bool :=
  existsb (fun kv => (fst kv =? key)%string) obj.

(** [delete obj.key] *)
Definition delete_key (key : string) (obj : object) : object :=
  List.filter (fun kv => negb (fst kv =? key)%string) obj.

(** [obj.key = v]: an existing property keeps its place, a new one goes
    last. *)
Fixpoint set (key : string) (v : json) (obj : object) : object :=
  match obj with
  | [] => [(key, v)]
  | (k, w) :: rest =>
      if (k =? key)%string then (k, v) :: rest else (k, w) :: set key v rest
  end.

(** The properties [{...v}] copies: those of an object, the indices of an
    array or of a string (its bytes, which are its characters when the
    string is ASCII), none for any other value or for [undefined]. *)
Definition spread (o : option json) : object :=
  match o with
  | Some (JObj props) => props
  | Some (JArr items) => combine (index_keys (length items)) items
  | Some (JStr s) =>
      combine (index_keys (String.length s))
        (map (fun c => JStr (String c "")) (list_ascii_of_string s))
  | _ => []
  end.

(** [v.key] for a value that is not null: only objects carry the keys
    read by the code. *)
Definition prop (key : string) (v : json) : option json :=
  match v with
  | JObj props => get key props
  | _ => None
  end.

(** *** [JSON.stringify] *)

Definition hex_digit (n : nat) : string :=
  String (nth n (list_ascii_of_string "0123456789abcdef") "0"%char) "".

Definition escape_char (c : ascii) : string :=
  let n := nat_of_ascii c in
  if (n =? 34)%nat then backslash +:+ dq
  else if (n =? 92)%nat then backslash +:+ backslash
  else if (n =? 8)%nat then backslash +:+ "b"
  else if (n =? 12)%nat then backslash +:+ "f"
  else if (n =? 10)%nat then backslash +:+ "n"
  else if (n =? 13)%nat then backslash +:+ "r"
  else if (n =? 9)%nat then backslash +:+ "t"
  else if (n <? 32)%nat then
    backslash +:+ "u00" +:+ hex_digit (n / 16) +:+ hex_digit (n mod 16)
  else String c "".

Definition quote (s : string) : string :=
  dq +:+ String.concat "" (map escape_char (list_ascii_of_string s)) +:+ dq.

Fixpoint stringify (v : json) : string :=
  match v with
  | JNull => "null"
  | JBool true => "true"
  | JBool false => "false"
  | JNum n => pretty n
  | JStr s => quote s
  | JArr items => "[" +:+ join "," (map stringify items) +:+ "]"
  | JObj props =>
      "{" +:+ join "," (map (fun kv : string * json =>
                               quote (fst kv) +:+ ":" +:+ stringify (snd kv)) props)
          +:+ "}"
  end.

End Js.
Import Js.

(** ** [src/transform.ts] *)

Module Transform.

(** OpenAI-specific parameters that Claude doesn't support *)
Definition DROP_KEYS : list string :=
  [ "n"; "presence_penalty"; "frequency_penalty"; "best_of"; "logit_bias";
    "seed"; "stream_options"; "logprobs"; "top_logprobs"; "user";
    "response_format"; "service_tier"; "parallel_tool_calls"; "functions";
    "function_call"; "developer"; "strict"; "reasoning_effort" ].

(** *** [sanitizeRoot]

    The function rewrites [req] in place and returns [{ keys: dropped }];
    the embedding returns the rewritten request with the dropped keys. *)

(** One turn of [for (const key of DROP_KEYS)]. *)
Definition drop_step (acc : object * list string) (key : string) : object * list string :=
  let (req, dropped) := acc in
  if has_key key req then (delete_key key req, dropped ++ [key])
  else (req, dropped).

Definition sanitizeRoot (req : object) : object * list string :=
  let dropped : list string := [] in
  (* Rename stop -> stop_sequences *)
  let req :=
    match get "stop" req with
    | Some stop =>
        delete_key "stop"
          (set "stop_sequences" (if isArray stop then stop else JArr [stop]) req)
    | None => req
    end in
  (* Convert user -> metadata.user_id *)
  let '(req, dropped) :=
    match get "user" req with
    | Some user =>
        if truthy user then
          (delete_key "user"
             (set "metadata"
                (JObj (set "user_id" user (spread (get "metadata" req)))) req),
           dropped ++ ["user"])
        else (req, dropped)
    | None => (req, dropped)
    end in
  (* Drop all unsupported OpenAI parameters *)
  let '(req, dropped) := fold_left drop_step DROP_KEYS (req, dropped) in
  (* Ensure max_tokens is set *)
  let req :=
    match get "max_tokens" req with
    | None | Some JNull => set "max_tokens" (JNum 4096) req
    | Some _ => req
    end in
  (req, dropped).

(** *** [removeUriFormat] *)

Fixpoint removeUriFormat (schema : json) : json :=
  match schema with
  | JArr items => JArr (map removeUriFormat items)
  | JObj props =>
      if is_str (get "type" props) "string" && is_str (get "format" props) "uri"
      then JObj (delete_key "format" props)
      else
        JObj (map (fun kv : string * json =>
          let key := fst kv in
          let v := snd kv in
          if (key =? "properties")%string && typeof_object v then
            (key, JObj (match v with
                        | JObj ps =>
                            map (fun pv : string * json =>
                                   (fst pv, removeUriFormat (snd pv))) ps
                        | JArr xs =>
                            combine (index_keys (length xs)) (map removeUriFormat xs)
                        | _ => []
                        end))
          else if (key =? "items")%string && typeof_object v then
            (key, removeUriFormat v)
          else if (key =? "additionalProperties")%string && typeof_object v then
            (key, removeUriFormat v)
          else
            match v with
            | JArr xs =>
                if includes_key ["anyOf"; "allOf"; "oneOf"] key
                then (key, JArr (map removeUriFormat xs))
                else (key, removeUriFormat v)
            | _ => (key, removeUriFormat v)
            end) props)
  | _ => schema
  end.

(** *** [transformOpenAIToClaude] *)

(** A call either returns or throws. *)
Inductive outcome (A : Type) : Type :=
| Returned (a : A)
| Thrown (error : string).
Arguments Returned {A} a.
Arguments Thrown {A} error.

Definition bind {A B : Type} (m : outcome A) (k : A -> outcome B) : outcome B :=
  match m with
  | Returned a => k a
  | Thrown e => Thrown e
  end.

Record OpenAIToClaude : Type := {
  claudeRequest : object;
  droppedParams : list string;
  isO3Model : bool
}.

(** The callback of [req.system.map]. *)
Definition system_item_text (item : json) : json :=
  match item with
  | JStr _ => item
  | JArr _ | JObj _ =>
      let type := prop "type" item in
      let text := prop "text" item in
      let content := prop "content" item in
      if is_str type "text" && truthy_opt text then default JNull text
      else if is_str type "text" && truthy_opt content then default JNull content
      else if truthy_opt text then default JNull text
      else if truthy_opt content then
        match content with
        | Some (JStr s) => JStr s
        | Some c => JStr (stringify c)
        | None => JNull
        end
      else JStr (stringify item)
  | _ => JStr (stringify item)
  end.

(** [.filter(text => text && text.trim() !== '')]: a truthy value that is
    not a string has no [trim] method, and the call throws. *)
Fixpoint filter_system_texts (texts : list json) : outcome (list string) :=
  match texts with
  | [] => Returned []
  | t :: rest =>
      if truthy t then
        match t with
        | JStr s =>
            bind (filter_system_texts rest) (fun kept =>
              Returned (if (trim s =? "")%string then kept else s :: kept))
        | _ => Thrown "TypeError: text.trim is not a function"
        end
      else filter_system_texts rest
  end.

(** The body of [for (const t of req.tools)]. *)
Definition clean_tool (t : json) : json :=
  match t with
  | JObj props =>
      match get "input_schema" props with
      | Some schema =>
          if truthy schema
          then JObj (set "input_schema" (removeUriFormat schema) props)
          else t
      | None => t
      end
  | _ => t
  end.

(** The payload is the object of the request body; [req] is its deep copy
    [JSON.parse(JSON.stringify(claudeRequestInput))]. *)
Definition transformOpenAIToClaude (claudeRequestInput : object) : outcome OpenAIToClaude :=
  let req := claudeRequestInput in
  let isO3Model :=
    match get "model" req with
    | Some (JStr model) => includes "o3" model || includes "o1" model
    | _ => false
    end in
  bind
    (match get "system" req with
     | Some (JArr items) =>
         bind (filter_system_texts (map system_item_text items)) (fun texts =>
           Returned (set "system" (JStr (join (nl +:+ nl) texts)) req))
     | _ => Returned req
     end) (fun req =>
  let req :=
    match get "messages" req with
    | Some (JArr _) => req
    | None | Some JNull => set "messages" (JArr []) req
    | Some messages => set "messages" (JArr [messages]) req
    end in
  let req :=
    match get "tools" req with
    | Some (JArr _) => req
    | _ => set "tools" (JArr []) req
    end in
  let req :=
    match get "tools" req with
    | Some (JArr tools) => set "tools" (JArr (map clean_tool tools)) req
    | _ => req
    end in
  let dropped : list string := [] in
  Returned {| claudeRequest := req; droppedParams := dropped; isO3Model := isO3Model |}).

(** *** [cleanSchemaForGemini] *)

Definition UNSUPPORTED_FIELDS : list string :=
  [ "$schema"; "additionalProperties"; "exclusiveMinimum"; "exclusiveMaximum";
    "multipleOf"; "patternProperties"; "dependencies"; "const"; "if"; "then";
    "else"; "allOf"; "anyOf"; "oneOf"; "not" ].

Fixpoint cleanSchemaForGemini (schema : json) : json :=
  match schema with
  | JArr items => JArr (map cleanSchemaForGemini items)
  | JObj props =>
      JObj (flat_map (fun kv : string * json =>
        let key := fst kv in
        let v := snd kv in
        if includes_key UNSUPPORTED_FIELDS key then []
        else if (key =? "properties")%string && typeof_object v then
          (* cleaned[key] = {}; for (propKey in v) cleaned[key][propKey] = ... *)
          [(key, JObj (match v with
                       | JObj ps =>
                           map (fun pv : string * json =>
                                  (fst pv, cleanSchemaForGemini (snd pv))) ps
                       | JArr xs =>
                           combine (index_keys (length xs)) (map cleanSchemaForGemini xs)
                       | _ => []
                       end))]
        else if (key =? "items")%string && typeof_object v then
          [(key, cleanSchemaForGemini v)]
        else if typeof_object v && negb (isArray v) then
          [(key, cleanSchemaForGemini v)]
        else
          match v with
          | JArr xs =>
              [(key, JArr (map (fun item =>
                                  if typeof_object item
                                  then cleanSchemaForGemini item else item) xs))]
          | _ => [(key, v)]
          end) props)
  | _ => schema
  end.

(** *** [transformClaudeToGemini]

    The inbound payload is read at the shape of the Claude messages API:
    [{model, system?, messages[], tools[]?, temperature?, top_p?, top_k?,
    max_tokens?, stop_sequences?, thinking?{budget_tokens}}].  Values that
    are only copied stay [json]; the outbound payload is the [json] object
    that is serialized as the request body. *)

Inductive ContentBlock : Type :=
| TextBlock (text : string)
| ImageBlock (media_type : option string) (data : string)
| ToolUseBlock (id : option string) (name : string) (input : json)
| ToolResultBlock (tool_use_id : string) (content : json)
| OtherBlock (type : string).

Inductive MessageContent : Type :=
| ContentString (s : string)
| ContentBlocks (blocks : list ContentBlock)
| ContentNone.

Record Message : Type := {
  role : string;
  content : MessageContent
}.

Inductive SystemItem : Type :=
| SystemItemString (s : string)
| SystemItemBlock (text : string).

Inductive SystemPrompt : Type :=
| SystemString (s : string)
| SystemArray (items : list SystemItem).

Record Tool : Type := {
  name : string;
  description : option string;
  input_schema : option json
}.

Record ClaudeRequest : Type := {
  system : option SystemPrompt;
  messages : option (list Message);
  temperature : option json;
  max_tokens : option json;
  stop_sequences : option (list json);
  top_p : option json;
  top_k : option json;
  tools : option (list Tool);
  thinking : option Z   (* thinking.budget_tokens *)
}.

Section ClaudeToGemini.

(** [decodeURIComponent], [None] when it throws a [URIError]. *)
Variable decodeURIComponent : string -> option string.

(** The part pushed for a [tool_use] block. *)
Definition tool_use_part (id : option string) (name : string) (input : json) : json :=
  let part : object :=
    [("functionCall", JObj [("name", JStr name); ("args", input)])] in
  let part :=
    match id with
    | Some id =>
        if negb (id =? "")%string && includes "__ts_" id then
          match nth_error (split "__ts_" id) 1 with
          | Some sigEncoded =>
              if negb (sigEncoded =? "")%string then
                (* thoughtSignature goes at the SAME LEVEL as functionCall *)
                match decodeURIComponent sigEncoded with
                | Some thoughtSignature =>
                    set "thoughtSignature" (JStr thoughtSignature) part
                | None => part   (* Silently ignore decode errors *)
                end
              else part
          | None => part
          end
        else part
    | None => part
    end in
  JObj part.

(** One turn of [for (const block of msg.content)], on
    [geminiPayload.contents] and [geminiMessage.parts]. *)
Definition convert_block (acc : list json * list json) (block : ContentBlock)
  : list json * list json :=
  let (contents, parts) := acc in
  match block with
  | TextBlock text => (contents, parts ++ [JObj [("text", JStr text)]])
  | ImageBlock media_type data =>
      let mimeType :=
        match media_type with
        | Some m => if (m =? "")%string then "image/png" else m
        | None => "image/png"
        end in
      (contents,
       parts ++ [JObj [("inlineData",
                        JObj [("mimeType", JStr mimeType); ("data", JStr data)])]])
  | ToolUseBlock id name input => (contents, parts ++ [tool_use_part id name input])
  | ToolResultBlock tool_use_id content =>
      (* Tool results go in a separate message *)
      (contents ++
         [JObj [("role", JStr "function");
                ("parts",
                 JArr [JObj [("functionResponse",
                   JObj [("name", JStr tool_use_id);
                         ("response",
                          JObj [("content",
                                 match content with
                                 | JStr _ => content
                                 | _ => JStr (stringify content)
                                 end)])])]])]],
       parts)
  | OtherBlock _ => (contents, parts)
  end.

(** One turn of [for (const msg of claudeRequest.messages)]. *)
Definition convert_message (contents : list json) (msg : Message) : list json :=
  let geminiRole :=
    if (role msg =? "assistant")%string then "model" else role msg in
  let '(contents, parts) :=
    match content msg with
    | ContentString s => (contents, [JObj [("text", JStr s)]])
    | ContentBlocks blocks => fold_left convert_block blocks (contents, [])
    | ContentNone => (contents, [])
    end in
  match parts with
  | [] => contents
  | _ :: _ => contents ++ [JObj [("role", JStr geminiRole); ("parts", JArr parts)]]
  end.

(** [i.text || i], as [join] renders it. *)
Definition system_item_string (i : SystemItem) : string :=
  match i with
  | SystemItemString s => s
  | SystemItemBlock text =>
      if (text =? "")%string then "[object Object]" else text
  end.

Definition function_declaration (tool : Tool) : json :=
  JObj ([("name", JStr (name tool))]
        ++ match description tool with
           | Some d => [("description", JStr d)]
           | None => []
           end
        ++ match input_schema tool with
           | Some schema => [("parameters", cleanSchemaForGemini schema)]
           | None => []
           end).

Definition set_opt (key : string) (o : option json) (obj : object) : object :=
  match o with
  | Some v => set key v obj
  | None => obj
  end.

Definition transformClaudeToGemini (claudePayload : ClaudeRequest) (modelId : string)
  : object * ClaudeRequest :=
  let claudeRequest := claudePayload in
  let geminiPayload : object :=
    [("contents", JArr []); ("generationConfig", JObj [])] in
  (* Add system instruction *)
  let geminiPayload :=
    let instruction (systemContent : string) :=
      set "systemInstruction"
        (JObj [("parts", JArr [JObj [("text", JStr systemContent)]])]) geminiPayload in
    match system claudeRequest with
    | Some (SystemString s) =>
        if (s =? "")%string then geminiPayload else instruction s
    | Some (SystemArray items) =>
        instruction (join (nl +:+ nl) (map system_item_string items))
    | None => geminiPayload
    end in
  (* Convert messages to Gemini's contents format *)
  let geminiPayload :=
    match messages claudeRequest with
    | Some msgs => set "contents" (JArr (fold_left convert_message msgs [])) geminiPayload
    | None => geminiPayload
    end in
  (* Convert generation parameters *)
  let generationConfig : object :=
    set_opt "topK" (top_k claudeRequest)
      (set_opt "topP" (top_p claudeRequest)
         (set_opt "stopSequences" (JArr <$> stop_sequences claudeRequest)
            (set_opt "maxOutputTokens" (max_tokens claudeRequest)
               (set_opt "temperature" (temperature claudeRequest) [])))) in
  let geminiPayload := set "generationConfig" (JObj generationConfig) geminiPayload in
  (* Convert tools to Gemini's functionDeclarations format *)
  let geminiPayload :=
    match tools claudeRequest with
    | Some ts =>
        set "tools"
          (JArr [JObj [("functionDeclarations", JArr (map function_declaration ts))]])
          geminiPayload
    | None => geminiPayload
    end in
  (* Handle thinking/reasoning config *)
  let geminiPayload :=
    match thinking claudeRequest with
    | Some budget_tokens =>
        if includes "gemini-3" modelId then
          let level := if 16000 <=? budget_tokens then "high" else "low" in
          set "thinking_level" (JStr level) geminiPayload
        else
          let MAX_GEMINI_BUDGET := 24576 in
          let budget := Z.min budget_tokens MAX_GEMINI_BUDGET in
          set "thinking_config" (JObj [("thinking_budget", JNum budget)]) geminiPayload
    | None => geminiPayload
    end in
  (geminiPayload, claudeRequest).

End ClaudeToGemini.

End Transform.

(** ** [src/transform.ts]: the mapping of OpenAI requests

    [mapTools], [mapToolChoice], [extractTextContent] and
    [transformMessages] rewrite a parsed request body.  A property of an
    object literal whose value is [undefined] is left out of the object,
    as [JSON.stringify] leaves it out; a read of it gives [None] either
    way. *)

Module OpenAI.
Import Transform.

(** *** Reads and object literals *)

(** [a ?? b] *)
Definition nullish_or (a b : option json) : option json :=
  match a with
  | None | Some JNull => b
  | Some _ => a
  end.

(** [a || b] *)
Definition truthy_or (a b : option json) : option json :=
  if truthy_opt a then a else b.

(** [v?.key] on a property read [v], and [v.key] where [v] is known to be
    truthy. *)
Definition chain (key : string) (v : option json) : option json :=
  match v with
  | Some w => prop key w
  | None => None
  end.

(** [o === true] *)
Definition is_true (o : option json) : bool :=
  match o with Some (JBool true) => true | _ => false end.

(** The value of a read when it is truthy. *)
Definition truthy_value (o : option json) : option json :=
  match o with
  | Some v => if truthy v then Some v else None
  | None => None
  end.

(** One property [key: v] of an object literal. *)
Definition field (key : string) (v : option json) : object :=
  match v with
  | Some w => [(key, w)]
  | None => []
  end.

(** [obj.key] handed to [found], [missing] when the key is absent: the
    read [get key obj] in a form that recursive functions can use on the
    value found. *)
Definition with_prop {A : Type} (key : string) (found : json -> A) (missing : A)
  : object -> A :=
  fix go (obj : object) : A :=
    match obj with
    | [] => missing
    | kv :: rest =>
        if (fst kv =? key)%string then found (snd kv) else go rest
    end.

(** [callback] on every item in turn, up to the first call that throws. *)
Fixpoint traverse {A B : Type} (callback : A -> outcome B) (items : list A)
  : outcome (list B) :=
  match items with
  | [] => Returned []
  | x :: rest =>
      bind (callback x) (fun y =>
      bind (traverse callback rest) (fun ys => Returned (y :: ys)))
  end.

(** A loop body run over every item in turn, up to the first throw. *)
Fixpoint fold_outcome {A S : Type} (body : S -> A -> outcome S) (items : list A) (st : S)
  : outcome S :=
  match items with
  | [] => Returned st
  | x :: rest => bind (body st x) (fold_outcome body rest)
  end.

(** [String(v)]; the elements of an array that are [null] give the empty
    string.  Numbers are printed in decimal, as JavaScript prints the
    integers below [10^21]. *)
Fixpoint to_string (v : json) : string :=
  match v with
  | JNull => "null"
  | JBool true => "true"
  | JBool false => "false"
  | JNum n => pretty n
  | JStr s => s
  | JArr items =>
      join "," (map (fun item => match item with
                                 | JNull => ""
                                 | _ => to_string item
                                 end) items)
  | JObj _ => "[object Object]"
  end.

(** [items.join(sep)] *)
Definition join_values (sep : string) (items : list json) : string :=
  join sep (map (fun item => match item with
                             | JNull => ""
                             | _ => to_string item
                             end) items).

(** *** [mapTools] *)

(** [(x ?? [])] as the receiver of [concat] or [map]: a value that is
    neither nullish nor an array has no such method that returns an array
    (a string has [concat], and its result has no [map]). *)
Definition as_array (what : string) (x : option json) : outcome (list json) :=
  match x with
  | None | Some JNull => Returned []
  | Some (JArr items) => Returned items
  | Some _ => Thrown ("TypeError: " +:+ what +:+ " is not an array")
  end.

(** The callback of [openAITools.map]. *)
Definition map_tool (t : json) : outcome json :=
  match t with
  | JNull => Thrown "TypeError: Cannot read properties of null (reading 'function')"
  | _ =>
      let function := prop "function" t in
      let name := nullish_or (chain "name" function) (prop "name" t) in
      let description :=
        nullish_or (chain "description" function) (prop "description" t) in
      let input_schema :=
        option_map removeUriFormat
          (nullish_or (chain "parameters" function) (prop "input_schema" t)) in
      let tool (input_schema : option json) : json :=
        JObj (field "name" name ++ field "description" description
              ++ field "input_schema" input_schema) in
      (* Handle o3 strict mode *)
      if is_true (chain "strict" function) || is_true (prop "strict" t) then
        match truthy_value input_schema with
        | Some (JObj props) =>
            Returned (tool (Some (JObj (set "additionalProperties" (JBool false) props))))
        | Some (JArr _) =>
            (* the array takes the property; its elements stay as they are *)
            Returned (tool input_schema)
        | Some _ =>
            Thrown "TypeError: Cannot create property 'additionalProperties'"
        | None => Returned (tool input_schema)
        end
      else Returned (tool input_schema)
  end.

(** The function rewrites [req] in place; the embedding returns the
    rewritten request. *)
Definition mapTools (req : object) : outcome object :=
  (* Combine tools and functions into a unified array *)
  bind (as_array "req.functions" (get "functions" req)) (fun functions =>
  bind (as_array "req.tools" (get "tools" req)) (fun tools =>
  let openAITools :=
    tools ++ map (fun f => JObj [("type", JStr "function"); ("function", f)]) functions in
  (* Convert to Claude tool format *)
  bind (traverse map_tool openAITools) (fun tools =>
  let req := set "tools" (JArr tools) req in
  (* Clean up original fields *)
  Returned (delete_key "functions" req)))).

(** *** [mapToolChoice] *)

Definition mapToolChoice (req : object) : object :=
  (* Handle both function_call and tool_choice *)
  let toolChoice := truthy_or (get "tool_choice" req) (get "function_call" req) in
  match truthy_value toolChoice with
  | None => req
  | Some toolChoice =>
      let req :=
        match toolChoice with
        | JStr s =>
            if (s =? "none")%string then
              set "tool_choice" (JObj [("type", JStr "none")]) req
            else if (s =? "required")%string then
              set "tool_choice" (JObj [("type", JStr "any")]) req
            else
              set "tool_choice" (JObj [("type", JStr "auto")]) req
        | JArr _ | JObj _ =>
            match (if is_str (prop "type" toolChoice) "function"
                   then truthy_value (chain "name" (prop "function" toolChoice))
                   else None) with
            | Some name =>
                (* o3 format: {type: 'function', function: {name: 'tool_name'}} *)
                set "tool_choice" (JObj [("type", JStr "tool"); ("name", name)]) req
            | None =>
                match truthy_value (prop "name" toolChoice) with
                | Some name =>
                    (* Legacy format: {name: 'tool_name'} *)
                    set "tool_choice" (JObj [("type", JStr "tool"); ("name", name)]) req
                | None => req
                end
            end
        | _ => req
        end in
      delete_key "function_call" req
  end.

(** *** [extractTextContent] *)

Fixpoint extractTextContent (content : json) : json :=
  match content with
  | JStr _ => content
  | JArr blocks =>
      (* Handle array of content blocks *)
      let textParts :=
        flat_map (fun block =>
          match block with
          | JStr _ => [block]
          | JObj props =>
              match (if is_str (get "type" props) "text"
                     then truthy_value (get "text" props) else None) with
              | Some text => [text]
              | None =>
                  with_prop "content"
                    (fun inner => if truthy inner then [extractTextContent inner] else [])
                    [] props
              end
          | _ => []
          end) blocks in
      JStr (join_values nl textParts)
  | JObj props =>
      (* Handle object content *)
      match truthy_value (get "text" props) with
      | Some text => text
      | None =>
          with_prop "content"
            (fun inner =>
               if truthy inner then extractTextContent inner
               else JStr (stringify content))
            (JStr (stringify content)) props
      end
  | _ =>
      (* Fallback to JSON stringify for debugging *)
      JStr (stringify content)
  end.

(** *** [transformMessages] *)

(** The variables of the loop; [randoms] counts the values drawn from
    [Math.random]. *)
Record Loop : Type := {
  transformedMessages : list json;
  systemMessages : list json;
  randoms : nat
}.

Definition push_message (m : json) (st : Loop) : Loop :=
  {| transformedMessages := transformedMessages st ++ [m];
     systemMessages := systemMessages st;
     randoms := randoms st |}.

(** [if (content) systemMessages.push(content)]; the content extracted
    from [undefined] is [undefined]. *)
Definition push_system (content : option json) (st : Loop) : Loop :=
  match truthy_value (option_map extractTextContent content) with
  | Some text =>
      {| transformedMessages := transformedMessages st;
         systemMessages := systemMessages st ++ [text];
         randoms := randoms st |}
  | None => st
  end.

Definition draw (st : Loop) : Loop :=
  {| transformedMessages := transformedMessages st;
     systemMessages := systemMessages st;
     randoms := S (randoms st) |}.

(** [if (msg.content) content.push({ type: 'text', text: msg.content })] *)
Definition text_blocks (content : option json) : list json :=
  match truthy_value content with
  | Some text => [JObj [("type", JStr "text"); ("text", text)]]
  | None => []
  end.

Definition tool_result (tool_use_id content : option json) : json :=
  JObj [("role", JStr "user");
        ("content",
         JArr [JObj ([("type", JStr "tool_result")]
                     ++ field "tool_use_id" tool_use_id
                     ++ field "content" content)])].

Definition tool_use (id name input : option json) : json :=
  JObj ([("type", JStr "tool_use")]
        ++ field "id" id ++ field "name" name ++ field "input" input).

Definition assistant (content : list json) : json :=
  JObj [("role", JStr "assistant"); ("content", JArr content)].

Section Messages.

(** [JSON.parse], [None] when it throws a [SyntaxError]. *)
Variable JSON_parse : string -> option json.

(** The [k]-th value of [Math.random().toString(36).substring(2, 10)]. *)
Variable random : nat -> string.

(** [typeof a === 'string' ? JSON.parse(a) : a] *)
Definition parse_arguments (arguments : option json) : outcome (option json) :=
  match arguments with
  | Some (JStr text) =>
      match JSON_parse text with
      | Some v => Returned (Some v)
      | None => Thrown "SyntaxError: JSON.parse"
      end
  | _ => Returned arguments
  end.

(** One turn of [for (const toolCall of msg.tool_calls)]: the block that
    is pushed. *)
Definition tool_use_of_call (toolCall : json) : outcome json :=
  match toolCall with
  | JNull => Thrown "TypeError: Cannot read properties of null (reading 'id')"
  | _ =>
      match prop "function" toolCall with
      | None | Some JNull =>
          Thrown "TypeError: Cannot read properties of undefined (reading 'name')"
      | Some function =>
          bind (parse_arguments (prop "arguments" function)) (fun input =>
          Returned (tool_use (prop "id" toolCall) (prop "name" function) input))
      end
  end.

(** One turn of [for (const msg of req.messages)]. *)
Definition transform_message (st : Loop) (msg : json) : outcome Loop :=
  match msg with
  | JNull => Thrown "TypeError: Cannot read properties of null (reading 'role')"
  | _ =>
      let role := prop "role" msg in
      (* Handle developer messages (o3 specific) - treat as system messages *)
      if is_str role "developer" then
        Returned (push_system (prop "content" msg) st)
      (* Extract system messages *)
      else if is_str role "system" then
        Returned (push_system (prop "content" msg) st)
      (* Handle function role -> user role with tool_result *)
      else if is_str role "function" then
        Returned
          (push_message
             (tool_result (truthy_or (prop "tool_call_id" msg) (prop "name" msg))
                (prop "content" msg)) st)
      (* Handle assistant messages with function_call *)
      else if is_str role "assistant" && truthy_opt (prop "function_call" msg) then
        let function_call := prop "function_call" msg in
        let '(id, st) :=
          match truthy_value (chain "id" function_call) with
          | Some id => (Some id, st)
          | None => (Some (JStr ("call_" +:+ random (randoms st))), draw st)
          end in
        bind (parse_arguments (chain "arguments" function_call)) (fun input =>
        Returned
          (push_message
             (assistant
                (text_blocks (prop "content" msg)
                 ++ [tool_use id (chain "name" function_call) input])) st))
      (* Handle assistant messages with tool_calls *)
      else if is_str role "assistant" && truthy_opt (prop "tool_calls" msg) then
        match prop "tool_calls" msg with
        | Some (JArr tool_calls) =>
            bind (traverse tool_use_of_call tool_calls) (fun blocks =>
            Returned
              (push_message
                 (assistant (text_blocks (prop "content" msg) ++ blocks)) st))
        | _ =>
            (* not iterable, or a string, whose characters have no [function] *)
            Thrown "TypeError: msg.tool_calls cannot be converted"
        end
      (* Handle tool role -> user role with tool_result *)
      else if is_str role "tool" then
        Returned
          (push_message
             (tool_result (prop "tool_call_id" msg) (prop "content" msg)) st)
      (* Pass through other messages *)
      else Returned (push_message msg st)
  end.

(** The function rewrites [req] in place; the embedding returns the
    rewritten request.  Nothing is written before the loop has ended. *)
Definition transformMessages (req : object) : outcome object :=
  match get "messages" req with
  | Some (JArr messages) =>
      bind (fold_outcome transform_message messages
              {| transformedMessages := []; systemMessages := []; randoms := O |})
        (fun st =>
      (* Set system message (Claude takes a single system string, not array) *)
      let req :=
        match systemMessages st with
        | [] => req
        | _ :: _ => set "system" (JStr (join_values (nl +:+ nl) (systemMessages st))) req
        end in
      Returned (set "messages" (JArr (transformedMessages st)) req))
  | _ => Returned req
  end.

End Messages.

End OpenAI.


(** ** [src/handlers/gemini-handler.ts]: the stream re-emitter *)

Module Handler.

(** *** Upstream frames

    A frame is read at the shape the Gemini stream documents:
    [{ candidates: [{ content: { parts: [...] }, finishReason }],
       usageMetadata: { promptTokenCount, candidatesTokenCount } }].
    An absent field is [None]; an absent [candidates] is the empty list. *)

Record FunctionCall : Type := {
  name : string;
  args : option json
}.

Record Part : Type := {
  text : option string;
  functionCall : option FunctionCall
}.

Record Candidate : Type := {
  parts : option (list Part);   (* candidate.content?.parts *)
  finishReason : option string
}.

Record UsageMetadata : Type := {
  promptTokenCount : option Z;
  candidatesTokenCount : option Z
}.

Record Chunk : Type := {
  candidates : list Candidate;
  usageMetadata : option UsageMetadata
}.

(** *** Outbound events and session state *)

(** One [send(e, d)]: the event name and the data that is serialized. *)
Record SseEvent : Type := {
  event : string;
  data : json
}.

Record Usage : Type := {
  input_tokens : Z;
  output_tokens : Z
}.

Record ToolCall : Type := {
  tool_id : string;
  tool_name : string;
  tool_args : option json
}.

(** The variables of one [start(controller)] run.  [enqueued] is what the
    controller has been given, oldest first; [stamps] counts the
    identifiers generated so far. *)
Record Stream : Type := {
  isClosed : bool;
  enqueued : list SseEvent;
  usage : option Usage;
  finalized : bool;
  textStarted : bool;
  textIdx : Z;
  curIdx : Z;
  tools : gmap Z ToolCall;
  accumulatedText : string;
  stamps : nat
}.

(** The fields of the handler that a stream reads or writes.  The status
    file and the floating-point cost estimate are left out. *)
Record GeminiHandler : Type := {
  targetModel : string;
  sessionInputTokens : Z;
  sessionOutputTokens : Z
}.

Definition set_isClosed (b : bool) (s : Stream) : Stream :=
  {| isClosed := b; enqueued := enqueued s; usage := usage s;
     finalized := finalized s; textStarted := textStarted s;
     textIdx := textIdx s; curIdx := curIdx s; tools := tools s;
     accumulatedText := accumulatedText s; stamps := stamps s |}.

Definition set_enqueued (q : list SseEvent) (s : Stream) : Stream :=
  {| isClosed := isClosed s; enqueued := q; usage := usage s;
     finalized := finalized s; textStarted := textStarted s;
     textIdx := textIdx s; curIdx := curIdx s; tools := tools s;
     accumulatedText := accumulatedText s; stamps := stamps s |}.

Definition set_usage (u : option Usage) (s : Stream) : Stream :=
  {| isClosed := isClosed s; enqueued := enqueued s; usage := u;
     finalized := finalized s; textStarted := textStarted s;
     textIdx := textIdx s; curIdx := curIdx s; tools := tools s;
     accumulatedText := accumulatedText s; stamps := stamps s |}.

Definition set_finalized (b : bool) (s : Stream) : Stream :=
  {| isClosed := isClosed s; enqueued := enqueued s; usage := usage s;
     finalized := b; textStarted := textStarted s;
     textIdx := textIdx s; curIdx := curIdx s; tools := tools s;
     accumulatedText := accumulatedText s; stamps := stamps s |}.

(** [textStarted = true; textIdx = curIdx++] *)
Definition start_text (s : Stream) : Stream :=
  {| isClosed := isClosed s; enqueued := enqueued s; usage := usage s;
     finalized := finalized s; textStarted := true;
     textIdx := curIdx s; curIdx := curIdx s + 1; tools := tools s;
     accumulatedText := accumulatedText s; stamps := stamps s |}.

(** [accumulatedText += t] *)
Definition accumulate (t : string) (s : Stream) : Stream :=
  {| isClosed := isClosed s; enqueued := enqueued s; usage := usage s;
     finalized := finalized s; textStarted := textStarted s;
     textIdx := textIdx s; curIdx := curIdx s; tools := tools s;
     accumulatedText := accumulatedText s +:+ t; stamps := stamps s |}.

(** The identifier is generated and [toolIdx = curIdx++] is taken. *)
Definition allocate_tool (s : Stream) : Stream :=
  {| isClosed := isClosed s; enqueued := enqueued s; usage := usage s;
     finalized := finalized s; textStarted := textStarted s;
     textIdx := textIdx s; curIdx := curIdx s + 1; tools := tools s;
     accumulatedText := accumulatedText s; stamps := S (stamps s) |}.

(** [tools.set(toolIdx, call)] *)
Definition record_tool (toolIdx : Z) (call : ToolCall) (s : Stream) : Stream :=
  {| isClosed := isClosed s; enqueued := enqueued s; usage := usage s;
     finalized := finalized s; textStarted := textStarted s;
     textIdx := textIdx s; curIdx := curIdx s; tools := <[toolIdx := call]> (tools s);
     accumulatedText := accumulatedText s; stamps := stamps s |}.

(** [send(e, d)]: nothing is enqueued once the stream is closed. *)
Definition send (e : string) (d : json) (s : Stream) : Stream :=
  if isClosed s then s
  else set_enqueued (enqueued s ++ [{| event := e; data := d |}]) s.

(** *** The events *)

Definition text_block_start (index : Z) : json :=
  JObj [("type", JStr "content_block_start");
        ("index", JNum index);
        ("content_block", JObj [("type", JStr "text"); ("text", JStr "")])].

Definition text_delta (index : Z) (t : string) : json :=
  JObj [("type", JStr "content_block_delta");
        ("index", JNum index);
        ("delta", JObj [("type", JStr "text_delta"); ("text", JStr t)])].

Definition tool_block_start (index : Z) (toolId toolName : string) : json :=
  JObj [("type", JStr "content_block_start");
        ("index", JNum index);
        ("content_block",
         JObj [("type", JStr "tool_use"); ("id", JStr toolId);
               ("name", JStr toolName)])].

(** [partial_json: JSON.stringify(args)]; the field is left out of the
    serialized data when [args] is [undefined]. *)
Definition input_json_delta (index : Z) (toolArgs : option json) : json :=
  JObj [("type", JStr "content_block_delta");
        ("index", JNum index);
        ("delta",
         JObj ([("type", JStr "input_json_delta")]
               ++ match toolArgs with
                  | Some a => [("partial_json", JStr (stringify a))]
                  | None => []
                  end))].

Definition content_block_stop (index : Z) : json :=
  JObj [("type", JStr "content_block_stop"); ("index", JNum index)].

(** [usage || { output_tokens: 0 }] *)
Definition usage_json (u : option Usage) : json :=
  match u with
  | Some u =>
      JObj [("input_tokens", JNum (input_tokens u));
            ("output_tokens", JNum (output_tokens u))]
  | None => JObj [("output_tokens", JNum 0)]
  end.

Definition message_delta (stopReason : json) (u : option Usage) : json :=
  JObj [("type", JStr "message_delta");
        ("delta", JObj [("stop_reason", stopReason); ("stop_sequence", JNull)]);
        ("usage", usage_json u)].

Definition message_stop : json := JObj [("type", JStr "message_stop")].

Definition message_start (msgId model : string) : json :=
  JObj [("type", JStr "message_start");
        ("message",
         JObj [("id", JStr msgId); ("type", JStr "message");
               ("role", JStr "assistant"); ("content", JArr []);
               ("model", JStr model); ("stop_reason", JNull);
               ("stop_sequence", JNull);
               ("usage", JObj [("input_tokens", JNum 100);
                               ("output_tokens", JNum 1)])])].

Definition error_event (err : string) : json :=
  JObj [("type", JStr "error");
        ("error", JObj [("type", JStr "api_error"); ("message", JStr err)])].

(** What happens while the task awaits [reader.read()]: the read gives
    decoded text, the read throws, or the consumer cancels the outbound
    stream.  The end of the list is [done]. *)
Inductive ReadStep : Type :=
| Data (decoded : string)
| Fails (err : string)
| Cancel.

(** The state when [start(controller)] begins; the message id has taken
    the first generated value. *)
Definition initial : Stream :=
  {| isClosed := false; enqueued := []; usage := None; finalized := false;
     textStarted := false; textIdx := -1; curIdx := 0; tools := empty;
     accumulatedText := ""; stamps := 1 |}.

Section Session.

(** [JSON.parse] of a data line, read as a frame; [None] when it throws.
    A text that parses to a value of another shape is outside the model. *)
Variable JSON_parse : string -> option Chunk.

(** The [k]-th value of
    [`${Date.now()}_${Math.random().toString(36).slice(2)}`]. *)
Variable stamp : nat -> string.

(** [if (part.text) { ... }] *)
Definition handle_text (s : Stream) (part : Part) : Stream :=
  match text part with
  | Some t =>
      if negb (t =? "")%string then
        let s :=
          if textStarted s then s
          else
            let s := start_text s in
            send "content_block_start" (text_block_start (textIdx s)) s in
        let s := accumulate t s in
        send "content_block_delta" (text_delta (textIdx s) t) s
      else s
  | None => s
  end.

(** [if (part.functionCall) { ... }] *)
Definition handle_function_call (s : Stream) (part : Part) : Stream :=
  match functionCall part with
  | Some call =>
      let toolId := "toolu_" +:+ stamp (stamps s) in
      let toolIdx := curIdx s in
      let s := allocate_tool s in
      (* Start tool use block *)
      let s :=
        send "content_block_start" (tool_block_start toolIdx toolId (name call)) s in
      (* Send tool input *)
      let s := send "content_block_delta" (input_json_delta toolIdx (args call)) s in
      (* Stop tool use block *)
      let s := send "content_block_stop" (content_block_stop toolIdx) s in
      record_tool toolIdx
        {| tool_id := toolId; tool_name := name call; tool_args := args call |} s
  | None => s
  end.

(** The body of [for (const part of parts)]. *)
Definition handle_part (s : Stream) (part : Part) : Stream :=
  handle_function_call (handle_text s part) part.

(** What follows a successful [JSON.parse]. *)
Definition handle_chunk (s : Stream) (chunk : Chunk) : Stream :=
  match head (candidates chunk) with
  | None => s
  | Some candidate =>
      let s := fold_left handle_part (default [] (parts candidate)) s in
      (* Track usage *)
      let s :=
        match usageMetadata chunk with
        | Some um =>
            set_usage
              (Some {| input_tokens := default 0 (promptTokenCount um);
                       output_tokens := default 0 (candidatesTokenCount um) |}) s
        | None => s
        end in
      (* Check for finish reason *)
      match finishReason candidate with
      | Some reason =>
          if negb (reason =? "")%string && negb (finalized s) then
            let s := set_finalized true s in
            let s :=
              if textStarted s
              then send "content_block_stop" (content_block_stop (textIdx s)) s
              else s in
            let stopReason :=
              if (reason =? "STOP")%string then JStr "end_turn"
              else if (reason =? "MAX_TOKENS")%string then JStr "max_tokens"
              else JNull in
            send "message_delta" (message_delta stopReason (usage s)) s
          else s
      | None => s
      end
  end.

(** The body of [for (const line of lines)]. *)
Definition handle_line (s : Stream) (line : string) : Stream :=
  if (trim line =? "")%string || startsWith ":" line then s
  else if startsWith "data: " line then
    let jsonStr := slice 6 line in
    if (trim jsonStr =? "[DONE]")%string then s
    else
      match JSON_parse jsonStr with
      | Some chunk => handle_chunk s chunk
      | None => s   (* Chunk parse error *)
      end
  else s.

(** The [while (true)] loop; the second component is the error thrown. *)
Fixpoint read_loop (steps : list ReadStep) (buffer : string) (s : Stream)
  : Stream * option string :=
  match steps with
  | [] => (s, None)
  | Cancel :: rest => read_loop rest buffer (set_isClosed true s)
  | Fails err :: _ => (s, Some err)
  | Data decoded :: rest =>
      let buffer := buffer +:+ decoded in
      let lines := split nl buffer in
      (* buffer = lines.pop() || "" *)
      let buffer := List.last lines "" in
      let lines := removelast lines in
      read_loop rest buffer (fold_left handle_line lines s)
  end.

(** [start(controller)] for one response; [body] is [None] when the
    response has no body.  Returns the handler and the stream at the end. *)
Definition handleStreamingResponse (this : GeminiHandler) (body : option (list ReadStep))
  : GeminiHandler * Stream :=
  let msgId := "msg_" +:+ stamp 0 in
  let s := send "message_start" (message_start msgId (targetModel this)) initial in
  let '(s, thrown) :=
    match body with
    | Some steps => read_loop steps "" s
    | None => (s, Some "Error: No response body")
    end in
  match thrown with
  | None =>
      (* If not finalized, send final events *)
      let s :=
        if finalized s then s
        else
          let s :=
            if textStarted s
            then send "content_block_stop" (content_block_stop (textIdx s)) s
            else s in
          send "message_delta" (message_delta (JStr "end_turn") (usage s)) s in
      let s := send "message_stop" message_stop s in
      (* Update token tracking *)
      let this :=
        match usage s with
        | Some u =>
            {| targetModel := targetModel this;
               sessionInputTokens := input_tokens u;
               sessionOutputTokens := sessionOutputTokens this + output_tokens u |}
        | None => this
        end in
      (* controller.close(); isClosed = true *)
      (this, set_isClosed true s)
  | Some err =>
      if isClosed s then (this, s)
      else (this, set_isClosed true (send "error" (error_event err) s))
  end.

End Session.

End Handler.

(** ** Observations used in the statements *)

Module Observe.
Import Handler.

(** The [index] field of an event's data. *)
Definition event_index (e : SseEvent) : option Z :=
  match prop "index" (data e) with
  | Some (JNum i) => Some i
  | _ => None
  end.

(** The type of the block a [content_block_start] opens. *)
Definition block_type (e : SseEvent) : option json :=
  match prop "content_block" (data e) with
  | Some block => prop "type" block
  | None => None
  end.

(** The indices of the [content_block_start] events, in emission order. *)
Definition started_blocks (q : list SseEvent) : list Z :=
  flat_map (fun e =>
    if (event e =? "content_block_start")%string
    then match event_index e with Some i => [i] | None => [] end
    else []) q.

(** Every index carried by an event is below [n]. *)
Definition indices_below (n : Z) (q : list SseEvent) : bool :=
  forallb (fun e =>
    match event_index e with
    | Some i => (0 <=? i) && (i <? n)
    | None => true
    end) q.

(** The invariant of the block counter: the blocks started so far carry
    the indices [0 .. n-1] in this order, every index on an event is one
    of them, and while the stream is open the counter stands at [n] and an
    open text block is one of the started blocks. *)
Definition well_indexed (s : Stream) : Prop :=
  exists n : nat,
    started_blocks (enqueued s) = map Z.of_nat (seq 0 n) /\
    indices_below (Z.of_nat n) (enqueued s) = true /\
    (isClosed s = false ->
     curIdx s = Z.of_nat n /\
     (textStarted s = true -> 0 <= textIdx s < Z.of_nat n)).

(** [e] starts a [tool_use] block at index [i]. *)
Definition opens_tool (i : Z) (e : SseEvent) : Prop :=
  event e = "content_block_start" /\
  event_index e = Some i /\
  block_type e = Some (JStr "tool_use").

(** No event of [new] is a [message_delta], and every
    [content_block_stop] in it closes a [tool_use] block that [new] itself
    starts, at an index not below [lo]. *)
Definition closes_only_own_tools (lo : Z) (new : list SseEvent) : Prop :=
  forall e, In e new ->
    event e <> "message_delta" /\
    (event e = "content_block_stop" ->
     exists i, event_index e = Some i /\ lo <= i /\
               exists e', In e' new /\ opens_tool i e').

(** The number of [content_block_stop] events. *)
Definition count_stops (q : list SseEvent) : nat :=
  length (List.filter (fun e => (event e =? "content_block_stop")%string) q).

(** The parts the loop of [handle_chunk] visits. *)
Definition first_parts (chunk : Chunk) : list Part :=
  match head (candidates chunk) with
  | Some candidate => default [] (parts candidate)
  | None => []
  end.

(** The number of function-call parts among [ps]. *)
Definition count_calls (ps : list Part) : nat :=
  length (List.filter (fun p => match functionCall p with
                                | Some _ => true
                                | None => false
                                end) ps).

(** The events enqueued between two states of one stream. *)
Definition emitted_since (s s' : Stream) : list SseEvent :=
  drop (length (enqueued s)) (enqueued s').

(** The error the read loop throws, if any. *)
Fixpoint first_failure (steps : list ReadStep) : option string :=
  match steps with
  | [] => None
  | Fails err :: _ => Some err
  | _ :: rest => first_failure rest
  end.

Definition failure (body : option (list ReadStep)) : option string :=
  match body with
  | Some steps => first_failure steps
  | None => Some "Error: No response body"
  end.

(** The consumer cancels before the read loop is left. *)
Fixpoint cancelled (steps : list ReadStep) : bool :=
  match steps with
  | [] => false
  | Cancel :: _ => true
  | Fails _ :: _ => false
  | Data _ :: rest => cancelled rest
  end.

Definition cancelled_body (body : option (list ReadStep)) : bool :=
  match body with
  | Some steps => cancelled steps
  | None => false
  end.

Section Frames.

Variable JSON_parse : string -> option Chunk.

(** The frame a line carries, following the tests of [handle_line]. *)
Definition line_frame (line : string) : option Chunk :=
  if (trim line =? "")%string || startsWith ":" line then None
  else if startsWith "data: " line then
    let jsonStr := slice 6 line in
    if (trim jsonStr =? "[DONE]")%string then None else JSON_parse jsonStr
  else None.

(** The frames the read loop hands to [handle_chunk], in order. *)
Fixpoint decoded_frames (steps : list ReadStep) (buffer : string) : list Chunk :=
  match steps with
  | [] => []
  | Cancel :: rest => decoded_frames rest buffer
  | Fails _ :: _ => []
  | Data decoded :: rest =>
      let lines := split nl (buffer +:+ decoded) in
      omap line_frame (removelast lines) ++ decoded_frames rest (List.last lines "")
  end.

End Frames.

(** The usage a frame records: it needs a first candidate and usage
    metadata. *)
Definition frame_usage (chunk : Chunk) : option Usage :=
  match head (candidates chunk), usageMetadata chunk with
  | Some _, Some um =>
      Some {| input_tokens := default 0 (promptTokenCount um);
              output_tokens := default 0 (candidatesTokenCount um) |}
  | _, _ => None
  end.

(** The running tally after a frame. *)
Definition track_usage (u : option Usage) (chunk : Chunk) : option Usage :=
  match frame_usage chunk with
  | Some u' => Some u'
  | None => u
  end.

(** The usage of the latest frame that records one. *)
Definition latest_usage (frames : list Chunk) : option Usage :=
  last (omap frame_usage frames).

(** The sum of the output-token counts of the frames that record usage. *)
Definition summed_output (frames : list Chunk) : Z :=
  foldr Z.add 0 (map output_tokens (omap frame_usage frames)).

(** A string, or a falsy value that the filter drops without calling
    [trim] on it. *)
Definition text_like (v : json) : bool :=
  match v with
  | JStr _ => true
  | _ => negb (truthy v)
  end.

(** The [system] field is not an array, or every item of the array
    flattens to a string or to a falsy value. *)
Definition system_texts_are_strings (input : object) : bool :=
  match get "system" input with
  | Some (JArr items) =>
      forallb (fun item => text_like (Transform.system_item_text item)) items
  | _ => true
  end.

(** [geminiPayload.contents] *)
Definition payload_contents (payload : object) : list json :=
  match get "contents" payload with
  | Some (JArr contents) => contents
  | _ => []
  end.

End Observe.

(** ** Auxiliary definitions for the schema pruning *)

Module CleanAux.
Import Transform.

(** The body of the [for (const key in schema)] loop, for one property. *)
Definition clean_entry (kv : string * json) : list (string * json) :=
  let key := fst kv in
  let v := snd kv in
  if includes_key UNSUPPORTED_FIELDS key then []
  else if (key =? "properties")%string && typeof_object v then
    [(key, JObj (match v with
                 | JObj ps =>
                     map (fun pv : string * json =>
                            (fst pv, cleanSchemaForGemini (snd pv))) ps
                 | JArr xs =>
                     combine (index_keys (length xs)) (map cleanSchemaForGemini xs)
                 | _ => []
                 end))]
  else if (key =? "items")%string && typeof_object v then
    [(key, cleanSchemaForGemini v)]
  else if typeof_object v && negb (isArray v) then
    [(key, cleanSchemaForGemini v)]
  else
    match v with
    | JArr xs =>
        [(key, JArr (map (fun item =>
                            if typeof_object item
                            then cleanSchemaForGemini item else item) xs))]
    | _ => [(key, v)]
    end.



End CleanAux.

(** ** Auxiliary definitions for [transformOpenAIToClaude] *)

Module OpenAIAux.
Import Transform.

(** What the function does after the [system] field has been flattened. *)
Definition finish_request (o3 : bool) (req : object) : outcome OpenAIToClaude :=
  let req :=
    match get "messages" req with
    | Some (JArr _) => req
    | None | Some JNull => set "messages" (JArr []) req
    | Some messages => set "messages" (JArr [messages]) req
    end in
  let req :=
    match get "tools" req with
    | Some (JArr _) => req
    | _ => set "tools" (JArr []) req
    end in
  let req :=
    match get "tools" req with
    | Some (JArr tools) => set "tools" (JArr (map clean_tool tools)) req
    | _ => req
    end in
  let dropped : list string := [] in
  Returned {| claudeRequest := req; droppedParams := dropped; isO3Model := o3 |}.

(** A request carrying keys of the drop-list. *)
Definition openai_sample : object :=
  [("model", JStr "o3-mini"); ("seed", JNum 7); ("user", JStr "u");
   ("system", JArr [JStr "be brief"; JObj [("type", JStr "text"); ("text", JStr "be kind")]]);
   ("tools", JArr [JObj [("name", JStr "open");
                         ("input_schema",
                          JObj [("type", JStr "string"); ("format", JStr "uri")])]])].

End OpenAIAux.

(** ** Sample request for [transformClaudeToGemini] *)

Module GeminiAux.
Import Transform.

Definition gemini_blocks : list ContentBlock :=
  [ TextBlock "ok";
    ToolUseBlock (Some "toolu_1__ts_YWJj") "open" (JObj [("path", JStr "a")]);
    ToolUseBlock (Some "toolu_2__ts_%E0%A4%A") "close" (JObj []) ].

Definition gemini_assistant : Message :=
  {| role := "assistant"; content := ContentBlocks gemini_blocks |}.

Definition gemini_messages : list Message :=
  [ {| role := "user"; content := ContentString "look" |}; gemini_assistant ].

Definition gemini_sample : ClaudeRequest :=
  {| system := None; messages := Some gemini_messages; temperature := None;
     max_tokens := Some (JNum 64); stop_sequences := None; top_p := None;
     top_k := None; tools := None; thinking := Some 30000 |}.

End GeminiAux.

(** ** Sample streams *)

Module StreamAux.
Import Handler.

(** The two frames of the text example, as JSON and as frames. *)
Definition hi_json : json :=
  JObj [("candidates",
         JArr [JObj [("content",
                      JObj [("parts", JArr [JObj [("text", JStr "Hi")]])])]])].

Definition there_json : json :=
  JObj [("candidates",
         JArr [JObj [("content",
                      JObj [("parts", JArr [JObj [("text", JStr " there")]])]);
                     ("finishReason", JStr "STOP")]]);
        ("usageMetadata",
         JObj [("promptTokenCount", JNum 10); ("candidatesTokenCount", JNum 2)])].

Definition hi_frame : Chunk :=
  {| candidates :=
       [{| parts := Some [{| text := Some "Hi"; functionCall := None |}];
           finishReason := None |}];
     usageMetadata := None |}.

Definition there_frame : Chunk :=
  {| candidates :=
       [{| parts := Some [{| text := Some " there"; functionCall := None |}];
           finishReason := Some "STOP" |}];
     usageMetadata :=
       Some {| promptTokenCount := Some 10; candidatesTokenCount := Some 2 |} |}.

(** One server-sent event: a data line and a blank line. *)
Definition sse (payload : json) : string :=
  "data: " +:+ stringify payload +:+ nl +:+ nl.

Definition hi_there_body : list ReadStep :=
  [Data (sse hi_json); Data (sse there_json)].

(** The same text cut in the middle of the first line and of the second
    line. *)
Definition hi_there_pieces : list string :=
  let whole := sse hi_json +:+ sse there_json in
  [ String.substring 0 17 whole;
    String.substring 17 60 whole;
    String.substring 77 (String.length whole - 77) whole ].

(** A frame that only reports usage, with a first candidate. *)
Definition usage_json_frame (input output : Z) : json :=
  JObj [("candidates", JArr [JObj []]);
        ("usageMetadata",
         JObj [("promptTokenCount", JNum input);
               ("candidatesTokenCount", JNum output)])].

Definition usage_frame (input output : Z) : Chunk :=
  {| candidates := [{| parts := None; finishReason := None |}];
     usageMetadata :=
       Some {| promptTokenCount := Some input;
               candidatesTokenCount := Some output |} |}.

(** A table standing for [JSON.parse] on the sample frames. *)
Definition sample_parse (text : string) : option Chunk :=
  if (text =? stringify hi_json)%string then Some hi_frame
  else if (text =? stringify there_json)%string then Some there_frame
  else if (text =? stringify (usage_json_frame 10 1))%string
  then Some (usage_frame 10 1)
  else if (text =? stringify (usage_json_frame 10 2))%string
  then Some (usage_frame 10 2)
  else None.

Definition sample_stamp (k : nat) : string := "t" +:+ pretty k.

Definition sample_handler : GeminiHandler :=
  {| targetModel := "gemini-2.5-flash";
     sessionInputTokens := 0; sessionOutputTokens := 0 |}.

(** A function-call part and a frame that carries only it. *)
Definition call_part (fname : string) (fargs : json) : Part :=
  {| text := None;
     functionCall := Some {| name := fname; args := Some fargs |} |}.

Definition call_frame (fname : string) (fargs : json) : Chunk :=
  {| candidates :=
       [{| parts := Some [call_part fname fargs]; finishReason := None |}];
     usageMetadata := None |}.

(** Two frames that both report usage, and a stream whose read throws. *)
Definition two_usage_body : list ReadStep :=
  [Data (sse (usage_json_frame 10 1)); Data (sse (usage_json_frame 10 2))].

Definition failing_body : list ReadStep :=
  [Data (sse hi_json); Fails "boom"].

(** The consumer cancels between the two frames of the text example. *)
Definition cancelled_body_sample : list ReadStep :=
  [Data (sse hi_json); Cancel; Data (sse there_json)].

(** A stream on which a finish reason has been handled after one text. *)
Definition finalized_stream : Stream :=
  Handler.handle_chunk sample_stamp
    (send "message_start" (message_start "msg_t0" "gemini-2.5-flash") initial)
    {| candidates :=
         [{| parts := Some [{| text := Some "Hi"; functionCall := None |}];
             finishReason := Some "STOP" |}];
       usageMetadata := None |}.

End StreamAux.

(** ** The steps of [sanitizeRoot] on the request *)

Module SanitizeAux.
Import Transform.

(** Rename stop -> stop_sequences *)
Definition rename_stop (req : object) : object :=
  match get "stop" req with
  | Some stop =>
      delete_key "stop"
        (set "stop_sequences" (if isArray stop then stop else JArr [stop]) req)
  | None => req
  end.

(** Convert user -> metadata.user_id *)
Definition move_user (req : object) : object :=
  match get "user" req with
  | Some user =>
      if truthy user then
        delete_key "user"
          (set "metadata"
             (JObj (set "user_id" user (spread (get "metadata" req)))) req)
      else req
  | None => req
  end.

(** Ensure max_tokens is set *)
Definition default_max_tokens (req : object) : object :=
  match get "max_tokens" req with
  | None | Some JNull => set "max_tokens" (JNum 4096) req
  | Some _ => req
  end.

(** The keys that [sanitizeRoot] deletes or assigns. *)
Definition sanitizer_keys : list string :=
  DROP_KEYS ++ ["stop"; "stop_sequences"; "metadata"; "max_tokens"].

End SanitizeAux.

(** ** Observations on schemas *)

Module SchemaAux.
Import Transform.

(** The body of the [for (const key in schema)] loop of
    [removeUriFormat], for one property. *)
Definition remove_entry (kv : string * json) : string * json :=
  let key := fst kv in
  let v := snd kv in
  if (key =? "properties")%string && typeof_object v then
    (key, JObj (match v with
                | JObj ps =>
                    map (fun pv : string * json =>
                           (fst pv, removeUriFormat (snd pv))) ps
                | JArr xs =>
                    combine (index_keys (length xs)) (map removeUriFormat xs)
                | _ => []
                end))
  else if (key =? "items")%string && typeof_object v then
    (key, removeUriFormat v)
  else if (key =? "additionalProperties")%string && typeof_object v then
    (key, removeUriFormat v)
  else
    match v with
    | JArr xs =>
        if includes_key ["anyOf"; "allOf"; "oneOf"] key
        then (key, JArr (map removeUriFormat xs))
        else (key, removeUriFormat v)
    | _ => (key, removeUriFormat v)
    end.

(** [schema.type === 'string' && schema.format === 'uri'] on an object *)
Definition is_uri_string (schema : json) : bool :=
  match schema with
  | JObj props =>
      is_str (get "type" props) "string" && is_str (get "format" props) "uri"
  | _ => false
  end.

(** No schema position of [schema] holds a schema of type [string] with
    format [uri].  The schema positions are the value itself, the values
    of its fields and the elements of arrays, at any depth; an object
    under [properties] lists properties, and the schemas it names are
    schema positions while the list itself is none. *)
Fixpoint uri_free (schema : json) : bool :=
  match schema with
  | JArr items => forallb uri_free items
  | JObj props =>
      negb (is_str (get "type" props) "string" && is_str (get "format" props) "uri") &&
      forallb (fun kv : string * json =>
        match snd kv with
        | JObj ps =>
            if (fst kv =? "properties")%string
            then forallb (fun pv : string * json => uri_free (snd pv)) ps
            else uri_free (snd kv)
        | _ => uri_free (snd kv)
        end) props
  | _ => true
  end.

(** What [uri_free] asks of one field of an object. *)
Definition uri_free_field (kv : string * json) : bool :=
  match snd kv with
  | JObj ps =>
      if (fst kv =? "properties")%string
      then forallb (fun pv : string * json => uri_free (snd pv)) ps
      else uri_free (snd kv)
  | _ => uri_free (snd kv)
  end.

(** Every schema of type [string] with format [uri] at a schema position
    of [schema] is flat: no schema position below it holds another one. *)
Fixpoint flat_uri_strings (schema : json) : bool :=
  match schema with
  | JArr items => forallb flat_uri_strings items
  | JObj props =>
      if is_str (get "type" props) "string" && is_str (get "format" props) "uri"
      then forallb uri_free_field props
      else
        forallb (fun kv : string * json =>
          match snd kv with
          | JObj ps =>
              if (fst kv =? "properties")%string
              then forallb (fun pv : string * json => flat_uri_strings (snd pv)) ps
              else flat_uri_strings (snd kv)
          | _ => flat_uri_strings (snd kv)
          end) props
  | _ => true
  end.

Definition flat_uri_field (kv : string * json) : bool :=
  match snd kv with
  | JObj ps =>
      if (fst kv =? "properties")%string
      then forallb (fun pv : string * json => flat_uri_strings (snd pv)) ps
      else flat_uri_strings (snd kv)
  | _ => flat_uri_strings (snd kv)
  end.

(** On a flat input the rewritten value is free of [uri] strings, and so
    are the rewritten values one level below. *)
Definition stripped (v : json) : Prop :=
  flat_uri_strings v = true -> uri_free (removeUriFormat v) = true.

Definition children_stripped (v : json) : Prop :=
  match v with
  | JObj ps => Forall (fun kv => stripped (snd kv)) ps
  | JArr xs => Forall stripped xs
  | _ => True
  end.

(** A schema with [uri] strings at several depths, all of them flat, and
    one in which a [uri] string holds another one. *)
Definition uri_schema_sample : json :=
  JObj [("type", JStr "object");
        ("properties",
         JObj [("home", JObj [("type", JStr "string"); ("format", JStr "uri")]);
               ("links",
                JObj [("type", JStr "array");
                      ("items", JObj [("type", JStr "string"); ("format", JStr "uri");
                                      ("minLength", JNum 1)])])]);
        ("anyOf", JArr [JObj [("type", JStr "string"); ("format", JStr "uri")];
                        JObj [("type", JStr "string"); ("format", JStr "email")]])].

Definition nested_uri_sample : json :=
  JObj [("type", JStr "string"); ("format", JStr "uri");
        ("items", JObj [("type", JStr "string"); ("format", JStr "uri")])].

(** No field that Gemini rejects is left at any schema position of
    [schema]: on the object itself, on the values of its fields and on the
    elements of arrays, at any depth.  The names listed under
    [properties] are names of properties, not fields of a schema; the
    schemas they name are schema positions. *)
Fixpoint supported (schema : json) : bool :=
  match schema with
  | JArr items => forallb supported items
  | JObj props =>
      forallb (fun kv : string * json =>
        negb (includes_key UNSUPPORTED_FIELDS (fst kv)) &&
        match snd kv with
        | JObj ps =>
            if (fst kv =? "properties")%string
            then forallb (fun pv : string * json => supported (snd pv)) ps
            else supported (snd kv)
        | _ => supported (snd kv)
        end) props
  | _ => true
  end.

(** What [supported] asks of one field of an object. *)
Definition supported_field (kv : string * json) : bool :=
  negb (includes_key UNSUPPORTED_FIELDS (fst kv)) &&
  match snd kv with
  | JObj ps =>
      if (fst kv =? "properties")%string
      then forallb (fun pv : string * json => supported (snd pv)) ps
      else supported (snd kv)
  | _ => supported (snd kv)
  end.

(** The pruned value is free of rejected fields, and so are the pruned
    values one level below. *)
Definition pruned (v : json) : Prop :=
  supported (cleanSchemaForGemini v) = true.

Definition children_pruned (v : json) : Prop :=
  match v with
  | JObj ps => Forall (fun kv => pruned (snd kv)) ps
  | JArr xs => Forall pruned xs
  | _ => True
  end.

End SchemaAux.

(** ** Observations on the Gemini payload *)

Module GeminiObs.
Import Transform.

Section Entries.

Variable decodeURIComponent : string -> option string.

(** The part a block adds to the parts of its message. *)
Definition block_parts (block : ContentBlock) : list json :=
  match block with
  | TextBlock text => [JObj [("text", JStr text)]]
  | ImageBlock media_type data =>
      [JObj [("inlineData",
              JObj [("mimeType",
                     JStr match media_type with
                          | Some m => if (m =? "")%string then "image/png" else m
                          | None => "image/png"
                          end);
                    ("data", JStr data)])]]
  | ToolUseBlock id name input => [tool_use_part decodeURIComponent id name input]
  | ToolResultBlock _ _ | OtherBlock _ => []
  end.

(** The entry of role [function] a block adds to the contents. *)
Definition block_responses (block : ContentBlock) : list json :=
  match block with
  | ToolResultBlock tool_use_id content =>
      [JObj [("role", JStr "function");
             ("parts",
              JArr [JObj [("functionResponse",
                JObj [("name", JStr tool_use_id);
                      ("response",
                       JObj [("content",
                              match content with
                              | JStr _ => content
                              | _ => JStr (stringify content)
                              end)])])]])]]
  | _ => []
  end.

(** The entry of a message with the parts [parts], none when there is no
    part. *)
Definition own_entry (msg : Message) (parts : list json) : list json :=
  match parts with
  | [] => []
  | _ :: _ =>
      [JObj [("role", JStr (if (role msg =? "assistant")%string then "model" else role msg));
             ("parts", JArr parts)]]
  end.

(** The entries one message contributes to the contents, in order. *)
Definition message_entries (msg : Message) : list json :=
  match content msg with
  | ContentString s => own_entry msg [JObj [("text", JStr s)]]
  | ContentBlocks blocks =>
      flat_map block_responses blocks ++ own_entry msg (flat_map block_parts blocks)
  | ContentNone => []
  end.

End Entries.

(** An entry of the contents of the shape [{ role, parts }] with at least
    one part and a role other than [assistant]. *)
Definition entry_ok (entry : json) : bool :=
  match entry with
  | JObj [("role", JStr r); ("parts", JArr (_ :: _))] => negb (r =? "assistant")%string
  | _ => false
  end.

(** The declarations under [tools[0].functionDeclarations]. *)
Definition function_declarations (payload : object) : option (list json) :=
  match get "tools" payload with
  | Some (JArr [JObj [("functionDeclarations", JArr declarations)]]) => Some declarations
  | _ => None
  end.

(** A declaration made for [tool]: it carries the name of the tool, and
    its parameters are there exactly when the tool has an input schema. *)
Definition declares (tool : Tool) (declaration : json) : Prop :=
  prop "name" declaration = Some (JStr (name tool)) /\
  prop "description" declaration = JStr <$> description tool /\
  prop "parameters" declaration = cleanSchemaForGemini <$> input_schema tool.

End GeminiObs.

(** ** Observations on the mapping of OpenAI requests *)

Module OpenAIObs.
Import Transform OpenAI SchemaAux.

(** The choice [mapToolChoice] reads: [req.tool_choice || req.function_call]. *)
Definition requested_choice (req : object) : option json :=
  truthy_value (truthy_or (get "tool_choice" req) (get "function_call" req)).

(** The value [mapToolChoice] assigns to [tool_choice] for a truthy
    choice, [None] when it assigns nothing. *)
Definition choice_update (toolChoice : json) : option json :=
  match toolChoice with
  | JStr s =>
      Some (JObj [("type",
                   JStr (if (s =? "none")%string then "none"
                         else if (s =? "required")%string then "any"
                         else "auto"))])
  | JArr _ | JObj _ =>
      match (if is_str (prop "type" toolChoice) "function"
             then truthy_value (chain "name" (prop "function" toolChoice))
             else None) with
      | Some name => Some (JObj [("type", JStr "tool"); ("name", name)])
      | None =>
          match truthy_value (prop "name" toolChoice) with
          | Some name => Some (JObj [("type", JStr "tool"); ("name", name)])
          | None => None
          end
      end
  | _ => None
  end.

Definition apply_choice (toolChoice : json) (req : object) : object :=
  match choice_update toolChoice with
  | Some choice => set "tool_choice" choice req
  | None => req
  end.

(** A tool in the format of Claude, as far as [mapTools] goes: an object
    with no other field than [name], [description] and [input_schema],
    whose input schema is not itself a schema of type [string] with
    format [uri]. *)
Definition claude_tool (tool : json) : bool :=
  match tool with
  | JObj props =>
      forallb (fun kv : string * json =>
                 includes_key ["name"; "description"; "input_schema"] (fst kv)) props
      && match get "input_schema" props with
         | Some schema => negb (is_uri_string schema)
         | None => true
         end
  | _ => false
  end.

(** The elements of an array read from a request, none for any other
    value. *)
Definition items_of (o : option json) : list json :=
  match o with
  | Some (JArr items) => items
  | _ => []
  end.

(** The unified array [openAITools] of [mapTools]. *)
Definition openai_tools (req : object) : list json :=
  items_of (get "tools" req)
  ++ map (fun f => JObj [("type", JStr "function"); ("function", f)])
       (items_of (get "functions" req)).

(** [t.function?.strict === true || t.strict === true] *)
Definition strict_tool (t : json) : bool :=
  is_true (chain "strict" (prop "function" t)) || is_true (prop "strict" t).

(** The roles [transformMessages] does not pass on. *)
Definition openai_only_role (msg : json) : bool :=
  includes_key ["developer"; "system"; "function"; "tool"]
    match prop "role" msg with Some (JStr r) => r | _ => "" end.

(** A message that feeds the system prompt. *)
Definition system_role (msg : json) : bool :=
  is_str (prop "role" msg) "developer" || is_str (prop "role" msg) "system".

(** A message [transformMessages] passes through: it is not [null], its
    role is none of the roles above, and it is no assistant message with
    a function call or tool calls. *)
Definition plain_message (msg : json) : bool :=
  match msg with
  | JNull => false
  | _ =>
      negb (openai_only_role msg) &&
      negb (is_str (prop "role" msg) "assistant" &&
            (truthy_opt (prop "function_call" msg) || truthy_opt (prop "tool_calls" msg)))
  end.

(** The texts of the system and developer messages, in message order. *)
Definition system_texts (msgs : list json) : list json :=
  flat_map (fun msg =>
    if system_role msg
    then match truthy_value (option_map extractTextContent (prop "content" msg)) with
         | Some text => [text]
         | None => []
         end
    else []) msgs.

(** A text block of a message content. *)
Definition text_block (text : string) : json :=
  JObj [("type", JStr "text"); ("text", JStr text)].

(** Sample requests. *)
Definition strict_tools_sample : object :=
  [("tools",
    JArr [JObj [("type", JStr "function");
                ("function",
                 JObj [("name", JStr "open"); ("strict", JBool true);
                       ("parameters",
                        JObj [("type", JStr "object");
                              ("additionalProperties", JBool true);
                              ("properties",
                               JObj [("url", JObj [("type", JStr "string");
                                                   ("format", JStr "uri")])])])])]]);
   ("functions", JArr [JObj [("name", JStr "close")]])].

Definition conversation_sample : object :=
  [("model", JStr "m");
   ("system", JStr "old");
   ("messages",
    JArr [JObj [("role", JStr "system"); ("content", JStr "be brief")];
          JObj [("role", JStr "user"); ("content", JStr "hi")];
          JObj [("role", JStr "developer");
                ("content", JArr [text_block "use tools"; text_block ""])];
          JObj [("role", JStr "assistant");
                ("tool_calls",
                 JArr [JObj [("id", JStr "c1");
                             ("function",
                              JObj [("name", JStr "open");
                                    ("arguments", JObj [("path", JStr "a")])])]])];
          JObj [("role", JStr "tool"); ("tool_call_id", JStr "c1");
                ("content", JStr "done")]])].

Definition plain_sample : object :=
  [("messages",
    JArr [JObj [("role", JStr "user"); ("content", JStr "hi")];
          JObj [("role", JStr "assistant"); ("content", JStr "hello")]]);
   ("model", JStr "m")].

(** A parser that knows no text, and a fixed random source. *)
Definition no_parse (text : string) : option json := None.
Definition sample_random (k : nat) : string := "r" +:+ pretty k.

End OpenAIObs.

(** ** Observations on a whole session *)

Module SessionObs.
Import Handler Observe.

(** The stream when the read loop begins: [message_start] has been sent. *)
Definition opened (msgId model : string) : Stream :=
  send "message_start" (message_start msgId model) initial.

(** The number of events named [name]. *)
Definition count_events (name : string) (q : list SseEvent) : nat :=
  length (List.filter (fun e => (event e =? name)%string) q).

(** The invariant of [message_delta]: none has been enqueued before the
    stream is finalized and at most one after, exactly one while the
    stream is open. *)
Definition one_delta (s : Stream) : Prop :=
  (count_events "message_delta" (enqueued s) <= (if finalized s then 1 else 0))%nat /\
  (isClosed s = false ->
   count_events "message_delta" (enqueued s) = (if finalized s then 1 else 0)%nat).

(** The indices of the [content_block_stop] events, in emission order. *)
Definition stopped_blocks (q : list SseEvent) : list Z :=
  flat_map (fun e =>
    if (event e =? "content_block_stop")%string
    then match event_index e with Some i => [i] | None => [] end
    else []) q.

(** The invariant of [content_block_stop]: no index has been closed
    twice; while the stream is open the closed indices are below the
    block counter, and the text block that is open before the stream is
    finalized has not been closed. *)
Definition closes_once (s : Stream) : Prop :=
  List.NoDup (stopped_blocks (enqueued s)) /\
  (isClosed s = false ->
   (forall i, In i (stopped_blocks (enqueued s)) -> i < curIdx s) /\
   (finalized s = false -> textStarted s = true ->
    ~ In (textIdx s) (stopped_blocks (enqueued s)))).

(** The texts of the [text_delta] events, in emission order. *)
Definition delta_texts (q : list SseEvent) : list string :=
  flat_map (fun e =>
    match prop "delta" (data e) with
    | Some delta =>
        if is_str (prop "type" delta) "text_delta"
        then match prop "text" delta with Some (JStr t) => [t] | _ => [] end
        else []
    | None => []
    end) q.

(** The text a part carries, when it is not empty. *)
Definition part_texts (part : Part) : list string :=
  match text part with
  | Some t => if (t =? "")%string then [] else [t]
  | None => []
  end.

(** The texts of the parts the loop of [handle_chunk] visits. *)
Definition chunk_texts (chunk : Chunk) : list string :=
  flat_map part_texts (first_parts chunk).

(** The lines of a response text that end in a line feed. *)
Definition complete_lines (body : string) : list string :=
  removelast (split nl body).

Section Frames.

Variable JSON_parse : string -> option Chunk.

(** The frames on the complete lines of a response text. *)
Definition response_frames (body : string) : list Chunk :=
  omap (line_frame JSON_parse) (complete_lines body).

End Frames.

(** A response whose last data line has no line feed. *)
Definition unterminated_body : list string :=
  ["data: " +:+ stringify StreamAux.hi_json +:+ nl;
   "data: " +:+ stringify StreamAux.there_json].

End SessionObs.

(** * Part II: properties *)

(** ** The built-ins on sample inputs *)

Example split_lines : split nl ("a" +:+ nl +:+ nl +:+ "bc") = ["a"; ""; "bc"].
Proof. reflexivity. Qed.

Example split_marker : split "__ts_" "toolu_1__ts_YWJj" = ["toolu_1"; "YWJj"].
Proof. reflexivity. Qed.

Example trim_demo : trim (" " +:+ nl +:+ "[DONE] " +:+ bytes [194; 160]%nat) = "[DONE]".
Proof. reflexivity. Qed.

Example decode_plain : decodeURIComponent "YWJj" = Some "YWJj".
Proof. reflexivity. Qed.

Example decode_base64 : decodeURIComponent "a%2Bb%2F%3D" = Some "a+b/=".
Proof. reflexivity. Qed.

Example decode_utf8 : decodeURIComponent "%C3%A9" = Some (bytes [195; 169]%nat).
Proof. reflexivity. Qed.

Example decode_malformed :
  decodeURIComponent "%" = None /\ decodeURIComponent "%E0%A4%A" = None /\
  decodeURIComponent "%C0%80" = None /\ decodeURIComponent "%zz" = None.
Proof. repeat split; reflexivity. Qed.

Example stringify_demo :
  stringify (JObj [("a", JNum 1); ("b", JArr [JStr ("x" +:+ nl); JNull; JBool true; JNum (-3)])])
  = "{" +:+ dq +:+ "a" +:+ dq +:+ ":1," +:+ dq +:+ "b" +:+ dq +:+ ":["
      +:+ dq +:+ "x" +:+ backslash +:+ "n" +:+ dq +:+ ",null,true,-3]}".
Proof. reflexivity. Qed.


(** ** Schema pruning *)

Module CleanFacts.
Import Transform CleanAux.

Example cleanSchemaForGemini_sample :
  cleanSchemaForGemini
    (JObj [("type", JStr "object"); ("additionalProperties", JBool false);
           ("properties",
            JObj [("const", JObj [("type", JStr "string"); ("const", JStr "x")]);
                  ("tags", JObj [("type", JStr "array");
                                 ("items", JObj [("anyOf", JArr []);
                                                 ("type", JStr "string")])])]);
           ("required", JArr [JStr "const"])])
  = JObj [("type", JStr "object");
          ("properties",
           JObj [("const", JObj [("type", JStr "string")]);
                 ("tags", JObj [("type", JStr "array");
                                ("items", JObj [("type", JStr "string")])])]);
          ("required", JArr [JStr "const"])].
Proof. reflexivity. Qed.

Lemma clean_object_eq props :
  cleanSchemaForGemini (JObj props) = JObj (flat_map clean_entry props).
Proof. reflexivity. Qed.

Lemma clean_array_eq items :
  cleanSchemaForGemini (JArr items) = JArr (map cleanSchemaForGemini items).
Proof. reflexivity. Qed.











End CleanFacts.

(** ** Objects *)

Section ObjectFacts.

Lemma has_key_delete_same key obj : has_key key (delete_key key obj) = false.
Proof.
  unfold has_key, delete_key.
  induction obj as [|[k v] obj IH]; simpl; [reflexivity|].
  destruct (k =? key)%string eqn:E; simpl; [exact IH|].
  rewrite E. exact IH.
Qed.

Lemma has_key_delete_other key key' obj :
  key <> key' -> has_key key (delete_key key' obj) = has_key key obj.
Proof.
  intros Hne. unfold has_key, delete_key.
  induction obj as [|[k v] obj IH]; simpl; [reflexivity|].
  destruct (k =? key')%string eqn:E; simpl.
  - apply String.eqb_eq in E. subst k.
    destruct (key' =? key)%string eqn:E'; [|exact IH].
    apply String.eqb_eq in E'. congruence.
  - rewrite IH. reflexivity.
Qed.

Lemma has_key_set_other key key' v obj :
  key <> key' -> has_key key (set key' v obj) = has_key key obj.
Proof.
  intros Hne. unfold has_key.
  induction obj as [|[k w] obj IH]; simpl.
  - destruct (key' =? key)%string eqn:E; [|reflexivity].
    apply String.eqb_eq in E. congruence.
  - destruct (k =? key')%string eqn:E; simpl; [|rewrite IH; reflexivity].
    apply String.eqb_eq in E. subst k. reflexivity.
Qed.

Lemma get_Some_has_key key obj v : get key obj = Some v -> has_key key obj = true.
Proof.
  unfold has_key. induction obj as [|[k w] obj IH]; simpl; [discriminate|].
  destruct (k =? key)%string; simpl; [reflexivity | exact IH].
Qed.

Lemma get_None_has_key key obj : get key obj = None -> has_key key obj = false.
Proof.
  unfold has_key. induction obj as [|[k w] obj IH]; simpl; [reflexivity|].
  destruct (k =? key)%string; simpl; [discriminate | exact IH].
Qed.

Lemma get_set_same key v obj : get key (set key v obj) = Some v.
Proof.
  induction obj as [|[k w] obj IH]; simpl.
  - rewrite String.eqb_refl. reflexivity.
  - destruct (k =? key)%string eqn:E; simpl; rewrite E; [reflexivity | exact IH].
Qed.

Lemma get_set_other key key' v obj :
  key <> key' -> get key (set key' v obj) = get key obj.
Proof.
  intros Hne. induction obj as [|[k w] obj IH]; simpl.
  - destruct (key' =? key)%string eqn:E; [|reflexivity].
    apply String.eqb_eq in E. congruence.
  - destruct (k =? key')%string eqn:E; simpl.
    + apply String.eqb_eq in E. subst k.
      destruct (key' =? key)%string eqn:E'; [|reflexivity].
      apply String.eqb_eq in E'. congruence.
    + rewrite IH. reflexivity.
Qed.

End ObjectFacts.

(** ** [sanitizeRoot] *)

Module SanitizeFacts.
Import Transform.

Lemma DROP_KEYS_NoDup : List.NoDup DROP_KEYS.
Proof.
  unfold DROP_KEYS.
  repeat (apply List.NoDup_cons; [cbn; intuition discriminate|]).
  apply List.NoDup_nil.
Qed.

(** The keys the other steps of the sanitizer write are not dropped. *)
Lemma DROP_KEYS_apart key :
  In key DROP_KEYS ->
  key <> "stop" /\ key <> "stop_sequences" /\ key <> "metadata" /\ key <> "max_tokens".
Proof.
  unfold DROP_KEYS. cbn. intros H.
  repeat (destruct H as [<-|H]; [repeat split; discriminate|]).
  destruct H.
Qed.

(** The loop over the drop-list, in closed form. *)
Lemma drop_loop keys : forall req dropped,
  List.NoDup keys ->
  fold_left drop_step keys (req, dropped)
  = (fold_left (fun r key => delete_key key r) keys req,
     dropped ++ List.filter (fun key => has_key key req) keys).
Proof.
  induction keys as [|key keys IH]; intros req dropped Hnd; simpl.
  - rewrite app_nil_r. reflexivity.
  - inversion Hnd as [|? ? Hnotin Hnd']; subst.
    assert (Hfilter : forall r,
      r = delete_key key req ->
      List.filter (fun k => has_key k r) keys
      = List.filter (fun k => has_key k req) keys).
    { intros r ->. apply List.filter_ext_in. intros k Hk.
      apply has_key_delete_other. intros ->. contradiction. }
    destruct (has_key key req) eqn:E.
    + rewrite IH by assumption. rewrite (Hfilter _ eq_refl).
      rewrite <- app_assoc. reflexivity.
    + rewrite IH by assumption.
      assert (Hid : delete_key key req = req).
      { unfold delete_key. clear -E. induction req as [|[k v] req IHr]; [reflexivity|].
        simpl in E |- *. apply orb_false_elim in E as [E1 E2].
        rewrite E1. simpl. rewrite IHr by assumption. reflexivity. }
      rewrite Hid. reflexivity.
Qed.

Lemma has_key_delete_all keys : forall req key,
  has_key key (fold_left (fun r k => delete_key k r) keys req)
  = has_key key req && negb (includes_key keys key).
Proof.
  induction keys as [|k keys IH]; intros req key; simpl.
  - rewrite andb_true_r. reflexivity.
  - rewrite IH. destruct (key =? k)%string eqn:E; simpl.
    + apply String.eqb_eq in E. subst k. rewrite has_key_delete_same.
      rewrite andb_false_r. reflexivity.
    + rewrite has_key_delete_other; [reflexivity|].
      intros ->. rewrite String.eqb_refl in E. discriminate.
Qed.

Lemma includes_key_In keys key : includes_key keys key = true <-> In key keys.
Proof.
  unfold includes_key. rewrite List.existsb_exists. split.
  - intros [k [Hk E]]. apply String.eqb_eq in E. subst. exact Hk.
  - intros H. exists key. split; [exact H | apply String.eqb_refl].
Qed.

(** The last two steps: the drop loop and the [max_tokens] default. *)
Lemma drop_and_default req dropped :
  let result :=
    let '(r, d) := fold_left drop_step DROP_KEYS (req, dropped) in
    (match get "max_tokens" r with
     | None | Some JNull => set "max_tokens" (JNum 4096) r
     | Some _ => r
     end, d) in
  (forall key, In key DROP_KEYS -> has_key key (fst result) = false) /\
  snd result = dropped ++ List.filter (fun key => has_key key req) DROP_KEYS.
Proof.
  rewrite drop_loop by apply DROP_KEYS_NoDup.
  cbv zeta. split; [|reflexivity].
  intros key Hkey. cbn [fst].
  assert (Hgone : has_key key
            (fold_left (fun r k => delete_key k r) DROP_KEYS req) = false).
  { rewrite has_key_delete_all.
    apply includes_key_In in Hkey. rewrite Hkey. apply andb_false_r. }
  destruct (DROP_KEYS_apart key Hkey) as (_ & _ & _ & Hmax).
  destruct (get "max_tokens" _) as [[]|];
    rewrite ?has_key_set_other by assumption; exact Hgone.
Qed.

(** The renaming of [stop] leaves the keys of the drop-list alone. *)
Lemma stop_step_keeps req key :
  In key DROP_KEYS ->
  has_key key
    (match get "stop" req with
     | Some stop =>
         delete_key "stop"
           (set "stop_sequences" (if isArray stop then stop else JArr [stop]) req)
     | None => req
     end) = has_key key req.
Proof.
  intros Hkey. destruct (DROP_KEYS_apart key Hkey) as (Hstop & Hseq & _ & _).
  destruct (get "stop" req); [|reflexivity].
  rewrite has_key_delete_other, has_key_set_other by assumption. reflexivity.
Qed.

(** C8.  After [sanitizeRoot] no key of the drop-list is left on the
    request, and the returned list holds exactly the keys of the drop-list
    that the input carried, each once. *)
Theorem sanitizeRoot_drops_exactly (req : object) :
  (forall key, In key DROP_KEYS -> has_key key (fst (sanitizeRoot req)) = false) /\
  (forall key, In key (snd (sanitizeRoot req)) <->
               In key DROP_KEYS /\ has_key key req = true) /\
  List.NoDup (snd (sanitizeRoot req)).
Proof.
  unfold sanitizeRoot.
  set (req1 := match get "stop" req with Some _ => _ | None => _ end).
  assert (Hkeep : forall key, In key DROP_KEYS -> has_key key req1 = has_key key req)
    by (intros key Hkey; apply stop_step_keeps; exact Hkey).
  assert (Huser : In "user" DROP_KEYS) by (cbn; tauto).
  assert (Hfilter : forall r key,
            In key (List.filter (fun k => has_key k r) DROP_KEYS) <->
            In key DROP_KEYS /\ has_key key r = true)
    by (intros; apply List.filter_In).
  destruct (get "user" req1) as [user|] eqn:Eget;
    [destruct (truthy user) eqn:Etruthy|].
  - (* a truthy user: moved to metadata and recorded first *)
    set (req2 := delete_key "user" _).
    assert (Hgone : has_key "user" req2 = false) by apply has_key_delete_same.
    assert (Hkeep2 : forall key, In key DROP_KEYS -> key <> "user" ->
                                 has_key key req2 = has_key key req).
    { intros key Hkey Hne. unfold req2.
      destruct (DROP_KEYS_apart key Hkey) as (_ & _ & Hmeta & _).
      rewrite has_key_delete_other, has_key_set_other by assumption.
      apply Hkeep. exact Hkey. }
    destruct (drop_and_default req2 ([] ++ ["user"])) as [Habsent Hdropped].
    cbv zeta in Habsent, Hdropped.
    destruct (fold_left drop_step DROP_KEYS (req2, [] ++ ["user"])) as [r d].
    cbn [fst snd] in *. subst d. split; [exact Habsent|]. split.
    + intros key. cbn [app In]. rewrite Hfilter. split.
      * intros [<-|[Hk Hp]].
        -- split; [exact Huser|]. rewrite <- Hkeep by exact Huser.
           eapply get_Some_has_key. exact Eget.
        -- split; [exact Hk|]. rewrite <- Hkeep2; [exact Hp | exact Hk |].
           intros ->. congruence.
      * intros [Hk Hp]. destruct (String.eqb_spec "user" key) as [->|Hne].
        -- left. reflexivity.
        -- right. split; [exact Hk|]. rewrite Hkeep2; [exact Hp | exact Hk |].
           intros ->. apply Hne. reflexivity.
    + cbn [app]. apply List.NoDup_cons.
      * rewrite Hfilter. intros [_ Hp]. congruence.
      * apply List.NoDup_filter, DROP_KEYS_NoDup.
  - (* a falsy user: dropped by the loop *)
    destruct (drop_and_default req1 []) as [Habsent Hdropped].
    cbv zeta in Habsent, Hdropped.
    destruct (fold_left drop_step DROP_KEYS (req1, [])) as [r d].
    cbn [fst snd app] in *. subst d. split; [exact Habsent|]. split.
    + intros key. rewrite Hfilter. split; intros [Hk Hp]; (split; [exact Hk|]).
      * rewrite <- Hkeep by exact Hk. exact Hp.
      * rewrite Hkeep by exact Hk. exact Hp.
    + apply List.NoDup_filter, DROP_KEYS_NoDup.
  - (* no user *)
    destruct (drop_and_default req1 []) as [Habsent Hdropped].
    cbv zeta in Habsent, Hdropped.
    destruct (fold_left drop_step DROP_KEYS (req1, [])) as [r d].
    cbn [fst snd app] in *. subst d. split; [exact Habsent|]. split.
    + intros key. rewrite Hfilter. split; intros [Hk Hp]; (split; [exact Hk|]).
      * rewrite <- Hkeep by exact Hk. exact Hp.
      * rewrite Hkeep by exact Hk. exact Hp.
    + apply List.NoDup_filter, DROP_KEYS_NoDup.
Qed.

End SanitizeFacts.

(** ** [transformOpenAIToClaude] *)

Module OpenAIFacts.
Import Transform Observe OpenAIAux.

Example sanitizeRoot_sample :
  sanitizeRoot [("model", JStr "m"); ("user", JStr "u"); ("n", JNum 2);
                ("stop", JStr "x"); ("seed", JNull)]
  = ([("model", JStr "m"); ("stop_sequences", JArr [JStr "x"]);
      ("metadata", JObj [("user_id", JStr "u")]); ("max_tokens", JNum 4096)],
     ["user"; "n"; "seed"]).
Proof. reflexivity. Qed.

Lemma DROP_KEYS_unassigned key :
  In key DROP_KEYS -> key <> "system" /\ key <> "messages" /\ key <> "tools".
Proof.
  unfold DROP_KEYS. cbn. intros H.
  repeat (destruct H as [<-|H]; [repeat split; discriminate|]).
  destruct H.
Qed.

Lemma forallb_over_map {A B : Type} (f : B -> bool) (g : A -> B) (l : list A) :
  forallb f (map g l) = forallb (fun x => f (g x)) l.
Proof.
  induction l as [|x l IH]; cbn [map forallb]; [reflexivity|].
  rewrite IH. reflexivity.
Qed.

(** The filter throws exactly on a truthy value that is not a string. *)
Lemma filter_system_texts_returns texts :
  forallb text_like texts = true ->
  exists kept, filter_system_texts texts = Returned kept.
Proof.
  induction texts as [|t texts IH]; cbn [forallb filter_system_texts]; intros H.
  - eexists. reflexivity.
  - apply andb_prop in H as [Ht Hrest].
    destruct (IH Hrest) as [kept Hkept].
    destruct (truthy t) eqn:Htruthy; [|exists kept; exact Hkept].
    destruct t; try (unfold text_like in Ht; rewrite Htruthy in Ht; discriminate Ht).
    rewrite Hkept. cbn [bind]. eexists. reflexivity.
Qed.

Lemma filter_system_texts_throws texts err :
  filter_system_texts texts = Thrown err -> forallb text_like texts = false.
Proof.
  intros H. destruct (forallb text_like texts) eqn:E; [|reflexivity].
  destruct (filter_system_texts_returns texts E) as [kept Hkept]. congruence.
Qed.

Lemma transformOpenAIToClaude_eq (input : object) :
  transformOpenAIToClaude input
  = bind
      (match get "system" input with
       | Some (JArr items) =>
           bind (filter_system_texts (map system_item_text items)) (fun texts =>
             Returned (set "system" (JStr (join (nl +:+ nl) texts)) input))
       | _ => Returned input
       end)
      (finish_request
         match get "model" input with
         | Some (JStr model) => includes "o3" model || includes "o1" model
         | _ => false
         end).
Proof. reflexivity. Qed.

Lemma finish_request_returns (o3 : bool) (req : object) :
  exists final,
    finish_request o3 req
    = Returned {| claudeRequest := final; droppedParams := []; isO3Model := o3 |} /\
    forall key, In key DROP_KEYS -> has_key key final = has_key key req.
Proof.
  unfold finish_request. cbv zeta. eexists. split; [reflexivity|].
  intros key Hkey. destruct (DROP_KEYS_unassigned key Hkey) as (_ & Hm & Ht).
  set (req1 := match get "messages" req with Some _ => _ | None => _ end).
  assert (H1 : has_key key req1 = has_key key req).
  { unfold req1. destruct (get "messages" req) as [[]|];
      rewrite ?has_key_set_other by assumption; reflexivity. }
  set (req2 := match get "tools" req1 with Some _ => _ | None => _ end).
  assert (H2 : has_key key req2 = has_key key req1).
  { unfold req2. destruct (get "tools" req1) as [[]|];
      rewrite ?has_key_set_other by assumption; reflexivity. }
  destruct (get "tools" req2) as [[]|];
    rewrite ?has_key_set_other by assumption; congruence.
Qed.

(** C10.  Whenever [transformOpenAIToClaude] returns, its [droppedParams]
    is empty and every key of the drop-list that the input carries is still
    on the returned request.  It throws only when [system] is an array
    with an item that flattens to a truthy value other than a string, on
    which [text.trim] is not a function. *)
Theorem transformOpenAIToClaude_reports_no_drop (input : object) :
  match transformOpenAIToClaude input with
  | Returned result =>
      droppedParams result = [] /\
      forall key, In key DROP_KEYS ->
                  has_key key (claudeRequest result) = has_key key input
  | Thrown _ => system_texts_are_strings input = false
  end.
Proof.
  rewrite transformOpenAIToClaude_eq. unfold system_texts_are_strings.
  set (o3 := match get "model" input with Some _ => _ | None => _ end).
  destruct (get "system" input) as [[ | | | | items | ]|];
    try (cbn [bind];
         destruct (finish_request_returns o3 input) as (final & -> & Hfinal);
         split; [reflexivity | exact Hfinal]).
  destruct (filter_system_texts (map system_item_text items)) as [texts|err] eqn:E.
  - cbn [bind].
    destruct (finish_request_returns o3
                (set "system" (JStr (join (nl +:+ nl) texts)) input))
      as (final & -> & Hfinal).
    split; [reflexivity|]. intros key Hkey. rewrite Hfinal by exact Hkey.
    destruct (DROP_KEYS_unassigned key Hkey) as (Hs & _ & _).
    apply has_key_set_other. exact Hs.
  - cbn [bind]. rewrite <- forallb_over_map.
    eapply filter_system_texts_throws. exact E.
Qed.

Example transformOpenAIToClaude_sample :
  transformOpenAIToClaude openai_sample
  = Returned
      {| claudeRequest :=
           [("model", JStr "o3-mini"); ("seed", JNum 7); ("user", JStr "u");
            ("system", JStr ("be brief" +:+ nl +:+ nl +:+ "be kind"));
            ("tools", JArr [JObj [("name", JStr "open");
                                  ("input_schema", JObj [("type", JStr "string")])]]);
            ("messages", JArr [])];
         droppedParams := [];
         isO3Model := true |}.
Proof. reflexivity. Qed.

(** A system block whose text is a number makes the call throw. *)
Example transformOpenAIToClaude_throws :
  transformOpenAIToClaude [("system", JArr [JObj [("text", JNum 5)]])]
  = Thrown "TypeError: text.trim is not a function".
Proof. reflexivity. Qed.

Lemma transformOpenAIToClaude_reports_no_drop_witness :
  exists result,
    transformOpenAIToClaude openai_sample = Returned result /\
    droppedParams result = [] /\
    has_key "seed" (claudeRequest result) = true.
Proof.
  pose proof (transformOpenAIToClaude_reports_no_drop openai_sample) as H.
  destruct (transformOpenAIToClaude openai_sample) as [result|err] eqn:E.
  - exists result. destruct H as [Hdropped Hkeys].
    split; [reflexivity|]. split; [exact Hdropped|].
    rewrite Hkeys; [reflexivity | cbn; tauto].
  - vm_compute in E. discriminate E.
Defined.

Lemma sanitizeRoot_drops_exactly_witness :
  has_key "seed" (fst (sanitizeRoot openai_sample)) = false /\
  In "seed" (snd (sanitizeRoot openai_sample)).
Proof.
  destruct (SanitizeFacts.sanitizeRoot_drops_exactly openai_sample) as (Habsent & Hexact & _).
  split.
  - apply Habsent. cbn. tauto.
  - apply Hexact. split; [cbn; tauto | reflexivity].
Defined.

End OpenAIFacts.

(** ** [transformClaudeToGemini] *)

Module GeminiFacts.
Import Transform Observe GeminiAux.

Section Splitting.

Variable sep : string.




Lemma split_from_without s :
  includes sep s = false -> split_from sep 0 s = (s, []).
Proof.
  induction s as [|c s IH]; intros H; [reflexivity|].
  cbn [includes] in H. apply orb_false_elim in H as [Hp Hs].
  cbn [split_from]. rewrite Hp, (IH Hs). reflexivity.
Qed.

Lemma split_from_skip a : forall s,
  split_from sep (String.length a) (a +:+ s) = split_from sep 0 s.
Proof.
  induction a as [|c a IH]; intros s; [reflexivity|]. apply IH.
Qed.

End Splitting.

Section FirstOccurrence.

Lemma append_assoc (a b c : string) : (a +:+ b) +:+ c = a +:+ (b +:+ c).
Proof.
  induction a as [|x a IH]; [reflexivity|].
  exact (f_equal (String x) IH).
Qed.

Lemma length_append (a b : string) :
  String.length (a +:+ b) = (String.length a + String.length b)%nat.
Proof.
  induction a as [|x a IH]; [reflexivity|].
  exact (f_equal S IH).
Qed.

Lemma prefix_empty s : String.prefix "" s = true.
Proof. destruct s; reflexivity. Qed.

Lemma prefix_append sep s : String.prefix sep (sep +:+ s) = true.
Proof.
  induction sep as [|c sep IH]; [apply prefix_empty|].
  change (String c sep +:+ s) with (String c (sep +:+ s)).
  cbn [String.prefix]. destruct (ascii_dec c c); [exact IH | contradiction].
Qed.

(** A prefix test only reads as many characters as the pattern has. *)
Lemma prefix_within sep : forall a b,
  (String.length sep <= String.length a)%nat ->
  String.prefix sep (a +:+ b) = String.prefix sep a.
Proof.
  induction sep as [|c sep IH]; intros a b Hlen.
  - rewrite !prefix_empty. reflexivity.
  - destruct a as [|d a]; cbn [String.length] in Hlen; [lia|].
    change (String d a +:+ b) with (String d (a +:+ b)).
    cbn [String.prefix]. destruct (ascii_dec c d); [|reflexivity].
    apply IH. lia.
Qed.

(** The separator is written as its first characters [init] and its last
    character [l]. *)
Variable init : string.
Variable l : ascii.

Lemma split_from_first pre suf :
  let sep := init +:+ String l "" in
  includes sep (pre +:+ init) = false ->
  split_from sep 0 (pre +:+ sep +:+ suf) = (pre, split sep suf).
Proof.
  cbv zeta. set (sep := init +:+ String l "").
  assert (Hlen : String.length sep = S (String.length init)).
  { unfold sep. rewrite length_append. cbn [String.length]. lia. }
  induction pre as [|c pre IH]; intros Hno.
  - change ("" +:+ sep +:+ suf) with (sep +:+ suf).
    destruct sep as [|c0 tail] eqn:Hsep; [discriminate Hlen|].
    change (String c0 tail +:+ suf) with (String c0 (tail +:+ suf)).
    cbn [split_from].
    change (String c0 (tail +:+ suf)) with (String c0 tail +:+ suf).
    rewrite prefix_append.
    cbn [String.length Nat.pred]. rewrite split_from_skip.
    unfold split. destruct (split_from (String c0 tail) 0 suf). reflexivity.
  - change (String c pre +:+ init) with (String c (pre +:+ init)) in Hno.
    cbn [includes] in Hno. apply orb_false_elim in Hno as [Hp Hrest].
    change (String c pre +:+ sep +:+ suf) with (String c (pre +:+ sep +:+ suf)).
    cbn [split_from].
    assert (Hhere : String.prefix sep (String c (pre +:+ sep +:+ suf)) = false).
    { unfold sep at 2. rewrite append_assoc.
      change (String c (pre +:+ init +:+ String l "" +:+ suf))
        with (String c pre +:+ (init +:+ (String l "" +:+ suf))).
      rewrite <- append_assoc, prefix_within; [exact Hp|].
      rewrite Hlen, length_append. cbn [String.length]. lia. }
    rewrite Hhere, (IH Hrest). reflexivity.
Qed.

(** Up to the first occurrence of the separator the text is one segment. *)
Lemma split_first_occurrence pre suf :
  let sep := init +:+ String l "" in
  includes sep (pre +:+ init) = false ->
  split sep (pre +:+ sep +:+ suf) = pre :: split sep suf.
Proof.
  cbv zeta. intros Hno. unfold split at 1.
  rewrite (split_from_first pre suf Hno). reflexivity.
Qed.

End FirstOccurrence.

(** An id made of a prefix, the marker and a suffix, the marker occurring
    nowhere else, splits into the prefix and the suffix. *)
Lemma split_marker_suffix prefix suffix :
  includes "__ts_" (prefix +:+ "__ts") = false ->
  includes "__ts_" suffix = false ->
  split "__ts_" (prefix +:+ "__ts_" +:+ suffix) = [prefix; suffix].
Proof.
  intros Hprefix Hsuffix.
  pose proof (split_first_occurrence "__ts" "_"%char prefix suffix Hprefix) as H.
  cbv zeta in H. change ("__ts" +:+ String "_"%char "") with "__ts_" in H.
  rewrite H. unfold split.
  rewrite (split_from_without "__ts_" suffix Hsuffix). reflexivity.
Qed.

Section Conversion.

Variable decodeURIComponent : string -> option string.










End Conversion.


Example transformClaudeToGemini_sample :
  fst (transformClaudeToGemini Js.decodeURIComponent gemini_sample "gemini-2.5-flash")
  = [("contents",
      JArr [JObj [("role", JStr "user"); ("parts", JArr [JObj [("text", JStr "look")]])];
            JObj [("role", JStr "model");
                  ("parts",
                   JArr [JObj [("text", JStr "ok")];
                         JObj [("functionCall",
                                JObj [("name", JStr "open");
                                      ("args", JObj [("path", JStr "a")])]);
                               ("thoughtSignature", JStr "YWJj")];
                         JObj [("functionCall",
                                JObj [("name", JStr "close"); ("args", JObj [])])]])]]);
     ("generationConfig", JObj [("maxOutputTokens", JNum 64)]);
     ("thinking_config", JObj [("thinking_budget", JNum 24576)])].
Proof. reflexivity. Qed.


End GeminiFacts.

(** ** The stream re-emitter *)

Module StreamFacts.
Import Handler Observe StreamAux.

(** *** [send] *)

Lemma send_open e d s :
  isClosed s = false ->
  send e d s = set_enqueued (enqueued s ++ [{| event := e; data := d |}]) s.
Proof. intros H. unfold send. rewrite H. reflexivity. Qed.

Lemma send_closed e d s : isClosed s = true -> send e d s = s.
Proof. intros H. unfold send. rewrite H. reflexivity. Qed.

Lemma send_isClosed e d s : isClosed (send e d s) = isClosed s.
Proof. unfold send. destruct (isClosed s) eqn:E; [exact E | exact E]. Qed.

Lemma send_usage e d s : usage (send e d s) = usage s.
Proof. unfold send. destruct (isClosed s); reflexivity. Qed.

Lemma send_finalized e d s : finalized (send e d s) = finalized s.
Proof. unfold send. destruct (isClosed s); reflexivity. Qed.

Lemma send_textStarted e d s : textStarted (send e d s) = textStarted s.
Proof. unfold send. destruct (isClosed s); reflexivity. Qed.

Lemma send_textIdx e d s : textIdx (send e d s) = textIdx s.
Proof. unfold send. destruct (isClosed s); reflexivity. Qed.

Lemma send_curIdx e d s : curIdx (send e d s) = curIdx s.
Proof. unfold send. destruct (isClosed s); reflexivity. Qed.

Lemma send_stamps e d s : stamps (send e d s) = stamps s.
Proof. unfold send. destruct (isClosed s); reflexivity. Qed.

Lemma send_enqueued_open e d s :
  isClosed s = false ->
  enqueued (send e d s) = enqueued s ++ [{| event := e; data := d |}].
Proof. intros H. rewrite send_open by exact H. reflexivity. Qed.

Lemma send_enqueued_closed e d s :
  isClosed s = true -> enqueued (send e d s) = enqueued s.
Proof. intros H. rewrite send_closed by exact H. reflexivity. Qed.

Create Rewrite HintDb stream.

#[local] Hint Rewrite send_isClosed send_usage send_finalized send_textStarted
  send_textIdx send_curIdx send_stamps : stream.

(** *** Tactics for the fields of a stream *)

Ltac fields :=
  repeat (progress
    (cbn [isClosed enqueued usage finalized textStarted textIdx curIdx stamps
          set_isClosed set_enqueued set_usage set_finalized start_text
          accumulate allocate_tool record_tool];
     autorewrite with stream)).

Ltac part_cases s part :=
  unfold Handler.handle_part, Handler.handle_function_call, Handler.handle_text;
  destruct (text part) as [?t|];
  [destruct (negb (_ =? "")%string); [destruct (textStarted s) eqn:?|]|];
  destruct (functionCall part) as [?call|]; cbv zeta.

Ltac chunk_cases s chunk :=
  unfold Handler.handle_chunk;
  destruct (head (candidates chunk)) as [?candidate|]; [|try reflexivity];
  cbv zeta;
  [destruct (usageMetadata chunk) as [?um|];
   (destruct (finishReason _) as [?reason|];
    [destruct (negb (_ =? "")%string && negb _) eqn:?Hfinish;
     [destruct (textStarted _) eqn:?|]|])].

Ltac sends Hopen :=
  repeat first
    [ rewrite send_enqueued_open by (fields; exact Hopen)
    | progress fields ].

Ltac sends_closed Hclosed :=
  repeat first
    [ rewrite send_enqueued_closed by (fields; exact Hclosed)
    | progress fields ].

(** *** The invariant of the block counter and the events of late frames *)

Lemma started_blocks_app q q' :
  started_blocks (q ++ q') = started_blocks q ++ started_blocks q'.
Proof. apply flat_map_app. Qed.

Lemma indices_below_app n q q' :
  indices_below n (q ++ q') = indices_below n q && indices_below n q'.
Proof. apply forallb_app. Qed.

Lemma indices_below_mono n m q :
  n <= m -> indices_below n q = true -> indices_below m q = true.
Proof.
  intros Hle. unfold indices_below. rewrite !forallb_forall.
  intros H e He. specialize (H e He).
  destruct (event_index e) as [i|]; [|reflexivity].
  apply andb_prop in H as [H0 H1]. rewrite H0. cbn [andb].
  apply Z.ltb_lt in H1. apply Z.ltb_lt. lia.
Qed.

Lemma indices_below_one n e i :
  event_index e = Some i -> 0 <= i < n -> indices_below n [e] = true.
Proof.
  intros He [H0 H1]. cbn [indices_below forallb]. rewrite He.
  apply Z.leb_le in H0. apply Z.ltb_lt in H1. rewrite H0, H1. reflexivity.
Qed.

(** A closed stream keeps its queue, so it stays well indexed. *)
Lemma well_indexed_frozen s s' :
  isClosed s' = true -> enqueued s' = enqueued s ->
  well_indexed s -> well_indexed s'.
Proof.
  intros Hclosed Hq (n & Hstarted & Hbelow & _).
  exists n. rewrite Hq. repeat split; try assumption; congruence.
Qed.

(** Events that start no block. *)
Lemma well_indexed_same_blocks s s' new :
  well_indexed s -> isClosed s = false ->
  enqueued s' = enqueued s ++ new ->
  started_blocks new = [] ->
  indices_below (curIdx s) new = true ->
  curIdx s' = curIdx s ->
  (textStarted s' = true -> 0 <= textIdx s' < curIdx s) ->
  well_indexed s'.
Proof.
  intros (n & Hstarted & Hbelow & Hcur) Hopen Hq Hnew Hidx Hcur' Htext.
  destruct (Hcur Hopen) as [Hn _]. exists n.
  rewrite Hq, started_blocks_app, indices_below_app, Hnew, app_nil_r, Hbelow.
  rewrite <- Hn, Hidx, Hcur'. repeat split; try assumption; tauto.
Qed.

(** Events that start one block, at the index the counter holds. *)
Lemma well_indexed_new_block s s' new :
  well_indexed s -> isClosed s = false ->
  enqueued s' = enqueued s ++ new ->
  started_blocks new = [curIdx s] ->
  indices_below (curIdx s + 1) new = true ->
  curIdx s' = curIdx s + 1 ->
  (textStarted s' = true -> 0 <= textIdx s' < curIdx s + 1) ->
  well_indexed s'.
Proof.
  intros (n & Hstarted & Hbelow & Hcur) Hopen Hq Hnew Hidx Hcur' Htext.
  destruct (Hcur Hopen) as [Hn _]. exists (S n).
  assert (Hsucc : Z.of_nat (S n) = curIdx s + 1) by lia.
  rewrite Hq, started_blocks_app, indices_below_app, Hnew, Hstarted, Hsucc, Hidx.
  rewrite (indices_below_mono (Z.of_nat n)) by (assumption || lia).
  repeat split; try assumption; try tauto.
  rewrite seq_S, map_app, Hn. reflexivity.
Qed.

(** Fields outside the invariant may change freely. *)
Lemma well_indexed_fields s s' :
  enqueued s' = enqueued s -> isClosed s' = isClosed s ->
  curIdx s' = curIdx s -> textStarted s' = textStarted s ->
  textIdx s' = textIdx s ->
  well_indexed s -> well_indexed s'.
Proof.
  intros Hq Hc Hcur Hst Hidx (n & H1 & H2 & H3).
  exists n. rewrite Hq, Hc, Hcur, Hst, Hidx. auto.
Qed.

(** The closing of the text block, as the two finalizations send it. *)
Lemma well_indexed_close_text s :
  well_indexed s ->
  well_indexed
    (if textStarted s
     then send "content_block_stop" (content_block_stop (textIdx s)) s
     else s).
Proof.
  intros Hwf. destruct (textStarted s) eqn:Hstarted; [|exact Hwf].
  destruct (isClosed s) eqn:Hclosed.
  - rewrite send_closed by exact Hclosed. exact Hwf.
  - assert (Htext : 0 <= textIdx s < curIdx s).
    { destruct Hwf as (n & _ & _ & Hcur). destruct (Hcur Hclosed) as [-> H]. auto. }
    eapply well_indexed_same_blocks; try exact Hwf; try exact Hclosed.
    + apply send_enqueued_open. exact Hclosed.
    + reflexivity.
    + apply (indices_below_one _ _ (textIdx s)); [reflexivity | exact Htext].
    + fields. reflexivity.
    + fields. intros _. exact Htext.
Qed.

(** An event that carries no index and starts no block. *)
Lemma well_indexed_send_plain e d s :
  (e =? "content_block_start")%string = false ->
  prop "index" d = None ->
  well_indexed s -> well_indexed (send e d s).
Proof.
  intros He Hd Hwf. destruct (isClosed s) eqn:Hclosed.
  - rewrite send_closed by exact Hclosed. exact Hwf.
  - assert (Htext : textStarted s = true -> 0 <= textIdx s < curIdx s).
    { destruct Hwf as (n & _ & _ & Hcur). destruct (Hcur Hclosed) as [-> H]. exact H. }
    eapply well_indexed_same_blocks; try exact Hwf; try exact Hclosed.
    + apply send_enqueued_open. exact Hclosed.
    + cbn [started_blocks flat_map event]. rewrite He. reflexivity.
    + cbn [indices_below forallb]. unfold event_index. cbn [data]. rewrite Hd.
      reflexivity.
    + fields. reflexivity.
    + fields. exact Htext.
Qed.



Lemma closes_only_own_tools_nil lo : closes_only_own_tools lo [].
Proof. intros e []. Qed.

Lemma closes_only_own_tools_app lo lo' new new' :
  lo <= lo' ->
  closes_only_own_tools lo new -> closes_only_own_tools lo' new' ->
  closes_only_own_tools lo (new ++ new').
Proof.
  intros Hle H H' e He. apply in_app_or in He as [He|He].
  - destruct (H e He) as [Hdelta Hstop]. split; [exact Hdelta|].
    intros Hname. destruct (Hstop Hname) as (i & Hi & Hlo & e' & He' & Hopens).
    exists i. repeat split; try assumption.
    exists e'. split; [apply in_or_app; left; exact He' | exact Hopens].
  - destruct (H' e He) as [Hdelta Hstop]. split; [exact Hdelta|].
    intros Hname. destruct (Hstop Hname) as (i & Hi & Hlo & e' & He' & Hopens).
    exists i. repeat split; try assumption; [lia|].
    exists e'. split; [apply in_or_app; right; exact He' | exact Hopens].
Qed.

Lemma count_stops_app q q' : count_stops (q ++ q') = (count_stops q + count_stops q')%nat.
Proof. unfold count_stops. rewrite List.filter_app, length_app. reflexivity. Qed.

(** A closed stream takes nothing more. *)
Lemma closed_emission s s' new :
  enqueued s' = enqueued s ++ new -> enqueued s' = enqueued s -> new = [].
Proof.
  intros Hq Hsame. rewrite Hsame in Hq.
  apply (f_equal (@length _)) in Hq. rewrite length_app in Hq.
  destruct new; [reflexivity | cbn [length] in Hq; lia].
Qed.


(** The text of a part on an open stream: nothing, one delta on the open
    text block, or the start of the text block and its first delta. *)
Lemma handle_text_open s part :
  isClosed s = false ->
  handle_text s part = s \/
  (exists t,
     textStarted s = true /\
     enqueued (handle_text s part)
     = enqueued s ++ [{| event := "content_block_delta";
                         data := text_delta (textIdx s) t |}] /\
     curIdx (handle_text s part) = curIdx s /\
     textIdx (handle_text s part) = textIdx s /\
     textStarted (handle_text s part) = true /\
     isClosed (handle_text s part) = false) \/
  (exists t,
     textStarted s = false /\
     enqueued (handle_text s part)
     = enqueued s ++ [{| event := "content_block_start";
                         data := text_block_start (curIdx s) |};
                      {| event := "content_block_delta";
                         data := text_delta (curIdx s) t |}] /\
     curIdx (handle_text s part) = curIdx s + 1 /\
     textIdx (handle_text s part) = curIdx s /\
     textStarted (handle_text s part) = true /\
     isClosed (handle_text s part) = false).
Proof.
  intros Hopen. unfold handle_text.
  destruct (text part) as [t|]; [|left; reflexivity].
  destruct (negb (t =? "")%string); [|left; reflexivity].
  destruct (textStarted s) eqn:Hstarted; right; [left | right]; exists t.
  - sends Hopen. rewrite Hstarted. repeat split; assumption.
  - sends Hopen. rewrite <- app_assoc. repeat split; assumption.
Qed.

Lemma well_indexed_handle_text s part :
  well_indexed s -> well_indexed (handle_text s part).
Proof.
  intros Hwf. destruct (isClosed s) eqn:Hclosed.
  - apply (well_indexed_frozen s); [| |exact Hwf].
    + unfold handle_text. destruct (text part); [|exact Hclosed].
      destruct (negb _); [|exact Hclosed].
      destruct (textStarted s); fields; exact Hclosed.
    + unfold handle_text. destruct (text part); [|reflexivity].
      destruct (negb _); [|reflexivity].
      destruct (textStarted s); sends_closed Hclosed; reflexivity.
  - assert (Htext : textStarted s = true -> 0 <= textIdx s < curIdx s).
    { destruct Hwf as (n & _ & _ & Hcur). destruct (Hcur Hclosed) as [-> H]. exact H. }
    assert (Hnonneg : 0 <= curIdx s).
    { destruct Hwf as (n & _ & _ & Hcur). destruct (Hcur Hclosed) as [-> _]. lia. }
    destruct (handle_text_open s part Hclosed)
      as [-> | [(t & Hstarted & Hq & Hcur & Hidx & _ & _)
               | (t & Hstarted & Hq & Hcur & Hidx & _ & _)]];
      [exact Hwf | |].
    + eapply well_indexed_same_blocks; try eassumption; [reflexivity | |].
      * apply (indices_below_one _ _ (textIdx s)); [reflexivity | tauto].
      * intros _. rewrite Hidx. tauto.
    + eapply well_indexed_new_block; try eassumption; [reflexivity | |].
      * change (indices_below (curIdx s + 1)
                  ([{| event := "content_block_start";
                       data := text_block_start (curIdx s) |}]
                   ++ [{| event := "content_block_delta";
                          data := text_delta (curIdx s) t |}]) = true).
        rewrite indices_below_app.
        rewrite !(indices_below_one _ _ (curIdx s)) by (reflexivity || lia).
        reflexivity.
      * intros _. rewrite Hidx. lia.
Qed.

(** *** Lines across reads *)

Section Lines.

(** The separator is the single character [c]. *)
Variable c : ascii.

Lemma split_nonempty (sep s : string) : split sep s <> [].
Proof. unfold split. destruct (split_from sep 0 s). discriminate. Qed.

Lemma split_char_cons ch s :
  split (String c "") (String ch s)
  = if String.prefix (String c "") (String ch s)
    then "" :: split (String c "") s
    else match split (String c "") s with
         | seg :: rest => String ch seg :: rest
         | [] => []
         end.
Proof.
  unfold split. cbn [split_from String.length Nat.pred].
  destruct (String.prefix (String c "") (String ch s));
    destruct (split_from (String c "") 0 s); reflexivity.
Qed.

(** Splitting a text that arrives in two pieces: the lines that are
    complete in the first piece, then the lines of the carried-over rest
    followed by the second piece. *)
Lemma split_char_append x : forall y,
  split (String c "") (x +:+ y)
  = removelast (split (String c "") x)
    ++ split (String c "") (List.last (split (String c "") x) "" +:+ y).
Proof.
  induction x as [|ch x IH]; intros y; [reflexivity|].
  change (String ch x +:+ y) with (String ch (x +:+ y)).
  rewrite !split_char_cons.
  assert (Hp : String.prefix (String c "") (String ch (x +:+ y))
               = String.prefix (String c "") (String ch x)).
  { change (String ch (x +:+ y)) with (String ch x +:+ y).
    apply GeminiFacts.prefix_within. cbn [String.length]. lia. }
  rewrite Hp, IH.
  pose proof (split_nonempty (String c "") x) as Hne.
  destruct (String.prefix (String c "") (String ch x)) eqn:Hhere.
  - destruct (split (String c "") x) as [|seg rest]; [contradiction|].
    destruct rest; reflexivity.
  - destruct (split (String c "") x) as [|seg rest]; [contradiction|].
    destruct rest as [|seg' rest].
    + cbn [removelast List.last app].
      change (String ch seg +:+ y) with (String ch (seg +:+ y)).
      rewrite split_char_cons.
      assert (Hp' : String.prefix (String c "") (String ch (seg +:+ y)) = false).
      { cbn [String.prefix] in Hhere |- *.
        destruct (ascii_dec c ch); [|reflexivity].
        rewrite GeminiFacts.prefix_empty in Hhere. discriminate Hhere. }
      rewrite Hp'. reflexivity.
    + reflexivity.
Qed.

End Lines.

Lemma last_append {A : Type} (l l' : list A) (d : A) :
  l' <> [] -> List.last (l ++ l') d = List.last l' d.
Proof.
  intros Hne. induction l as [|x l IH]; [reflexivity|].
  cbn [app]. destruct (l ++ l') eqn:E.
  - destruct l; [cbn in E; contradiction | discriminate E].
  - cbn [List.last]. exact IH.
Qed.

Lemma append_empty (s : string) : s +:+ "" = s.
Proof.
  induction s as [|x s IH]; [reflexivity|].
  exact (f_equal (String x) IH).
Qed.

Lemma concat_cons (t : string) (texts : list string) :
  String.concat "" (t :: texts) = t +:+ String.concat "" texts.
Proof.
  destruct texts as [|t' texts]; [symmetry; apply append_empty | reflexivity].
Qed.

Section Facts.

Variable JSON_parse : string -> option Chunk.
Variable stamp : nat -> string.

#[local] Abbreviation handle_function_call := (Handler.handle_function_call stamp).
#[local] Abbreviation handle_part := (Handler.handle_part stamp).
#[local] Abbreviation handle_chunk := (Handler.handle_chunk stamp).
#[local] Abbreviation handle_line := (Handler.handle_line JSON_parse stamp).
#[local] Abbreviation read_loop := (Handler.read_loop JSON_parse stamp).
#[local] Abbreviation handleStreamingResponse :=
  (Handler.handleStreamingResponse JSON_parse stamp).

(** *** Fields that the handling of a frame leaves alone *)

Lemma handle_part_isClosed s part : isClosed (handle_part s part) = isClosed s.
Proof. part_cases s part; fields; reflexivity. Qed.

Lemma handle_part_finalized s part : finalized (handle_part s part) = finalized s.
Proof. part_cases s part; fields; reflexivity. Qed.

Lemma handle_part_usage s part : usage (handle_part s part) = usage s.
Proof. part_cases s part; fields; reflexivity. Qed.

Lemma handle_parts_isClosed ps : forall s,
  isClosed (fold_left handle_part ps s) = isClosed s.
Proof.
  induction ps as [|p ps IH]; intros s; [reflexivity|].
  cbn [fold_left]. rewrite IH. apply handle_part_isClosed.
Qed.

Lemma handle_parts_finalized ps : forall s,
  finalized (fold_left handle_part ps s) = finalized s.
Proof.
  induction ps as [|p ps IH]; intros s; [reflexivity|].
  cbn [fold_left]. rewrite IH. apply handle_part_finalized.
Qed.

Lemma handle_parts_usage ps : forall s,
  usage (fold_left handle_part ps s) = usage s.
Proof.
  induction ps as [|p ps IH]; intros s; [reflexivity|].
  cbn [fold_left]. rewrite IH. apply handle_part_usage.
Qed.

Lemma handle_chunk_isClosed s chunk : isClosed (handle_chunk s chunk) = isClosed s.
Proof.
  chunk_cases s chunk; fields; apply handle_parts_isClosed.
Qed.

Lemma handle_line_frame s line :
  handle_line s line
  = match line_frame JSON_parse line with
    | Some chunk => handle_chunk s chunk
    | None => s
    end.
Proof.
  unfold Handler.handle_line, line_frame.
  destruct ((trim line =? "")%string || startsWith ":" line); [reflexivity|].
  destruct (startsWith "data: " line); [|reflexivity].
  destruct (trim (slice 6 line) =? "[DONE]")%string; reflexivity.
Qed.

Lemma handle_line_isClosed s line : isClosed (handle_line s line) = isClosed s.
Proof.
  rewrite handle_line_frame. destruct (line_frame JSON_parse line); [|reflexivity].
  apply handle_chunk_isClosed.
Qed.

Lemma handle_lines_isClosed lines : forall s,
  isClosed (fold_left handle_line lines s) = isClosed s.
Proof.
  induction lines as [|l lines IH]; intros s; [reflexivity|].
  cbn [fold_left]. rewrite IH. apply handle_line_isClosed.
Qed.

(** *** What one part emits *)

Lemma handle_part_closed s part :
  isClosed s = true -> enqueued (handle_part s part) = enqueued s.
Proof. intros Hclosed. part_cases s part; sends_closed Hclosed; reflexivity. Qed.

Lemma handle_parts_closed ps : forall s,
  isClosed s = true -> enqueued (fold_left handle_part ps s) = enqueued s.
Proof.
  induction ps as [|p ps IH]; intros s Hclosed; [reflexivity|].
  cbn [fold_left]. rewrite IH by (rewrite handle_part_isClosed; exact Hclosed).
  apply handle_part_closed. exact Hclosed.
Qed.

Lemma handle_chunk_closed s chunk :
  isClosed s = true -> enqueued (handle_chunk s chunk) = enqueued s.
Proof.
  intros Hclosed.
  assert (Hparts : forall ps, isClosed (fold_left handle_part ps s) = true)
    by (intros ps; rewrite handle_parts_isClosed; exact Hclosed).
  chunk_cases s chunk;
    repeat first
      [ rewrite send_enqueued_closed by (fields; apply Hparts)
      | progress fields ];
    apply handle_parts_closed; exact Hclosed.
Qed.

Lemma handle_function_call_open s part call :
  isClosed s = false ->
  functionCall part = Some call ->
  let toolIdx := curIdx s in
  let toolId := "toolu_" +:+ stamp (stamps s) in
  enqueued (handle_function_call s part)
  = enqueued s ++
      [ {| event := "content_block_start";
           data := tool_block_start toolIdx toolId (name call) |};
        {| event := "content_block_delta";
           data := input_json_delta toolIdx (args call) |};
        {| event := "content_block_stop"; data := content_block_stop toolIdx |} ]
  /\ curIdx (handle_function_call s part) = toolIdx + 1
  /\ isClosed (handle_function_call s part) = false.
Proof.
  intros Hopen Hcall. unfold Handler.handle_function_call. rewrite Hcall.
  cbv zeta. sends Hopen. rewrite <- !app_assoc.
  repeat split. exact Hopen.
Qed.

Lemma handle_function_call_text s part :
  textStarted (handle_function_call s part) = textStarted s /\
  textIdx (handle_function_call s part) = textIdx s.
Proof.
  unfold Handler.handle_function_call.
  destruct (functionCall part); cbv zeta; fields; split; reflexivity.
Qed.

Lemma handle_function_call_absent s part :
  functionCall part = None -> handle_function_call s part = s.
Proof. intros H. unfold Handler.handle_function_call. rewrite H. reflexivity. Qed.

(** *** The block counter *)

Lemma well_indexed_handle_function_call s part :
  well_indexed s -> well_indexed (handle_function_call s part).
Proof.
  intros Hwf. destruct (functionCall part) as [call|] eqn:Hcall;
    [|rewrite handle_function_call_absent by exact Hcall; exact Hwf].
  destruct (isClosed s) eqn:Hclosed.
  - apply (well_indexed_frozen s); [| |exact Hwf];
      unfold Handler.handle_function_call; rewrite Hcall; cbv zeta.
    + fields. exact Hclosed.
    + sends_closed Hclosed. reflexivity.
  - assert (Htext : textStarted s = true -> 0 <= textIdx s < curIdx s).
    { destruct Hwf as (n & _ & _ & Hcur). destruct (Hcur Hclosed) as [-> H]. exact H. }
    assert (Hnonneg : 0 <= curIdx s).
    { destruct Hwf as (n & _ & _ & Hcur). destruct (Hcur Hclosed) as [-> _]. lia. }
    destruct (handle_function_call_open s part call Hclosed Hcall) as (Hq & Hcur & _).
    destruct (handle_function_call_text s part) as [Hstarted Hidx].
    eapply well_indexed_new_block; try eassumption; [reflexivity | |].
    + set (e1 := {| event := "content_block_start" |}).
      set (e2 := {| event := "content_block_delta" |}).
      set (e3 := {| event := "content_block_stop" |}).
      change [e1; e2; e3] with ([e1] ++ [e2] ++ [e3]).
      rewrite !indices_below_app.
      rewrite !(indices_below_one _ _ (curIdx s)) by (reflexivity || lia).
      reflexivity.
    + rewrite Hstarted, Hidx. intros H. specialize (Htext H). lia.
Qed.

Lemma well_indexed_handle_part s part :
  well_indexed s -> well_indexed (handle_part s part).
Proof.
  intros Hwf. unfold Handler.handle_part.
  apply well_indexed_handle_function_call, well_indexed_handle_text, Hwf.
Qed.

Lemma well_indexed_handle_parts ps : forall s,
  well_indexed s -> well_indexed (fold_left handle_part ps s).
Proof.
  induction ps as [|p ps IH]; intros s Hwf; [exact Hwf|].
  cbn [fold_left]. apply IH, well_indexed_handle_part, Hwf.
Qed.

Lemma well_indexed_handle_chunk s chunk :
  well_indexed s -> well_indexed (handle_chunk s chunk).
Proof.
  intros Hwf. unfold Handler.handle_chunk.
  destruct (head (candidates chunk)) as [candidate|]; [|exact Hwf]. cbv zeta.
  set (s1 := fold_left handle_part _ s).
  assert (Hwf1 : well_indexed s1) by (apply well_indexed_handle_parts, Hwf).
  set (s2 := match usageMetadata chunk with Some _ => _ | None => _ end).
  assert (Hwf2 : well_indexed s2).
  { unfold s2. destruct (usageMetadata chunk); [|exact Hwf1].
    eapply well_indexed_fields; [.. | exact Hwf1]; reflexivity. }
  destruct (finishReason candidate) as [reason|]; [|exact Hwf2].
  destruct (negb _ && negb _); [|exact Hwf2].
  apply well_indexed_send_plain; [reflexivity | reflexivity |].
  apply (well_indexed_close_text (set_finalized true s2)).
  eapply well_indexed_fields; [.. | exact Hwf2]; reflexivity.
Qed.

Lemma well_indexed_handle_lines lines : forall s,
  well_indexed s -> well_indexed (fold_left handle_line lines s).
Proof.
  induction lines as [|l lines IH]; intros s Hwf; [exact Hwf|].
  cbn [fold_left]. apply IH. rewrite handle_line_frame.
  destruct (line_frame JSON_parse l); [|exact Hwf].
  apply well_indexed_handle_chunk, Hwf.
Qed.

Lemma well_indexed_read_loop steps : forall buffer s,
  well_indexed s -> well_indexed (fst (read_loop steps buffer s)).
Proof.
  induction steps as [|[decoded|err|] steps IH]; intros buffer s Hwf;
    cbn [Handler.read_loop fst]; try exact Hwf.
  - apply IH, well_indexed_handle_lines, Hwf.
  - apply IH. apply (well_indexed_frozen s); [reflexivity | reflexivity | exact Hwf].
Qed.

Lemma well_indexed_session this body :
  well_indexed (snd (handleStreamingResponse this body)).
Proof.
  unfold Handler.handleStreamingResponse.
  set (s0 := send "message_start" _ initial).
  assert (Hwf0 : well_indexed s0).
  { exists 0%nat. repeat split; try reflexivity. discriminate. }
  assert (Hloop : well_indexed
            (fst match body with
                 | Some steps => read_loop steps "" s0
                 | None => (s0, Some "Error: No response body")
                 end)).
  { destruct body; [apply well_indexed_read_loop|]; exact Hwf0. }
  destruct (match body with Some _ => _ | None => _ end) as [s thrown].
  cbn [fst] in Hloop.
  assert (Hclose : forall s', well_indexed s' -> well_indexed (set_isClosed true s')).
  { intros s'. apply well_indexed_frozen; reflexivity. }
  destruct thrown as [err|].
  - destruct (isClosed s); cbn [snd]; [exact Hloop|].
    apply Hclose, well_indexed_send_plain; [reflexivity | reflexivity | exact Hloop].
  - assert (Hfinal : well_indexed
              (send "message_stop" message_stop
                 (if finalized s then s
                  else send "message_delta"
                         (message_delta (JStr "end_turn")
                            (usage (if textStarted s
                                    then send "content_block_stop"
                                           (content_block_stop (textIdx s)) s
                                    else s)))
                         (if textStarted s
                          then send "content_block_stop"
                                 (content_block_stop (textIdx s)) s
                          else s)))).
    { apply well_indexed_send_plain; [reflexivity | reflexivity |].
      destruct (finalized s); [exact Hloop|].
      apply well_indexed_send_plain; [reflexivity | reflexivity |].
      apply well_indexed_close_text, Hloop. }
    destruct (usage _); cbn [snd]; apply Hclose, Hfinal.
Qed.

(** C4.  In every session the [content_block_start] events carry the
    indices 0, 1, 2, ... in this order, so the indices are strictly
    increasing from 0 and none is used twice; every index carried by any
    other event is the index of one of these blocks. *)
Theorem block_indices_count_from_zero
    (this : GeminiHandler) (body : option (list ReadStep)) :
  let q := enqueued (snd (handleStreamingResponse this body)) in
  started_blocks q = map Z.of_nat (seq 0 (length (started_blocks q))) /\
  indices_below (Z.of_nat (length (started_blocks q))) q = true.
Proof.
  cbv zeta.
  destruct (well_indexed_session this body) as (n & Hstarted & Hbelow & _).
  rewrite Hstarted at 2 3. rewrite length_map, length_seq.
  split; assumption.
Qed.

(** *** Function calls *)





(** *** Frames after the finalization *)

(** What one part adds to the queue. *)
Lemma handle_part_emission s part :
  exists new,
    enqueued (handle_part s part) = enqueued s ++ new /\
    closes_only_own_tools (curIdx s) new /\
    count_stops new
    = (if isClosed s then 0 else count_calls [part])%nat /\
    (isClosed s = false -> curIdx s <= curIdx (handle_part s part)).
Proof.
  destruct (isClosed s) eqn:Hclosed.
  { exists []. rewrite app_nil_r, handle_part_closed by exact Hclosed.
    split; [reflexivity|]. split; [apply closes_only_own_tools_nil|].
    split; [reflexivity | discriminate]. }
  unfold Handler.handle_part.
  assert (Htext : exists new,
            enqueued (handle_text s part) = enqueued s ++ new /\
            closes_only_own_tools (curIdx s) new /\
            count_stops new = 0%nat /\
            curIdx s <= curIdx (handle_text s part) /\
            isClosed (handle_text s part) = false).
  { destruct (handle_text_open s part Hclosed)
      as [-> | [(t & _ & Hq & Hcur & _ & _ & Hopen)
               | (t & _ & Hq & Hcur & _ & _ & Hopen)]].
    - exists []. rewrite app_nil_r.
      split; [reflexivity|]. split; [apply closes_only_own_tools_nil|].
      split; [reflexivity|]. split; [lia | exact Hclosed].
    - eexists. split; [exact Hq|]. split.
      + intros e [<-|[]]. split; discriminate.
      + split; [reflexivity|]. split; [lia | exact Hopen].
    - eexists. split; [exact Hq|]. split.
      + intros e [<-|[<-|[]]]; split; discriminate.
      + split; [reflexivity|]. split; [lia | exact Hopen]. }
  destruct Htext as (new & Hq & Hown & Hstops & Hcur & Hopen).
  destruct (functionCall part) as [call|] eqn:Hcall.
  - destruct (handle_function_call_open (handle_text s part) part call Hopen Hcall)
      as (Hq' & Hcur' & _).
    eexists. rewrite Hq', Hq, <- app_assoc. split; [reflexivity|].
    split; [|split].
    + apply (closes_only_own_tools_app _ (curIdx (handle_text s part)));
        [exact Hcur | exact Hown |].
      intros e [<-|[<-|[<-|[]]]]; (split; [discriminate|]); try discriminate.
      intros _. exists (curIdx (handle_text s part)).
      split; [reflexivity|]. split; [lia|].
      eexists. split; [left; reflexivity|].
      split; [reflexivity|]. split; reflexivity.
    + rewrite count_stops_app, Hstops. unfold count_calls.
      cbn [List.filter]. rewrite Hcall. reflexivity.
    + intros _. lia.
  - rewrite handle_function_call_absent by exact Hcall.
    exists new. split; [exact Hq|]. split; [exact Hown|].
    split; [|intros _; exact Hcur].
    rewrite Hstops. unfold count_calls. cbn [List.filter]. rewrite Hcall. reflexivity.
Qed.

Lemma handle_parts_emission ps : forall s,
  exists new,
    enqueued (fold_left handle_part ps s) = enqueued s ++ new /\
    closes_only_own_tools (curIdx s) new /\
    count_stops new = (if isClosed s then 0 else count_calls ps)%nat.
Proof.
  induction ps as [|p ps IH]; intros s.
  - exists []. rewrite app_nil_r. split; [reflexivity|].
    split; [apply closes_only_own_tools_nil | destruct (isClosed s); reflexivity].
  - cbn [fold_left].
    destruct (handle_part_emission s p) as (new & Hq & Hown & Hstops & Hcur).
    destruct (IH (handle_part s p)) as (new' & Hq' & Hown' & Hstops').
    exists (new ++ new'). rewrite Hq', Hq, <- app_assoc. split; [reflexivity|].
    rewrite handle_part_isClosed in Hstops'.
    destruct (isClosed s) eqn:Hclosed.
    + assert (Hnew : new = []).
      { eapply closed_emission; [exact Hq|].
        apply handle_part_closed. exact Hclosed. }
      assert (Hnew' : new' = []).
      { eapply closed_emission; [exact Hq'|].
        apply handle_parts_closed. rewrite handle_part_isClosed. exact Hclosed. }
      subst new new'. split; [apply closes_only_own_tools_nil | reflexivity].
    + split.
      * apply (closes_only_own_tools_app _ (curIdx (handle_part s p)));
          [apply Hcur; reflexivity | exact Hown | exact Hown'].
      * rewrite count_stops_app, Hstops, Hstops'. unfold count_calls.
        cbn [List.filter]. destruct (functionCall p); reflexivity.
Qed.

(** After the finalization a frame only runs the loop over its parts. *)
Lemma handle_chunk_finalized s chunk :
  finalized s = true ->
  enqueued (handle_chunk s chunk)
  = enqueued (fold_left handle_part (first_parts chunk) s) /\
  finalized (handle_chunk s chunk) = true.
Proof.
  intros Hfin. unfold Handler.handle_chunk, first_parts.
  destruct (head (candidates chunk)) as [candidate|]; [|split; [reflexivity | exact Hfin]].
  cbv zeta.
  set (s1 := fold_left handle_part _ s).
  assert (Hfin1 : finalized s1 = true)
    by (unfold s1; rewrite handle_parts_finalized; exact Hfin).
  destruct (usageMetadata chunk);
    (destruct (finishReason candidate) as [reason|];
     [fields; rewrite Hfin1, andb_false_r|]; fields; (split; [reflexivity | exact Hfin1])).
Qed.

(** C2, amended.  A frame handled after the finalized flag is set leaves
    the flag set and emits no [message_delta].  Every
    [content_block_stop] it emits closes a [tool_use] block that the same
    frame starts, at an index the counter had not reached before; there
    are as many of them as the frame has function-call parts (none on a
    cancelled stream), so text parts and a further finish reason close
    nothing. *)
Theorem late_frame_closes_only_own_tools (s : Stream) (chunk : Chunk) :
  finalized s = true ->
  finalized (handle_chunk s chunk) = true /\
  closes_only_own_tools (curIdx s) (emitted_since s (handle_chunk s chunk)) /\
  count_stops (emitted_since s (handle_chunk s chunk))
  = (if isClosed s then 0 else count_calls (first_parts chunk))%nat.
Proof.
  intros Hfin. destruct (handle_chunk_finalized s chunk Hfin) as [Hq Hfin'].
  split; [exact Hfin'|].
  destruct (handle_parts_emission (first_parts chunk) s) as (new & Hnew & Hown & Hstops).
  unfold emitted_since. rewrite Hq, Hnew, drop_app_length.
  split; assumption.
Qed.

(** *** Reads that cut the text anywhere *)

(** Two reads in a row act as one read of their concatenation. *)
Lemma read_loop_merge a b rest buffer s :
  read_loop (Data a :: Data b :: rest) buffer s
  = read_loop (Data (a +:+ b) :: rest) buffer s.
Proof.
  cbn [Handler.read_loop]. cbv zeta. unfold nl.
  rewrite <- (GeminiFacts.append_assoc buffer a b).
  rewrite (split_char_append "010"%char (buffer +:+ a) b).
  set (lines1 := split _ (buffer +:+ a)).
  set (lines2 := split _ (List.last lines1 "" +:+ b)).
  assert (Hne : lines2 <> []) by apply split_nonempty.
  rewrite removelast_app, fold_left_app, last_append by exact Hne.
  reflexivity.
Qed.

(** Only the concatenation of the decoded texts matters. *)
Lemma read_loop_concat texts : forall t buffer s,
  read_loop (map Data (t :: texts)) buffer s
  = read_loop [Data (String.concat "" (t :: texts))] buffer s.
Proof.
  induction texts as [|t' texts IH]; intros t buffer s; [reflexivity|].
  cbn [map]. rewrite read_loop_merge.
  change (Data (t +:+ t') :: map Data texts) with (map Data ((t +:+ t') :: texts)).
  rewrite IH, !concat_cons, GeminiFacts.append_assoc. reflexivity.
Qed.

(** *** The text example *)



(** *** The read loop *)

Lemma read_loop_thrown steps : forall buffer s,
  snd (read_loop steps buffer s) = first_failure steps.
Proof.
  induction steps as [|[decoded|err|] steps IH]; intros buffer s;
    cbn [Handler.read_loop first_failure]; try reflexivity; apply IH.
Qed.

Lemma read_loop_open steps : forall buffer s,
  isClosed s = false ->
  cancelled steps = false ->
  isClosed (fst (read_loop steps buffer s)) = false.
Proof.
  induction steps as [|[decoded|err|] steps IH]; intros buffer s Hopen Hcancel;
    cbn [Handler.read_loop cancelled fst] in *; try assumption; try discriminate.
  apply IH; [|exact Hcancel]. rewrite handle_lines_isClosed. exact Hopen.
Qed.

(** *** The last event *)


(** *** The usage tally *)

Lemma handle_chunk_usage s chunk :
  usage (handle_chunk s chunk) = track_usage (usage s) chunk.
Proof.
  unfold track_usage, frame_usage.
  chunk_cases s chunk; fields; rewrite ?handle_parts_usage; reflexivity.
Qed.

Lemma handle_lines_usage lines : forall s,
  usage (fold_left handle_line lines s)
  = fold_left track_usage (omap (line_frame JSON_parse) lines) (usage s).
Proof.
  induction lines as [|l lines IH]; intros s; [reflexivity|].
  cbn [fold_left omap list_omap]. rewrite IH, handle_line_frame.
  destruct (line_frame JSON_parse l) as [chunk|]; [|reflexivity].
  cbn [fold_left]. rewrite handle_chunk_usage. reflexivity.
Qed.

Lemma read_loop_usage steps : forall buffer s,
  usage (fst (read_loop steps buffer s))
  = fold_left track_usage (decoded_frames JSON_parse steps buffer) (usage s).
Proof.
  induction steps as [|[decoded|err|] steps IH]; intros buffer s;
    cbn [Handler.read_loop decoded_frames fst]; try reflexivity.
  - rewrite IH, fold_left_app, handle_lines_usage. reflexivity.
  - rewrite IH. reflexivity.
Qed.

Lemma track_usage_latest frames : forall u,
  fold_left track_usage frames u
  = match latest_usage frames with
    | Some u' => Some u'
    | None => u
    end.
Proof.
  unfold latest_usage.
  induction frames as [|chunk frames IH] using rev_ind; intros u; [reflexivity|].
  rewrite fold_left_app, omap_app. cbn [fold_left omap list_omap].
  unfold track_usage at 1.
  destruct (frame_usage chunk) as [u'|].
  - rewrite last_snoc. reflexivity.
  - rewrite app_nil_r. apply IH.
Qed.

(** C3, amended.  When the read loop ends without an error, the handler
    takes over the usage of the latest frame that carries a first
    candidate and usage metadata: the input counter becomes that frame's
    prompt-token count and the output counter grows by that frame's
    candidate-token count alone, a missing count being 0.  Without such a
    frame the counters stay. *)
Theorem session_counters_follow_latest_usage
    (this : GeminiHandler) (steps : list ReadStep) :
  first_failure steps = None ->
  fst (handleStreamingResponse this (Some steps))
  = match latest_usage (decoded_frames JSON_parse steps "") with
    | Some u =>
        {| targetModel := targetModel this;
           sessionInputTokens := input_tokens u;
           sessionOutputTokens := sessionOutputTokens this + output_tokens u |}
    | None => this
    end.
Proof.
  intros Hok. unfold Handler.handleStreamingResponse.
  set (s0 := send "message_start" _ initial).
  pose proof (read_loop_thrown steps "" s0) as Hthrown.
  pose proof (read_loop_usage steps "" s0) as Husage.
  destruct (read_loop steps "" s0) as [s thrown]. cbn [fst snd] in *.
  rewrite Hok in Hthrown. subst thrown.
  rewrite track_usage_latest in Husage.
  assert (Hfinal : forall s',
            usage s' = usage s ->
            usage (send "message_stop" message_stop s')
            = match latest_usage (decoded_frames JSON_parse steps "") with
              | Some u => Some u
              | None => None
              end).
  { intros s' Hs'. rewrite send_usage, Hs', Husage. destruct (latest_usage _); reflexivity. }
  rewrite Hfinal.
  - destruct (latest_usage _); reflexivity.
  - destruct (finalized s); [reflexivity|].
    destruct (textStarted s); fields; reflexivity.
Qed.

End Facts.

(** *** The claims of the specification on concrete streams *)



(** C2 as stated fails: a function call in a frame that arrives after the
    finalization still emits the [content_block_stop] of its block. *)
Lemma late_function_call_is_closed :
  finalized finalized_stream = true /\
  In {| event := "content_block_stop"; data := content_block_stop 1 |}
     (emitted_since finalized_stream
        (Handler.handle_chunk sample_stamp finalized_stream
           (call_frame "f" (JObj [("a", JNum 1)])))).
Proof. vm_compute. split; [reflexivity|]. right. right. left. reflexivity. Qed.

(** A late text part still sends its delta, on the closed block 0. *)
Example late_text_sends_delta :
  emitted_since finalized_stream
    (Handler.handle_chunk sample_stamp finalized_stream there_frame)
  = [{| event := "content_block_delta"; data := text_delta 0 " there" |}].
Proof. reflexivity. Qed.

Lemma late_frame_closes_only_own_tools_witness :
  finalized (Handler.handle_chunk sample_stamp finalized_stream
               (call_frame "f" (JObj [("a", JNum 1)]))) = true /\
  count_stops
    (emitted_since finalized_stream
       (Handler.handle_chunk sample_stamp finalized_stream
          (call_frame "f" (JObj [("a", JNum 1)])))) = 1%nat.
Proof.
  destruct (late_frame_closes_only_own_tools sample_stamp finalized_stream
              (call_frame "f" (JObj [("a", JNum 1)])) eq_refl)
    as (Hfinalized & _ & Hstops).
  split; [exact Hfinalized | exact Hstops].
Defined.

(** C3 as stated fails: of two frames that report 1 and 2 output tokens,
    only the later one reaches the session counter. *)
Lemma output_counter_not_summed :
  let frames := decoded_frames sample_parse two_usage_body "" in
  let this :=
    fst (Handler.handleStreamingResponse sample_parse sample_stamp
           sample_handler (Some two_usage_body)) in
  map output_tokens (omap frame_usage frames) = [1; 2] /\
  summed_output frames = 3 /\
  sessionOutputTokens this = 2 /\
  sessionOutputTokens this
  <> sessionOutputTokens sample_handler + summed_output frames.
Proof. vm_compute. repeat split; try reflexivity. discriminate. Qed.

Lemma session_counters_follow_latest_usage_witness :
  fst (Handler.handleStreamingResponse sample_parse sample_stamp
         sample_handler (Some two_usage_body))
  = {| targetModel := "gemini-2.5-flash";
       sessionInputTokens := 10; sessionOutputTokens := 2 |}.
Proof.
  rewrite (session_counters_follow_latest_usage sample_parse sample_stamp
             sample_handler two_usage_body eq_refl).
  reflexivity.
Defined.

Lemma block_indices_count_from_zero_witness :
  started_blocks
    (enqueued (snd (Handler.handleStreamingResponse sample_parse sample_stamp
                      sample_handler (Some hi_there_body))))
  = [0].
Proof.
  rewrite (proj1 (block_indices_count_from_zero sample_parse sample_stamp
                    sample_handler (Some hi_there_body))).
  reflexivity.
Defined.

(** Text, a tool call, more text and a second tool call: the blocks are
    0, 1 and 2, and the later text goes to block 0. *)
Example interleaved_blocks :
  let s :=
    fold_left (Handler.handle_part sample_stamp)
      [ {| text := Some "a"; functionCall := None |};
        call_part "f" JNull;
        {| text := Some "b"; functionCall := Some {| name := "g"; args := None |} |} ]
      initial in
  started_blocks (enqueued s) = [0; 1; 2] /\
  omap event_index (enqueued s) = [0; 0; 1; 1; 1; 0; 2; 2; 2].
Proof. split; reflexivity. Qed.

Example stringify_arguments :
  stringify (JObj [("a", JNum 1)]) = "{" +:+ dq +:+ "a" +:+ dq +:+ ":1}".
Proof. reflexivity. Qed.



End StreamFacts.

(** ** [sanitizeRoot]: the renamed and defaulted fields *)

Module SanitizeFieldFacts.
Import Transform OpenAI SanitizeAux SanitizeFacts.

Lemma get_delete_same key obj : get key (delete_key key obj) = None.
Proof.
  unfold delete_key. induction obj as [|[k v] obj IH]; simpl; [reflexivity|].
  destruct (k =? key)%string eqn:E; simpl; [exact IH|].
  rewrite E. exact IH.
Qed.

Lemma get_delete_other key key' obj :
  key <> key' -> get key (delete_key key' obj) = get key obj.
Proof.
  intros Hne. unfold delete_key.
  induction obj as [|[k v] obj IH]; simpl; [reflexivity|].
  destruct (k =? key')%string eqn:E; simpl.
  - apply String.eqb_eq in E. subst k.
    destruct (key' =? key)%string eqn:E'; [|exact IH].
    apply String.eqb_eq in E'. congruence.
  - rewrite IH. reflexivity.
Qed.

Lemma get_delete_all keys : forall req key,
  ~ In key keys ->
  get key (fold_left (fun r k => delete_key k r) keys req) = get key req.
Proof.
  induction keys as [|k keys IH]; intros req key Hnotin; simpl; [reflexivity|].
  rewrite IH by (intros H; apply Hnotin; right; exact H).
  apply get_delete_other. intros ->. apply Hnotin. left. reflexivity.
Qed.

(** The request after [sanitizeRoot], step by step. *)
Lemma sanitizeRoot_request req :
  fst (sanitizeRoot req)
  = default_max_tokens
      (fold_left (fun r k => delete_key k r) DROP_KEYS (move_user (rename_stop req))).
Proof.
  unfold sanitizeRoot, default_max_tokens, move_user.
  fold (rename_stop req).
  destruct (get "user" (rename_stop req)) as [user|];
    [destruct (truthy user)|];
    rewrite drop_loop by apply DROP_KEYS_NoDup; reflexivity.
Qed.

Lemma get_rename_stop key req :
  key <> "stop" -> key <> "stop_sequences" ->
  get key (rename_stop req) = get key req.
Proof.
  intros H1 H2. unfold rename_stop. destruct (get "stop" req); [|reflexivity].
  rewrite get_delete_other, get_set_other by assumption. reflexivity.
Qed.

Lemma get_move_user key req :
  key <> "user" -> key <> "metadata" ->
  get key (move_user req) = get key req.
Proof.
  intros H1 H2. unfold move_user.
  destruct (get "user" req) as [user|]; [|reflexivity].
  destruct (truthy user); [|reflexivity].
  rewrite get_delete_other, get_set_other by assumption. reflexivity.
Qed.

Lemma get_default_max_tokens key req :
  key <> "max_tokens" -> get key (default_max_tokens req) = get key req.
Proof.
  intros H. unfold default_max_tokens.
  destruct (get "max_tokens" req) as [[]|];
    rewrite ?get_set_other by assumption; reflexivity.
Qed.

Lemma not_dropped key :
  key = "stop" \/ key = "stop_sequences" \/ key = "metadata" \/ key = "max_tokens" ->
  ~ In key DROP_KEYS.
Proof.
  intros H Hin. destruct (DROP_KEYS_apart key Hin) as (H1 & H2 & H3 & H4).
  destruct H as [H|[H|[H|H]]]; contradiction.
Qed.

(** X1.  After [sanitizeRoot] the request always carries [max_tokens]: the
    value of the input when the input has one that is not [null], and 4096
    otherwise. *)
Theorem sanitizeRoot_max_tokens (req : object) :
  get "max_tokens" (fst (sanitizeRoot req))
  = Some match get "max_tokens" req with
         | None | Some JNull => JNum 4096
         | Some given => given
         end.
Proof.
  rewrite sanitizeRoot_request.
  set (r := fold_left _ DROP_KEYS _).
  assert (Hr : get "max_tokens" r = get "max_tokens" req).
  { unfold r. rewrite get_delete_all by (apply not_dropped; tauto).
    rewrite get_move_user, get_rename_stop by discriminate. reflexivity. }
  unfold default_max_tokens. rewrite Hr.
  destruct (get "max_tokens" req) as [[]|] eqn:E;
    rewrite ?get_set_same; try reflexivity; exact Hr.
Qed.

(** X2.  After [sanitizeRoot] the request has no [stop]; an input [stop] is
    found under [stop_sequences], as it is when it is an array and as a
    one-element array otherwise, in place of any [stop_sequences] of the
    input; without an input [stop] the field [stop_sequences] is left as
    it was. *)
Theorem sanitizeRoot_renames_stop (req : object) :
  has_key "stop" (fst (sanitizeRoot req)) = false /\
  get "stop_sequences" (fst (sanitizeRoot req))
  = match get "stop" req with
    | Some stop => Some (if isArray stop then stop else JArr [stop])
    | None => get "stop_sequences" req
    end.
Proof.
  rewrite sanitizeRoot_request. split.
  - apply get_None_has_key.
    rewrite get_default_max_tokens by discriminate.
    rewrite get_delete_all by (apply not_dropped; tauto).
    rewrite get_move_user by discriminate.
    unfold rename_stop. destruct (get "stop" req) eqn:E; [|exact E].
    apply get_delete_same.
  - rewrite get_default_max_tokens by discriminate.
    rewrite get_delete_all by (apply not_dropped; tauto).
    rewrite get_move_user by discriminate.
    unfold rename_stop. destruct (get "stop" req); [|reflexivity].
    rewrite get_delete_other by discriminate. apply get_set_same.
Qed.


(** X4.  [sanitizeRoot] leaves every other field alone: a key that is not in
    the drop-list and is none of [stop], [stop_sequences], [metadata] and
    [max_tokens] reads after the call as it read before. *)
Theorem sanitizeRoot_keeps_other_fields (req : object) (key : string) :
  ~ In key sanitizer_keys ->
  get key (fst (sanitizeRoot req)) = get key req.
Proof.
  unfold sanitizer_keys. intros Hkey.
  assert (Hdrop : ~ In key DROP_KEYS)
    by (intros H; apply Hkey, in_or_app; left; exact H).
  assert (Hother : forall k, In k ["stop"; "stop_sequences"; "metadata"; "max_tokens"] ->
                             key <> k).
  { intros k Hk ->. apply Hkey, in_or_app. right. exact Hk. }
  assert (Huser : key <> "user").
  { intros ->. apply Hdrop. cbn. tauto. }
  rewrite sanitizeRoot_request.
  rewrite get_default_max_tokens by (apply Hother; cbn; tauto).
  rewrite get_delete_all by exact Hdrop.
  rewrite get_move_user by (try exact Huser; apply Hother; cbn; tauto).
  apply get_rename_stop; apply Hother; cbn; tauto.
Qed.

Lemma sanitizeRoot_keeps_other_fields_witness :
  ~ In "model" sanitizer_keys /\
  get "model" (fst (sanitizeRoot OpenAIAux.openai_sample)) = Some (JStr "o3-mini").
Proof.
  assert (H : ~ In "model" sanitizer_keys) by (cbn; intuition discriminate).
  split; [exact H|].
  rewrite (sanitizeRoot_keeps_other_fields OpenAIAux.openai_sample "model" H).
  reflexivity.
Defined.

End SanitizeFieldFacts.

(** ** The schema rewrites *)

Module SchemaFacts.
Import Transform CleanAux SchemaAux SanitizeFieldFacts.

Lemma removeUriFormat_object props :
  removeUriFormat (JObj props)
  = if is_uri_string (JObj props)
    then JObj (delete_key "format" props)
    else JObj (map remove_entry props).
Proof. reflexivity. Qed.

(** A read of a key after a rewrite of the values that keeps the keys. *)
Lemma get_map_values (f : string * json -> string * json) key props :
  (forall kv, fst (f kv) = fst kv) ->
  get key (map f props) = option_map (fun v => snd (f (key, v))) (get key props).
Proof.
  intros Hf. induction props as [|[k v] props IH]; cbn [map get]; [reflexivity|].
  pose proof (Hf (k, v)) as Hk. destruct (f (k, v)) as [k' v'] eqn:E.
  cbn [fst] in Hk. subst k'.
  destruct (k =? key)%string eqn:Ek; [|exact IH].
  apply String.eqb_eq in Ek. subst k. cbn [option_map]. rewrite E. reflexivity.
Qed.

Lemma remove_entry_key kv : fst (remove_entry kv) = fst kv.
Proof.
  destruct kv as [key v]. unfold remove_entry. cbn [fst snd].
  destruct ((key =? "properties")%string && typeof_object v); [reflexivity|].
  destruct ((key =? "items")%string && typeof_object v); [reflexivity|].
  destruct ((key =? "additionalProperties")%string && typeof_object v); [reflexivity|].
  destruct v; try reflexivity.
  destruct (includes_key _ key); reflexivity.
Qed.

(** A string stays the string it is, and nothing else becomes a string. *)
Lemma removeUriFormat_is_str (o : option json) (s : string) :
  is_str (option_map removeUriFormat o) s = is_str o s.
Proof.
  destruct o as [v|]; [|reflexivity].
  destruct v as [ | | | | items | props ]; try reflexivity.
  cbn [option_map]. rewrite removeUriFormat_object.
  destruct (is_uri_string (JObj props)); reflexivity.
Qed.

Lemma remove_entry_plain key v :
  key <> "properties" -> snd (remove_entry (key, v)) = removeUriFormat v.
Proof.
  intros Hkey. unfold remove_entry. cbn [fst snd].
  destruct (String.eqb_spec key "properties") as [->|_]; [contradiction|].
  cbn [andb].
  destruct ((key =? "items")%string && typeof_object v); [reflexivity|].
  destruct ((key =? "additionalProperties")%string && typeof_object v); [reflexivity|].
  destruct v; try reflexivity.
  destruct (includes_key _ key); reflexivity.
Qed.

Lemma is_str_remove_entries key props s :
  key <> "properties" ->
  is_str (get key (map remove_entry props)) s = is_str (get key props) s.
Proof.
  intros Hkey. rewrite get_map_values by apply remove_entry_key.
  destruct (get key props) as [v|]; [|reflexivity].
  cbn [option_map]. rewrite remove_entry_plain by exact Hkey.
  exact (removeUriFormat_is_str (Some v) s).
Qed.

Lemma removeUriFormat_top (schema : json) :
  is_uri_string (removeUriFormat schema) = false.
Proof.
  destruct schema as [ | | | | items | props ]; try reflexivity.
  rewrite removeUriFormat_object.
  destruct (is_uri_string (JObj props)) eqn:E.
  - cbn [is_uri_string]. rewrite get_delete_same. apply andb_false_r.
  - cbn [is_uri_string] in E |- *.
    rewrite !is_str_remove_entries by discriminate. exact E.
Qed.

(** X5.  Whatever the input, the value [removeUriFormat] returns is not itself
    a schema of type [string] with format [uri]. *)
Theorem removeUriFormat_result_is_no_uri_string (schema : json) :
  is_uri_string (removeUriFormat schema) = false.
Proof. apply removeUriFormat_top. Qed.

(** *** The schemas of type [string] with format [uri] *)

Lemma uri_free_object props :
  uri_free (JObj props)
  = negb (is_uri_string (JObj props)) && forallb uri_free_field props.
Proof. reflexivity. Qed.

Lemma flat_uri_strings_object props :
  flat_uri_strings (JObj props)
  = if is_uri_string (JObj props)
    then forallb uri_free_field props
    else forallb flat_uri_field props.
Proof. reflexivity. Qed.

Lemma remove_entry_value key v :
  (key =? "properties")%string && typeof_object v = false ->
  remove_entry (key, v) = (key, removeUriFormat v).
Proof.
  intros Hprops. unfold remove_entry. cbn [fst snd]. rewrite Hprops.
  destruct ((key =? "items")%string && typeof_object v); [reflexivity|].
  destruct ((key =? "additionalProperties")%string && typeof_object v); [reflexivity|].
  destruct v; try reflexivity.
  destruct (includes_key _ key); reflexivity.
Qed.

Lemma forallb_filter {A : Type} (f g : A -> bool) (l : list A) :
  forallb f l = true -> forallb f (List.filter g l) = true.
Proof.
  induction l as [|x l IH]; cbn [forallb List.filter]; [reflexivity|].
  intros H. apply andb_prop in H as [Hx Hl].
  destruct (g x); cbn [forallb]; rewrite ?Hx; apply IH; exact Hl.
Qed.

Lemma stripped_values xs :
  Forall stripped xs -> forallb flat_uri_strings xs = true ->
  forallb uri_free (map removeUriFormat xs) = true.
Proof.
  induction 1 as [|x xs Hx _ IH]; cbn [map forallb]; [reflexivity|].
  intros H. apply andb_prop in H as [Hflat Hrest].
  rewrite (Hx Hflat), IH by exact Hrest. reflexivity.
Qed.

Lemma stripped_props (ps : list (string * json)) :
  Forall (fun kv => stripped (snd kv)) ps ->
  forallb (fun pv : string * json => flat_uri_strings (snd pv)) ps = true ->
  forallb (fun pv : string * json => uri_free (snd pv))
    (map (fun pv : string * json => (fst pv, removeUriFormat (snd pv))) ps) = true.
Proof.
  induction 1 as [|[k v] ps Hx _ IH]; cbn [map forallb fst snd]; [reflexivity|].
  intros H. apply andb_prop in H as [Hflat Hrest]. cbn [snd] in Hx.
  rewrite (Hx Hflat), IH by exact Hrest. reflexivity.
Qed.

Lemma uri_free_combine (ks : list string) : forall xs : list json,
  forallb uri_free xs = true ->
  forallb (fun pv : string * json => uri_free (snd pv)) (combine ks xs) = true.
Proof.
  induction ks as [|k ks IH]; intros [|x xs] H; cbn [combine forallb snd];
    try reflexivity.
  cbn [forallb] in H. apply andb_prop in H as [Hx Hxs].
  rewrite Hx, IH by exact Hxs. reflexivity.
Qed.

Lemma remove_entry_stripped kv :
  stripped (snd kv) -> children_stripped (snd kv) ->
  flat_uri_field kv = true ->
  uri_free_field (remove_entry kv) = true.
Proof.
  destruct kv as [key v]. cbn [snd]. intros Hv Hc Hflat.
  destruct ((key =? "properties")%string && typeof_object v) eqn:Hprops.
  - apply andb_prop in Hprops as [Hk Ht].
    unfold remove_entry. cbn [fst snd]. rewrite Hk, Ht. cbn [andb].
    unfold uri_free_field. cbn [fst snd]. rewrite Hk.
    unfold flat_uri_field in Hflat. cbn [fst snd] in Hflat.
    destruct v as [ | | | | xs | ps ]; cbn [children_stripped] in Hc;
      try reflexivity.
    + apply uri_free_combine, stripped_values; [exact Hc | exact Hflat].
    + rewrite Hk in Hflat. apply stripped_props; [exact Hc | exact Hflat].
  - rewrite remove_entry_value by exact Hprops.
    assert (Hplain : forall ps, v = JObj ps -> (key =? "properties")%string = false).
    { intros ps ->. cbn [typeof_object] in Hprops.
      rewrite andb_true_r in Hprops. exact Hprops. }
    assert (Hin : flat_uri_strings v = true).
    { unfold flat_uri_field in Hflat. cbn [fst snd] in Hflat.
      destruct v as [ | | | | | ps ]; try exact Hflat.
      rewrite (Hplain ps eq_refl) in Hflat. exact Hflat. }
    unfold uri_free_field. cbn [fst snd].
    destruct (removeUriFormat v) as [ | | | | | ps' ] eqn:E;
      try (rewrite <- E; exact (Hv Hin)).
    assert (Hobj : exists ps, v = JObj ps).
    { destruct v as [ | | | | | ps ]; try discriminate E. exists ps. reflexivity. }
    destruct Hobj as [ps Hps]. rewrite (Hplain ps Hps).
    rewrite <- E. exact (Hv Hin).
Qed.

Lemma remove_entries_stripped props :
  Forall (fun kv => stripped (snd kv) /\ children_stripped (snd kv)) props ->
  forallb flat_uri_field props = true ->
  forallb uri_free_field (map remove_entry props) = true.
Proof.
  induction 1 as [|kv props [Hv Hc] _ IH]; cbn [map forallb]; [reflexivity|].
  intros H. apply andb_prop in H as [Hflat Hrest].
  rewrite remove_entry_stripped, IH by assumption. reflexivity.
Qed.

Lemma removeUriFormat_stripped_strong v : stripped v /\ children_stripped v.
Proof.
  induction v as [ | | | | items IH | props IH ] using json_nested_ind;
    try (split; [intros _; reflexivity | exact I]).
  - assert (Hc : Forall stripped items)
      by (eapply Forall_impl; [exact IH | intros x [H _]; exact H]).
    split; [|exact Hc].
    intros Hflat. cbn [removeUriFormat uri_free].
    apply stripped_values; [exact Hc | exact Hflat].
  - split.
    + intros Hflat. rewrite flat_uri_strings_object in Hflat.
      rewrite removeUriFormat_object.
      destruct (is_uri_string (JObj props)) eqn:E.
      * rewrite uri_free_object. cbn [is_uri_string].
        rewrite get_delete_same, andb_false_r. cbn [negb andb].
        apply forallb_filter. exact Hflat.
      * rewrite uri_free_object. cbn [is_uri_string] in E |- *.
        rewrite !is_str_remove_entries by discriminate. rewrite E.
        cbn [negb andb]. apply remove_entries_stripped; assumption.
    + cbn [children_stripped].
      eapply Forall_impl; [exact IH | intros x [H _]; exact H].
Qed.

(** X6.  On a schema whose schemas of type [string] with format [uri] are flat
    (none holds another one below it), the value [removeUriFormat]
    returns holds no schema of type [string] with format [uri] at any
    schema position. *)
Theorem removeUriFormat_strips_every_uri_string (schema : json) :
  flat_uri_strings schema = true ->
  uri_free (removeUriFormat schema) = true.
Proof. exact (proj1 (removeUriFormat_stripped_strong schema)). Qed.

Lemma removeUriFormat_strips_every_uri_string_witness :
  flat_uri_strings uri_schema_sample = true /\
  uri_free uri_schema_sample = false /\
  uri_free (removeUriFormat uri_schema_sample) = true.
Proof.
  split; [reflexivity|]. split; [reflexivity|].
  exact (removeUriFormat_strips_every_uri_string uri_schema_sample eq_refl).
Defined.

(** A [uri] string below another one survives the call: the outer schema
    is returned without its format and without a visit of its fields. *)
Example removeUriFormat_keeps_a_nested_uri_string :
  flat_uri_strings nested_uri_sample = false /\
  removeUriFormat nested_uri_sample
  = JObj [("type", JStr "string");
          ("items", JObj [("type", JStr "string"); ("format", JStr "uri")])].
Proof. split; reflexivity. Qed.

Example removeUriFormat_sample :
  removeUriFormat uri_schema_sample
  = JObj [("type", JStr "object");
          ("properties",
           JObj [("home", JObj [("type", JStr "string")]);
                 ("links",
                  JObj [("type", JStr "array");
                        ("items", JObj [("type", JStr "string");
                                        ("minLength", JNum 1)])])]);
          ("anyOf", JArr [JObj [("type", JStr "string")];
                          JObj [("type", JStr "string"); ("format", JStr "email")]])].
Proof. reflexivity. Qed.

(** *** No field that Gemini rejects survives the pruning *)

Example supported_sample :
  supported (JObj [("type", JStr "object");
                   ("properties", JObj [("not", JObj [("type", JStr "string")])])])
  = true /\
  supported (JObj [("type", JStr "object");
                   ("items", JObj [("not", JObj [("type", JStr "string")])])])
  = false.
Proof. split; reflexivity. Qed.


Lemma forallb_flat_map {A B : Type} (f : B -> bool) (g : A -> list B) (l : list A) :
  forallb f (flat_map g l) = forallb (fun x => forallb f (g x)) l.
Proof.
  induction l as [|x l IH]; cbn [flat_map forallb]; [reflexivity|].
  rewrite forallb_app, IH. reflexivity.
Qed.

Lemma supported_object props :
  supported (JObj props) = forallb supported_field props.
Proof. reflexivity. Qed.

Lemma supported_field_plain key v :
  includes_key UNSUPPORTED_FIELDS key = false ->
  (forall ps, v = JObj ps -> key <> "properties") ->
  supported v = true ->
  supported_field (key, v) = true.
Proof.
  intros Hkey Hplain Hv. unfold supported_field. cbn [fst snd].
  rewrite Hkey. cbn [negb andb].
  destruct v as [ | | | | | ps ]; try exact Hv.
  destruct (String.eqb_spec key "properties") as [Heq|_]; [|exact Hv].
  destruct (Hplain ps eq_refl Heq).
Qed.

Lemma supported_primitive v : typeof_object v = false -> supported v = true.
Proof. destruct v; try reflexivity; discriminate. Qed.

Lemma pruned_values xs :
  Forall pruned xs -> forallb supported (map cleanSchemaForGemini xs) = true.
Proof.
  induction 1 as [|x xs Hx _ IH]; cbn [map forallb]; [reflexivity|].
  rewrite Hx, IH. reflexivity.
Qed.

Lemma pruned_props (ps : list (string * json)) :
  Forall (fun kv => pruned (snd kv)) ps ->
  forallb (fun pv : string * json => supported (snd pv))
    (map (fun pv : string * json => (fst pv, cleanSchemaForGemini (snd pv))) ps) = true.
Proof.
  induction 1 as [|[k v] ps Hx _ IH]; cbn [map forallb fst snd]; [reflexivity|].
  cbn [snd] in Hx. rewrite Hx, IH. reflexivity.
Qed.

Lemma supported_combine (ks : list string) : forall xs : list json,
  forallb supported xs = true ->
  forallb (fun pv : string * json => supported (snd pv)) (combine ks xs) = true.
Proof.
  induction ks as [|k ks IH]; intros [|x xs] H; cbn [combine forallb snd];
    try reflexivity.
  cbn [forallb] in H. apply andb_prop in H as [Hx Hxs].
  rewrite Hx, IH by exact Hxs. reflexivity.
Qed.

Lemma pruned_items xs :
  Forall pruned xs ->
  forallb supported
    (map (fun item => if typeof_object item then cleanSchemaForGemini item else item) xs)
  = true.
Proof.
  induction 1 as [|x xs Hx _ IH]; cbn [map forallb]; [reflexivity|].
  rewrite IH, andb_true_r.
  destruct (typeof_object x) eqn:E; [exact Hx | apply supported_primitive; exact E].
Qed.

Lemma clean_entry_supported kv :
  pruned (snd kv) -> children_pruned (snd kv) ->
  forallb supported_field (clean_entry kv) = true.
Proof.
  destruct kv as [key v]. cbn [snd]. intros Hv Hc.
  unfold clean_entry. cbn [fst snd].
  destruct (includes_key UNSUPPORTED_FIELDS key) eqn:Hdrop; [reflexivity|].
  destruct ((key =? "properties")%string && typeof_object v) eqn:Hprops.
  { apply andb_prop in Hprops as [Hk _].
    cbn [forallb]. rewrite andb_true_r.
    unfold supported_field. cbn [fst snd]. rewrite Hdrop, Hk. cbn [negb andb].
    destruct v; cbn [children_pruned] in Hc; try reflexivity.
    - apply supported_combine, pruned_values. exact Hc.
    - apply pruned_props. exact Hc. }
  assert (Hplain : typeof_object v = true -> key <> "properties").
  { intros Ht ->. rewrite Ht in Hprops. discriminate Hprops. }
  destruct ((key =? "items")%string && typeof_object v) eqn:Hitems.
  { apply andb_prop in Hitems as [_ Ht].
    cbn [forallb]. rewrite andb_true_r.
    unfold supported_field. cbn [fst snd]. rewrite Hdrop. cbn [negb andb].
    destruct (cleanSchemaForGemini v) eqn:E; try (rewrite <- E; exact Hv).
    destruct (String.eqb_spec key "properties") as [Heq|_];
      [destruct (Hplain Ht Heq) | rewrite <- E; exact Hv]. }
  destruct (typeof_object v && negb (isArray v)) eqn:Hobj.
  { apply andb_prop in Hobj as [Ht _].
    cbn [forallb]. rewrite andb_true_r.
    unfold supported_field. cbn [fst snd]. rewrite Hdrop. cbn [negb andb].
    destruct (cleanSchemaForGemini v) eqn:E; try (rewrite <- E; exact Hv).
    destruct (String.eqb_spec key "properties") as [Heq|_];
      [destruct (Hplain Ht Heq) | rewrite <- E; exact Hv]. }
  destruct v as [ | b | n | s | xs | ps ];
    try (cbn [typeof_object isArray negb andb] in Hobj; discriminate Hobj);
    cbn [forallb]; rewrite andb_true_r.
  1-3: apply supported_field_plain; [exact Hdrop | discriminate | reflexivity].
  apply supported_field_plain; [exact Hdrop | discriminate |].
  cbn [supported]. apply pruned_items. exact Hc.
Qed.

Lemma clean_props_supported props :
  Forall (fun kv => pruned (snd kv) /\ children_pruned (snd kv)) props ->
  forallb supported_field (flat_map clean_entry props) = true.
Proof.
  induction 1 as [|kv props [Hv Hc] _ IH]; cbn [flat_map]; [reflexivity|].
  rewrite forallb_app, IH, clean_entry_supported by assumption. reflexivity.
Qed.

Lemma clean_supported_strong v : pruned v /\ children_pruned v.
Proof.
  induction v as [ | | | | items IH | props IH ] using json_nested_ind;
    try (split; [reflexivity | exact I]).
  - assert (Hc : Forall pruned items)
      by (eapply Forall_impl; [exact IH | intros x [H _]; exact H]).
    split; [|exact Hc].
    unfold pruned. rewrite CleanFacts.clean_array_eq. cbn [supported].
    apply pruned_values. exact Hc.
  - split.
    + unfold pruned. rewrite CleanFacts.clean_object_eq, supported_object.
      apply clean_props_supported. exact IH.
    + cbn [children_pruned]. eapply Forall_impl; [exact IH | intros x [H _]; exact H].
Qed.

(** X7.  The value [cleanSchemaForGemini] returns holds none of the fields
    Gemini rejects at any schema position: not on the value itself, not
    on the values of its fields, not on the elements of its arrays, at any
    depth.  Only the names listed under [properties], which name
    properties and are no fields, are kept whatever they are. *)
Theorem cleanSchemaForGemini_leaves_no_unsupported_field (schema : json) :
  supported (cleanSchemaForGemini schema) = true.
Proof. exact (proj1 (clean_supported_strong schema)). Qed.

End SchemaFacts.

(** ** [transformClaudeToGemini]: the payload as a whole *)

Module GeminiPayloadFacts.
Import Transform Observe SchemaAux GeminiObs GeminiAux.

Section Payload.

Variable decodeURIComponent : string -> option string.

#[local] Abbreviation convert_block := (Transform.convert_block decodeURIComponent).
#[local] Abbreviation convert_message := (Transform.convert_message decodeURIComponent).
#[local] Abbreviation transformClaudeToGemini :=
  (Transform.transformClaudeToGemini decodeURIComponent).
#[local] Abbreviation message_entries := (GeminiObs.message_entries decodeURIComponent).
#[local] Abbreviation block_parts := (GeminiObs.block_parts decodeURIComponent).

Lemma convert_block_closed contents parts block :
  convert_block (contents, parts) block
  = (contents ++ block_responses block, parts ++ block_parts block).
Proof.
  destruct block; cbn [Transform.convert_block block_responses GeminiObs.block_parts];
    rewrite ?app_nil_r; reflexivity.
Qed.

Lemma convert_blocks_closed blocks : forall contents parts,
  fold_left convert_block blocks (contents, parts)
  = (contents ++ flat_map block_responses blocks,
     parts ++ flat_map block_parts blocks).
Proof.
  induction blocks as [|block blocks IH]; intros contents parts; cbn [fold_left flat_map].
  - rewrite !app_nil_r. reflexivity.
  - rewrite convert_block_closed, IH, <- !app_assoc. reflexivity.
Qed.

Lemma convert_message_closed contents msg :
  convert_message contents msg = contents ++ message_entries msg.
Proof.
  unfold Transform.convert_message, GeminiObs.message_entries.
  destruct (content msg) as [s|blocks|].
  - reflexivity.
  - rewrite convert_blocks_closed. cbn [app].
    destruct (flat_map block_parts blocks); cbn [own_entry].
    + rewrite app_nil_r. reflexivity.
    + rewrite <- app_assoc. reflexivity.
  - rewrite app_nil_r. reflexivity.
Qed.

Lemma convert_messages_closed msgs : forall contents,
  fold_left convert_message msgs contents = contents ++ flat_map message_entries msgs.
Proof.
  induction msgs as [|msg msgs IH]; intros contents; cbn [fold_left flat_map].
  - rewrite app_nil_r. reflexivity.
  - rewrite convert_message_closed, IH, <- app_assoc. reflexivity.
Qed.

(** The fields of the payload, read after all the steps. *)
Ltac payload_cases req modelId :=
  unfold Transform.transformClaudeToGemini; cbn [fst];
  destruct (system req) as [[s|items]|]; [destruct (s =? "")%string| |];
  destruct (messages req) as [msgs|];
  destruct (tools req) as [ts|];
  (destruct (thinking req) as [budget_tokens|];
   [destruct (includes "gemini-3" modelId)|]).

Lemma payload_contents_eq req modelId :
  payload_contents (fst (transformClaudeToGemini req modelId))
  = fold_left convert_message (default [] (messages req)) [].
Proof.
  unfold payload_contents. payload_cases req modelId;
    rewrite ?get_set_other by discriminate;
    rewrite ?get_set_same; reflexivity.
Qed.


Lemma gemini_role_ok r :
  negb ((if (r =? "assistant")%string then "model" else r) =? "assistant")%string = true.
Proof.
  destruct (r =? "assistant")%string eqn:E; [reflexivity|]. rewrite E. reflexivity.
Qed.

Lemma own_entry_ok msg parts : forallb entry_ok (own_entry msg parts) = true.
Proof.
  destruct parts; cbn [own_entry forallb entry_ok]; [reflexivity|].
  rewrite gemini_role_ok. reflexivity.
Qed.

Lemma block_responses_ok blocks : forallb entry_ok (flat_map block_responses blocks) = true.
Proof.
  induction blocks as [|block blocks IH]; cbn [flat_map]; [reflexivity|].
  rewrite forallb_app, IH, andb_true_r. destruct block; reflexivity.
Qed.

Lemma message_entries_ok msg : forallb entry_ok (message_entries msg) = true.
Proof.
  unfold GeminiObs.message_entries. destruct (content msg) as [s|blocks|].
  - apply own_entry_ok.
  - rewrite forallb_app, block_responses_ok, own_entry_ok. reflexivity.
  - reflexivity.
Qed.

(** X9.  Every entry of the contents of the payload has the shape
    [{ role, parts }] with at least one part, and no entry has the role
    [assistant]: a message without any part is not sent, and the role
    [assistant] is sent as [model]. *)
Theorem contents_entries_have_parts (req : ClaudeRequest) (modelId : string) :
  forallb entry_ok (payload_contents (fst (transformClaudeToGemini req modelId))) = true.
Proof.
  rewrite payload_contents_eq, convert_messages_closed. cbn [app].
  induction (default [] (messages req)) as [|msg msgs IH]; cbn [flat_map]; [reflexivity|].
  rewrite forallb_app, message_entries_ok, IH. reflexivity.
Qed.

(** X10.  The payload carries the thinking setting of one model family only.
    For a model id that includes [gemini-3] it is [thinking_level], [high]
    from a budget of 16000 on and [low] below; for any other model it is
    [thinking_config], whose budget is the requested one capped at 24576.
    A request without [thinking] gives neither. *)
Theorem thinking_budget_is_capped (req : ClaudeRequest) (modelId : string) :
  let payload := fst (transformClaudeToGemini req modelId) in
  match thinking req with
  | None =>
      get "thinking_level" payload = None /\ get "thinking_config" payload = None
  | Some budget_tokens =>
      if includes "gemini-3" modelId then
        get "thinking_config" payload = None /\
        get "thinking_level" payload
        = Some (JStr (if 16000 <=? budget_tokens then "high" else "low"))
      else
        get "thinking_level" payload = None /\
        exists budget,
          get "thinking_config" payload = Some (JObj [("thinking_budget", JNum budget)]) /\
          budget <= 24576 /\ budget <= budget_tokens /\
          (budget = budget_tokens \/ budget = 24576)
  end.
Proof.
  cbv zeta. payload_cases req modelId;
    (split;
     [ rewrite ?get_set_other by discriminate; rewrite ?get_set_same; reflexivity
     | try (rewrite ?get_set_other by discriminate; rewrite ?get_set_same; reflexivity) ]);
    (exists (Z.min budget_tokens 24576); split;
     [ rewrite ?get_set_other by discriminate; rewrite ?get_set_same; reflexivity | lia ]).
Qed.

Lemma function_declaration_declares tool : declares tool (function_declaration tool).
Proof.
  unfold declares, function_declaration.
  destruct (description tool), (input_schema tool); cbn; repeat split; reflexivity.
Qed.

(** X11.  The tools of the request are declared one for one and in order under
    [tools[0].functionDeclarations]: each declaration carries the name and
    the description of its tool, and as [parameters] the pruned input
    schema, which holds no field that Gemini rejects at any schema
    position.  A request without [tools] gives a payload without
    [tools]. *)
Theorem tools_are_declared_with_pruned_schemas (req : ClaudeRequest) (modelId : string) :
  let payload := fst (transformClaudeToGemini req modelId) in
  match tools req with
  | Some ts =>
      exists declarations,
        function_declarations payload = Some declarations /\
        Forall2 declares ts declarations /\
        Forall (fun declaration =>
                  forall parameters, prop "parameters" declaration = Some parameters ->
                                     supported parameters = true) declarations
  | None => get "tools" payload = None
  end.
Proof.
  cbv zeta. unfold function_declarations. payload_cases req modelId;
    rewrite ?get_set_other by discriminate; rewrite ?get_set_same;
    try reflexivity;
    (exists (map function_declaration ts); split; [reflexivity|]; split;
     [ clear; induction ts as [|tool ts IH]; cbn [map]; constructor;
       [apply function_declaration_declares | exact IH]
     | clear; induction ts as [|tool ts IH]; cbn [map]; constructor; [|exact IH];
       intros parameters Hp;
       destruct (function_declaration_declares tool) as (_ & _ & Hparams);
       rewrite Hparams in Hp; destruct (input_schema tool) as [schema|];
       [ cbn in Hp; injection Hp as <-;
         exact (proj1 (SchemaFacts.clean_supported_strong schema))
       | discriminate Hp ] ]).
Qed.

End Payload.

End GeminiPayloadFacts.

(** ** The mapping of OpenAI requests *)

Module MappingFacts.
Import Transform OpenAI SchemaAux OpenAIObs SanitizeFieldFacts.

(** *** Objects *)

Lemma set_get_id key v obj : get key obj = Some v -> set key v obj = obj.
Proof.
  induction obj as [|[k w] obj IH]; cbn [get set]; [discriminate|].
  destruct (String.eqb_spec k key) as [->|Hne].
  - intros [= ->]. reflexivity.
  - intros H. rewrite IH by exact H. reflexivity.
Qed.

Lemma delete_key_twice key obj : delete_key key (delete_key key obj) = delete_key key obj.
Proof.
  unfold delete_key. induction obj as [|[k v] obj IH]; cbn [List.filter fst]; [reflexivity|].
  destruct (k =? key)%string eqn:E; cbn [negb List.filter fst]; [exact IH|].
  rewrite E. cbn [negb]. rewrite IH. reflexivity.
Qed.

(** *** [mapToolChoice] *)

Lemma mapToolChoice_eq req :
  mapToolChoice req
  = match requested_choice req with
    | Some toolChoice => delete_key "function_call" (apply_choice toolChoice req)
    | None => req
    end.
Proof.
  unfold mapToolChoice, requested_choice, apply_choice, choice_update.
  destruct (truthy_value _) as [toolChoice|]; [|reflexivity].
  destruct toolChoice as [ | b | n | s | items | props ]; try reflexivity.
  - destruct (s =? "none")%string; [reflexivity|].
    destruct (s =? "required")%string; reflexivity.
  - destruct (if is_str _ _ then _ else _); [reflexivity|].
    destruct (truthy_value _); reflexivity.
Qed.

Lemma truthy_value_Some o v : truthy_value o = Some v -> o = Some v /\ truthy v = true.
Proof.
  unfold truthy_value. destruct o as [w|]; [|discriminate].
  destruct (truthy w) eqn:E; [|discriminate]. intros [= ->]. split; [reflexivity|exact E].
Qed.

Lemma truthy_value_truthy v : truthy v = true -> truthy_value (Some v) = Some v.
Proof. intros H. unfold truthy_value. rewrite H. reflexivity. Qed.

Lemma guarded_truthy (b : bool) o name :
  (if b then truthy_value o else None) = Some name -> truthy name = true.
Proof.
  destruct b; [|discriminate]. intros H.
  apply truthy_value_Some in H as [_ H]. exact H.
Qed.

(** A value [mapToolChoice] assigns is truthy, and assigning for it again
    assigns the same value or nothing. *)
Lemma choice_update_stable toolChoice choice :
  choice_update toolChoice = Some choice ->
  truthy choice = true /\
  (choice_update choice = Some choice \/ choice_update choice = None).
Proof.
  assert (Htool : forall name,
            truthy name = true ->
            choice_update (JObj [("type", JStr "tool"); ("name", name)])
            = Some (JObj [("type", JStr "tool"); ("name", name)])).
  { intros name Hname. unfold choice_update. cbn. rewrite Hname. reflexivity. }
  unfold choice_update at 1.
  destruct toolChoice as [ | b | n | s | items | props ]; try discriminate.
  - intros [= <-]. split; [reflexivity|]. right.
    destruct (s =? "none")%string; [reflexivity|].
    destruct (s =? "required")%string; reflexivity.
  - destruct (if is_str _ _ then _ else _) as [name|] eqn:E1.
    + intros [= <-]. split; [reflexivity|]. left.
      apply Htool. eapply guarded_truthy. exact E1.
    + destruct (truthy_value (prop "name" (JObj props))) as [name|] eqn:E2;
        [|discriminate].
      intros [= <-]. split; [reflexivity|]. left.
      apply truthy_value_Some in E2 as [_ Hname]. apply Htool. exact Hname.
Qed.

Lemma get_apply_choice toolChoice req :
  get "tool_choice" (apply_choice toolChoice req)
  = match choice_update toolChoice with
    | Some choice => Some choice
    | None => get "tool_choice" req
    end.
Proof.
  unfold apply_choice. destruct (choice_update toolChoice); [|reflexivity].
  apply get_set_same.
Qed.

(** X12.  Once a request has been through [mapToolChoice], a second pass
    changes nothing. *)
Theorem mapToolChoice_idempotent (req : object) :
  mapToolChoice (mapToolChoice req) = mapToolChoice req.
Proof.
  rewrite (mapToolChoice_eq req).
  destruct (requested_choice req) as [toolChoice|] eqn:Hchoice.
  - set (r1 := delete_key "function_call" (apply_choice toolChoice req)).
    assert (Hfc : get "function_call" r1 = None) by apply get_delete_same.
    assert (Htc : get "tool_choice" r1
                  = match choice_update toolChoice with
                    | Some choice => Some choice
                    | None => get "tool_choice" req
                    end).
    { unfold r1. rewrite get_delete_other by discriminate. apply get_apply_choice. }
    assert (Hsame : delete_key "function_call" r1 = r1) by apply delete_key_twice.
    rewrite mapToolChoice_eq. unfold requested_choice. rewrite Hfc, Htc.
    destruct (choice_update toolChoice) as [choice|] eqn:Hupdate.
    + destruct (choice_update_stable _ _ Hupdate) as [Htruthy Hstable].
      unfold truthy_or. cbn [truthy_opt]. rewrite Htruthy.
      rewrite (truthy_value_truthy _ Htruthy).
      unfold apply_choice.
      destruct Hstable as [-> | ->]; [|exact Hsame].
      rewrite set_get_id; [exact Hsame|].
      rewrite Htc. reflexivity.
    + unfold requested_choice in Hchoice.
      apply truthy_value_Some in Hchoice as [Hread Htruthy].
      unfold truthy_or in Hread |- *.
      destruct (truthy_opt (get "tool_choice" req)) eqn:Hfirst.
      * rewrite Hread. rewrite (truthy_value_truthy _ Htruthy).
        unfold apply_choice. rewrite Hupdate. exact Hsame.
      * reflexivity.
  - rewrite mapToolChoice_eq, Hchoice. reflexivity.
Qed.

(** X13.  [mapToolChoice] writes [tool_choice] and [function_call] only: every
    other field reads after the call as before.  When the request names a
    choice ([tool_choice] or, failing that, [function_call] is truthy),
    [function_call] is gone after the call; when it names none, the
    request is returned as it is, a falsy [function_call] included. *)
Theorem mapToolChoice_rewrites_only_the_choice (req : object) :
  (forall key, key <> "tool_choice" -> key <> "function_call" ->
               get key (mapToolChoice req) = get key req) /\
  match requested_choice req with
  | Some _ => get "function_call" (mapToolChoice req) = None
  | None => mapToolChoice req = req
  end.
Proof.
  rewrite mapToolChoice_eq. destruct (requested_choice req) as [toolChoice|].
  - split; [|apply get_delete_same].
    intros key Htc Hfc. rewrite get_delete_other by exact Hfc.
    unfold apply_choice. destruct (choice_update toolChoice); [|reflexivity].
    apply get_set_other. exact Htc.
  - split; reflexivity.
Qed.

(** A choice given as a string always yields a [tool_choice] of Claude:
    [none] for ['none'], [any] for ['required'], and [auto] for every other
    string, whether the string came from [tool_choice] or from the legacy
    [function_call]. *)
Lemma mapToolChoice_of_a_string (req : object) (s : string) :
  requested_choice req = Some (JStr s) ->
  get "tool_choice" (mapToolChoice req)
  = Some (JObj [("type",
                 JStr (if (s =? "none")%string then "none"
                       else if (s =? "required")%string then "any"
                       else "auto"))]).
Proof.
  intros Hchoice. rewrite mapToolChoice_eq, Hchoice.
  rewrite get_delete_other by discriminate.
  rewrite get_apply_choice. reflexivity.
Qed.

Example mapToolChoice_of_an_unknown_string :
  requested_choice [("function_call", JStr "whatever"); ("model", JStr "m")]
  = Some (JStr "whatever") /\
  get "tool_choice"
    (mapToolChoice [("function_call", JStr "whatever"); ("model", JStr "m")])
  = Some (JObj [("type", JStr "auto")]).
Proof.
  split; [reflexivity|].
  exact (mapToolChoice_of_a_string
           [("function_call", JStr "whatever"); ("model", JStr "m")]
           "whatever" eq_refl).
Qed.

Example mapToolChoice_samples :
  mapToolChoice [("function_call", JObj [("name", JStr "open")]); ("model", JStr "m")]
  = [("model", JStr "m");
     ("tool_choice", JObj [("type", JStr "tool"); ("name", JStr "open")])] /\
  mapToolChoice [("tool_choice", JStr "required"); ("function_call", JStr "none")]
  = [("tool_choice", JObj [("type", JStr "any")])] /\
  mapToolChoice [("function_call", JStr "")] = [("function_call", JStr "")] /\
  mapToolChoice [("tool_choice", JObj [("type", JStr "function")])]
  = [("tool_choice", JObj [("type", JStr "function")])].
Proof. repeat split; reflexivity. Qed.

(** *** [mapTools] *)

Example mapTools_sample :
  mapTools strict_tools_sample
  = Returned
      [("tools",
        JArr [JObj [("name", JStr "open");
                    ("input_schema",
                     JObj [("type", JStr "object");
                           ("additionalProperties", JBool false);
                           ("properties",
                            JObj [("url", JObj [("type", JStr "string")])])])];
              JObj [("name", JStr "close")]])].
Proof. reflexivity. Qed.

Example mapTools_throws :
  mapTools [("tools", JArr [JNull])]
  = Thrown "TypeError: Cannot read properties of null (reading 'function')" /\
  mapTools [("tools", JStr "open")] = Thrown "TypeError: req.tools is not an array" /\
  mapTools [("tools", JArr [JObj [("strict", JBool true); ("input_schema", JStr "s")]])]
  = Thrown "TypeError: Cannot create property 'additionalProperties'".
Proof. repeat split; reflexivity. Qed.

Lemma traverse_Forall2 {A B : Type} (f : A -> outcome B) (l : list A) : forall l',
  traverse f l = Returned l' -> Forall2 (fun x y => f x = Returned y) l l'.
Proof.
  induction l as [|x l IH]; intros l'; cbn [traverse].
  - intros [= <-]. constructor.
  - destruct (f x) as [y|e] eqn:Ex; cbn [bind]; [|discriminate].
    destruct (traverse f l) as [ys|e] eqn:El; cbn [bind]; [|discriminate].
    intros [= <-]. constructor; [exact Ex | apply IH; reflexivity].
Qed.

Lemma as_array_items what o items :
  as_array what o = Returned items -> items = items_of o.
Proof.
  destruct o as [[ | | | | l | ]|]; cbn [as_array items_of];
    try discriminate; intros [= <-]; reflexivity.
Qed.

(** The request after [mapTools], and the tools it holds. *)
Lemma mapTools_returned req req' :
  mapTools req = Returned req' ->
  exists tools',
    req' = delete_key "functions" (set "tools" (JArr tools') req) /\
    Forall2 (fun t tool => map_tool t = Returned tool) (openai_tools req) tools'.
Proof.
  unfold mapTools, openai_tools.
  destruct (as_array _ (get "functions" req)) as [functions|e] eqn:Ef;
    cbn [bind]; [|discriminate].
  destruct (as_array _ (get "tools" req)) as [tools|e] eqn:Et;
    cbn [bind]; [|discriminate].
  apply as_array_items in Ef, Et. subst functions tools.
  destruct (traverse map_tool _) as [tools'|e] eqn:Em; cbn [bind]; [|discriminate].
  intros [= <-]. exists tools'. split; [reflexivity|].
  apply traverse_Forall2. exact Em.
Qed.

Lemma fields_keys a b c :
  forallb (fun kv : string * json =>
             includes_key ["name"; "description"; "input_schema"] (fst kv))
    (field "name" a ++ field "description" b ++ field "input_schema" c) = true.
Proof. destruct a, b, c; reflexivity. Qed.

Lemma fields_schema a b c :
  get "input_schema" (field "name" a ++ field "description" b ++ field "input_schema" c) = c.
Proof. destruct a, b, c; reflexivity. Qed.

Lemma map_tool_schema t tool :
  map_tool t = Returned tool ->
  exists a b c,
    tool = JObj (field "name" a ++ field "description" b ++ field "input_schema" c) /\
    (forall schema, c = Some schema -> is_uri_string schema = false) /\
    (strict_tool t = true ->
     forall props, c = Some (JObj props) ->
                   get "additionalProperties" props = Some (JBool false)).
Proof.
  unfold map_tool, strict_tool. cbv zeta.
  set (name := nullish_or (chain "name" _) _).
  set (description := nullish_or (chain "description" _) _).
  set (source := nullish_or (chain "parameters" _) _).
  set (c := option_map removeUriFormat source).
  assert (Hplain : forall schema, c = Some schema -> is_uri_string schema = false).
  { intros schema H. unfold c in H. destruct source as [v|]; [|discriminate H].
    injection H as <-. apply SchemaFacts.removeUriFormat_top. }
  destruct t as [ | b | n | s | items | props ]; [discriminate|..].
  all: destruct (is_true _ || is_true _) eqn:Estrict;
    [ destruct (truthy_value c) as [[ | | | | xs | ps ]|] eqn:Eschema;
      try discriminate
    | ];
    intros H; injection H as <-.
  all: try (exists name, description, c; split; [reflexivity|]; split; [exact Hplain|]).
  all: try discriminate.
  all: try (intros _ ps' Hc; apply truthy_value_Some in Eschema as [Hs _];
            rewrite Hs in Hc; discriminate Hc).
  all: try (intros _ ps' Hc; rewrite Hc in Eschema; cbn in Eschema;
            discriminate Eschema).
  all: exists name, description, (Some (JObj (set "additionalProperties" (JBool false) ps)));
    (split; [reflexivity|]); split;
    [ intros schema [= <-]; apply truthy_value_Some in Eschema as [Hs _];
      pose proof (Hplain _ Hs) as Hno; cbn [is_uri_string] in Hno |- *;
      rewrite !get_set_other by discriminate; exact Hno
    | intros _ ps' [= <-]; apply get_set_same ].
Qed.

Lemma map_tool_claude t tool : map_tool t = Returned tool -> claude_tool tool = true.
Proof.
  intros H. destruct (map_tool_schema t tool H) as (a & b & c & -> & Hplain & _).
  unfold claude_tool. rewrite fields_keys, fields_schema. cbn [andb].
  destruct c as [schema|]; [|reflexivity].
  rewrite (Hplain schema eq_refl). reflexivity.
Qed.

Lemma get_tools_returned req tools' :
  get "tools" (delete_key "functions" (set "tools" (JArr tools') req))
  = Some (JArr tools').
Proof. rewrite get_delete_other by discriminate. apply get_set_same. Qed.

(** X14.  When [mapTools] returns, the request has no [functions] any more and
    its [tools] is an array with one tool for every tool and every legacy
    function of the input, the tools first.  Every one of them is in the
    format of Claude: an object with no other field than [name],
    [description] and [input_schema] (the wrappers [type] and [function]
    and the flag [strict] are gone), whose input schema is not itself a
    schema of type [string] with format [uri]. *)
Theorem mapTools_gives_claude_tools (req req' : object) :
  mapTools req = Returned req' ->
  has_key "functions" req' = false /\
  exists tools',
    get "tools" req' = Some (JArr tools') /\
    forallb claude_tool tools' = true /\
    length tools'
    = (length (items_of (get "tools" req))
       + length (items_of (get "functions" req)))%nat.
Proof.
  intros H. destruct (mapTools_returned req req' H) as (tools' & -> & Hall).
  split; [apply has_key_delete_same|].
  exists tools'. split; [apply get_tools_returned|]. split.
  - clear H. induction Hall as [|t tool ts tools' Ht _ IH]; cbn [forallb]; [reflexivity|].
    rewrite (map_tool_claude t tool Ht), IH. reflexivity.
  - rewrite <- (Forall2_length _ _ _ Hall). unfold openai_tools.
    rewrite length_app, length_map. reflexivity.
Qed.

Lemma mapTools_gives_claude_tools_witness :
  exists req',
    mapTools strict_tools_sample = Returned req' /\
    has_key "functions" req' = false /\
    exists tools',
      get "tools" req' = Some (JArr tools') /\
      forallb claude_tool tools' = true /\ length tools' = 2%nat.
Proof.
  destruct (mapTools strict_tools_sample) as [req'|e] eqn:E;
    [|vm_compute in E; discriminate E].
  exists req'. split; [reflexivity|].
  exact (mapTools_gives_claude_tools strict_tools_sample req' E).
Defined.

(** X15.  The o3 strict mode.  When [mapTools] returns, the tool made for a
    strict input tool (its [function.strict] or its [strict] is [true])
    whose input schema is an object carries [additionalProperties: false]
    in that schema, whatever the input schema said. *)
Theorem mapTools_closes_strict_schemas (req req' : object) :
  mapTools req = Returned req' ->
  exists tools',
    get "tools" req' = Some (JArr tools') /\
    Forall2 (fun t tool =>
               strict_tool t = true ->
               forall props, prop "input_schema" tool = Some (JObj props) ->
                             get "additionalProperties" props = Some (JBool false))
      (openai_tools req) tools'.
Proof.
  intros H. destruct (mapTools_returned req req' H) as (tools' & -> & Hall).
  exists tools'. split; [apply get_tools_returned|].
  eapply Forall2_impl; [exact Hall|].
  intros t tool Ht Hstrict props Hschema. cbv beta in Ht.
  destruct (map_tool_schema t tool Ht) as (a & b & c & -> & _ & Hclosed).
  cbn [prop] in Hschema. rewrite fields_schema in Hschema.
  exact (Hclosed Hstrict props Hschema).
Qed.

Lemma mapTools_closes_strict_schemas_witness :
  exists req' tool props,
    mapTools strict_tools_sample = Returned req' /\
    get "tools" req' = Some (JArr [tool; JObj [("name", JStr "close")]]) /\
    prop "input_schema" tool = Some (JObj props) /\
    get "additionalProperties" props = Some (JBool false).
Proof.
  destruct (mapTools strict_tools_sample) as [req'|e] eqn:E;
    [|vm_compute in E; discriminate E].
  destruct (mapTools_closes_strict_schemas strict_tools_sample req' E)
    as (tools' & Htools & Hall).
  vm_compute in E. injection E as <-.
  vm_compute in Htools. injection Htools as <-.
  inversion Hall as [|t tool ts tools'' Hstrict _]; subst.
  eexists _, _, _. split; [reflexivity|]. split; [reflexivity|].
  split; [reflexivity|].
  apply Hstrict; reflexivity.
Defined.

(** *** [extractTextContent] *)

Lemma with_prop_get {A : Type} key (found : json -> A) (missing : A) obj :
  with_prop key found missing obj
  = match get key obj with
    | Some v => found v
    | None => missing
    end.
Proof.
  induction obj as [|[k v] obj IH]; cbn [with_prop get fst snd]; [reflexivity|].
  destruct (k =? key)%string; [reflexivity | exact IH].
Qed.

(** The function on an object, with the reads written as reads. *)
Lemma extractTextContent_object props :
  extractTextContent (JObj props)
  = match truthy_value (get "text" props) with
    | Some text => text
    | None =>
        match truthy_value (get "content" props) with
        | Some inner => extractTextContent inner
        | None => JStr (stringify (JObj props))
        end
    end.
Proof.
  cbn [extractTextContent]. rewrite with_prop_get.
  destruct (truthy_value (get "text" props)); [reflexivity|].
  unfold truthy_value. destruct (get "content" props) as [inner|]; [|reflexivity].
  destruct (truthy inner); reflexivity.
Qed.

Lemma join_values_strings sep (texts : list string) :
  join_values sep (map JStr texts) = join sep texts.
Proof.
  unfold join_values. rewrite map_map. cbn [to_string]. rewrite map_id. reflexivity.
Qed.

(** X16.  The text of a content made of text blocks is the texts of the blocks
    joined by line feeds; a block with an empty text adds nothing, not even
    an empty line. *)
Theorem extractTextContent_joins_text_blocks (texts : list string) :
  extractTextContent (JArr (map text_block texts))
  = JStr (join nl (List.filter (fun text => negb (text =? "")%string) texts)).
Proof.
  cbn [extractTextContent]. rewrite <- join_values_strings. do 2 f_equal.
  induction texts as [|text texts IH]; cbn [map flat_map List.filter]; [reflexivity|].
  rewrite IH. unfold text_block at 1. cbn [get String.eqb Ascii.eqb Bool.eqb is_str].
  cbn [truthy_value truthy].
  destruct (text =? "")%string; reflexivity.
Qed.

Example extractTextContent_samples :
  extractTextContent
    (JArr [JStr "a"; text_block "b"; JObj [("content", JArr [JStr "c"; JNum 5])];
           JNum 3; JObj [("text", JStr "unused")]])
  = JStr ("a" +:+ nl +:+ "b" +:+ nl +:+ "c") /\
  extractTextContent (JObj [("content", JObj [("text", JNum 7)])]) = JNum 7 /\
  extractTextContent JNull = JStr "null".
Proof. repeat split; reflexivity. Qed.

(** *** [transformMessages] *)

Section MessagesFacts.

Variable JSON_parse : string -> option json.
Variable random : nat -> string.

#[local] Abbreviation transform_message := (OpenAI.transform_message JSON_parse random).
#[local] Abbreviation transformMessages := (OpenAI.transformMessages JSON_parse random).

Lemma is_str_Some o s : is_str o s = true -> o = Some (JStr s).
Proof.
  destruct o as [[ | | | t | | ]|]; cbn [is_str]; try discriminate.
  intros H. apply String.eqb_eq in H. subst t. reflexivity.
Qed.

(** What one turn of the loop does to the variables of the loop. *)
Lemma transform_message_step st msg st' :
  transform_message st msg = Returned st' ->
  if system_role msg then st' = push_system (prop "content" msg) st
  else
    exists m,
      transformedMessages st' = transformedMessages st ++ [m] /\
      systemMessages st' = systemMessages st /\
      openai_only_role m = false /\
      (plain_message msg = true -> m = msg).
Proof.
  unfold OpenAI.transform_message, system_role, plain_message, openai_only_role.
  destruct msg as [ | b | n | s | items | props ]; [discriminate|..];
    try (intros [= <-]; eexists; repeat split; reflexivity).
  set (msg := JObj props). set (role := prop "role" msg).
  destruct (is_str role "developer") eqn:Edev;
    [intros [= <-]; reflexivity|].
  destruct (is_str role "system") eqn:Esys;
    [intros [= <-]; reflexivity|].
  cbn [orb].
  destruct (is_str role "function") eqn:Efun.
  { intros [= <-]. eexists. repeat split.
    rewrite (is_str_Some _ _ Efun). discriminate. }
  destruct (is_str role "assistant" && truthy_opt (prop "function_call" msg)) eqn:Ecall.
  { apply andb_prop in Ecall as [Hrole Hcall]. rewrite Hrole, Hcall.
    destruct (truthy_value _) as [id|];
      (destruct (parse_arguments _ _) as [input|e]; cbn [bind]; [|discriminate]);
      intros [= <-]; eexists; repeat split;
      rewrite andb_false_r; discriminate. }
  destruct (is_str role "assistant" && truthy_opt (prop "tool_calls" msg)) eqn:Ecalls.
  { apply andb_prop in Ecalls as [Hrole Hcalls]. rewrite Hrole, Hcalls.
    destruct (prop "tool_calls" msg) as [[ | | | | tool_calls | ]|]; try discriminate.
    destruct (traverse _ tool_calls) as [blocks|e]; cbn [bind]; [|discriminate].
    intros [= <-]. eexists. repeat split.
    rewrite orb_true_r, andb_false_r. discriminate. }
  destruct (is_str role "tool") eqn:Etool.
  { intros [= <-]. eexists. repeat split.
    rewrite (is_str_Some _ _ Etool). discriminate. }
  intros [= <-]. exists msg. repeat split.
  fold role. destruct role as [[ | | | r | | ]|]; try reflexivity.
  cbn [is_str] in Edev, Esys, Efun, Etool.
  unfold includes_key. cbn [existsb]. rewrite Edev, Esys, Efun, Etool. reflexivity.
Qed.

Lemma push_system_fields content st :
  transformedMessages (push_system content st) = transformedMessages st /\
  systemMessages (push_system content st)
  = systemMessages st
    ++ match truthy_value (option_map extractTextContent content) with
       | Some text => [text]
       | None => []
       end.
Proof.
  unfold push_system. destruct (truthy_value _); cbn; rewrite ?app_nil_r; split; reflexivity.
Qed.

Lemma plain_message_no_system msg : plain_message msg = true -> system_role msg = false.
Proof.
  unfold plain_message, system_role, openai_only_role.
  destruct msg as [ | b | n | s | items | props ];
    [discriminate | intros _; reflexivity .. | ].
  destruct (prop "role" (JObj props)) as [[ | | | r | | ]|];
    try (intros _; reflexivity).
  cbn [is_str]. unfold includes_key. cbn [existsb].
  destruct (r =? "developer")%string; [discriminate|].
  destruct (r =? "system")%string; [discriminate | reflexivity].
Qed.

(** What the whole loop does to the variables of the loop. *)
Lemma transform_messages_loop msgs : forall st st',
  fold_outcome transform_message msgs st = Returned st' ->
  exists out,
    transformedMessages st' = transformedMessages st ++ out /\
    systemMessages st' = systemMessages st ++ system_texts msgs /\
    forallb (fun m => negb (openai_only_role m)) out = true /\
    length out = length (List.filter (fun m => negb (system_role m)) msgs) /\
    (forallb plain_message msgs = true -> out = msgs).
Proof.
  induction msgs as [|msg msgs IH]; intros st st'; cbn [fold_outcome].
  - intros [= <-]. exists []. rewrite !app_nil_r. repeat split; reflexivity.
  - destruct (transform_message st msg) as [st1|e] eqn:Estep; cbn [bind]; [|discriminate].
    intros Hrest. destruct (IH st1 st' Hrest) as (out & Hout & Hsys & Hroles & Hlen & Hplain).
    pose proof (transform_message_step st msg st1 Estep) as Hstep.
    unfold system_texts. cbn [flat_map List.filter forallb].
    fold (system_texts msgs).
    destruct (system_role msg) eqn:Erole.
    + subst st1. destruct (push_system_fields (prop "content" msg) st) as [Ht Hs].
      exists out. rewrite Hout, Hsys, Ht, Hs, <- app_assoc. cbn [negb].
      repeat split; try assumption.
      intros H. apply andb_prop in H as [Hmsg _].
      apply plain_message_no_system in Hmsg. congruence.
    + destruct Hstep as (m & Ht & Hs & Hrole & Hsame).
      exists (m :: out). rewrite Hout, Hsys, Ht, Hs, <- app_assoc.
      cbn [app negb forallb length]. rewrite Hrole, Hroles, Hlen.
      repeat split; try reflexivity.
      intros H. apply andb_prop in H as [Hmsg Hmsgs].
      rewrite (Hsame Hmsg), (Hplain Hmsgs). reflexivity.
Qed.

(** The request after the call, in terms of the variables of the loop. *)
Lemma transformMessages_returned req msgs req' :
  get "messages" req = Some (JArr msgs) ->
  transformMessages req = Returned req' ->
  exists out,
    req' = set "messages" (JArr out)
             match system_texts msgs with
             | [] => req
             | _ :: _ => set "system" (JStr (join_values (nl +:+ nl) (system_texts msgs))) req
             end /\
    forallb (fun m => negb (openai_only_role m)) out = true /\
    length out = length (List.filter (fun m => negb (system_role m)) msgs) /\
    (forallb plain_message msgs = true -> out = msgs).
Proof.
  intros Hmsgs. unfold OpenAI.transformMessages. rewrite Hmsgs.
  destruct (fold_outcome _ msgs _) as [st|e] eqn:Eloop; cbn [bind]; [|discriminate].
  destruct (transform_messages_loop msgs _ st Eloop)
    as (out & Hout & Hsys & Hroles & Hlen & Hplain).
  cbn [transformedMessages systemMessages app] in Hout, Hsys.
  rewrite Hout, Hsys. intros [= <-]. exists out. repeat split; assumption.
Qed.

(** X17.  When [transformMessages] returns on a request whose [messages] is an
    array, the [messages] of the result is an array in which no message has
    the role [developer], [system], [function] or [tool], and which has one
    message for every input message other than the [developer] and
    [system] ones. *)
Theorem transformMessages_leaves_no_openai_role (req req' : object) (msgs : list json) :
  get "messages" req = Some (JArr msgs) ->
  transformMessages req = Returned req' ->
  exists out,
    get "messages" req' = Some (JArr out) /\
    forallb (fun m => negb (openai_only_role m)) out = true /\
    length out = length (List.filter (fun m => negb (system_role m)) msgs).
Proof.
  intros Hmsgs Hreturned.
  destruct (transformMessages_returned req msgs req' Hmsgs Hreturned)
    as (out & -> & Hroles & Hlen & _).
  exists out. split; [apply get_set_same|]. split; assumption.
Qed.


(** X19.  A conversation of plain messages goes through unchanged: when no
    message is [null], has one of the roles [developer], [system],
    [function] and [tool], or is an assistant message with a function call
    or tool calls, [transformMessages] returns the request it was
    given. *)
Theorem transformMessages_keeps_a_plain_conversation (req : object) (msgs : list json) :
  get "messages" req = Some (JArr msgs) ->
  forallb plain_message msgs = true ->
  transformMessages req = Returned req.
Proof.
  intros Hmsgs Hplain.
  destruct (transformMessages req) as [req'|e] eqn:E.
  - destruct (transformMessages_returned req msgs req' Hmsgs E)
      as (out & -> & _ & _ & Hout).
    rewrite (Hout Hplain).
    assert (Hnone : system_texts msgs = []).
    { clear -Hplain. induction msgs as [|m msgs IH]; [reflexivity|].
      cbn [forallb] in Hplain. apply andb_prop in Hplain as [Hm Hmsgs].
      unfold system_texts. cbn [flat_map].
      rewrite (plain_message_no_system m Hm). exact (IH Hmsgs). }
    rewrite Hnone. rewrite set_get_id by exact Hmsgs. reflexivity.
  - exfalso. revert E. unfold OpenAI.transformMessages. rewrite Hmsgs.
    assert (Hloop : forall st, exists st',
              fold_outcome transform_message msgs st = Returned st').
    { clear -Hplain. induction msgs as [|m msgs IH]; intros st; cbn [fold_outcome].
      - eexists. reflexivity.
      - cbn [forallb] in Hplain. apply andb_prop in Hplain as [Hm Hmsgs].
        assert (Hstep : transform_message st m = Returned (push_message m st)).
        { unfold plain_message, openai_only_role in Hm.
          unfold OpenAI.transform_message.
          destruct m as [ | b | n | s | items | props ]; try reflexivity;
            [discriminate Hm|].
          apply andb_prop in Hm as [Hrole Hcalls].
          apply negb_true_iff in Hrole, Hcalls.
          assert (Hno : forall k, In k ["developer"; "system"; "function"; "tool"] ->
                                  is_str (prop "role" (JObj props)) k = false).
          { intros k Hk.
            destruct (prop "role" (JObj props)) as [[ | | | r | | ]|]; try reflexivity.
            cbn [is_str]. destruct (r =? k)%string eqn:Er; [|reflexivity].
            apply String.eqb_eq in Er. subst k.
            apply SanitizeFacts.includes_key_In in Hk.
            unfold includes_key in Hrole, Hk. congruence. }
          rewrite (Hno "developer"), (Hno "system"), (Hno "function"), (Hno "tool")
            by (cbn; tauto).
          destruct (is_str (prop "role" (JObj props)) "assistant"); [|reflexivity].
          cbn [andb] in Hcalls |- *. apply orb_false_elim in Hcalls as [-> ->].
          reflexivity. }
        rewrite Hstep. cbn [bind]. apply IH. exact Hmsgs. }
    destruct (Hloop {| transformedMessages := []; systemMessages := []; randoms := O |})
      as [st' ->].
    cbn [bind]. discriminate.
Qed.

(** X20.  A [null] among the messages makes [transformMessages] throw.  The
    request is written only after the loop, so nothing has been rewritten
    when the call throws. *)
Theorem transformMessages_throws_on_a_null_message (req : object) (msgs : list json) :
  get "messages" req = Some (JArr msgs) ->
  In JNull msgs ->
  exists error, transformMessages req = Thrown error.
Proof.
  intros Hmsgs Hnull. unfold OpenAI.transformMessages. rewrite Hmsgs.
  assert (Hloop : forall st, exists error,
            fold_outcome transform_message msgs st = Thrown error).
  { clear -Hnull. induction msgs as [|m msgs IH]; intros st; [destruct Hnull|].
    cbn [fold_outcome]. destruct Hnull as [->|Hin].
    - cbn [OpenAI.transform_message bind]. eexists. reflexivity.
    - destruct (transform_message st m) as [st1|e]; cbn [bind].
      + apply IH. exact Hin.
      + eexists. reflexivity. }
  destruct (Hloop {| transformedMessages := []; systemMessages := []; randoms := O |})
    as [error ->].
  exists error. reflexivity.
Qed.

End MessagesFacts.

Example transformMessages_sample :
  transformMessages no_parse sample_random conversation_sample
  = Returned
      [("model", JStr "m");
       ("system", JStr ("be brief" +:+ nl +:+ nl +:+ "use tools"));
       ("messages",
        JArr [JObj [("role", JStr "user"); ("content", JStr "hi")];
              assistant [tool_use (Some (JStr "c1")) (Some (JStr "open"))
                           (Some (JObj [("path", JStr "a")]))];
              tool_result (Some (JStr "c1")) (Some (JStr "done"))])].
Proof. reflexivity. Qed.

(** Arguments that do not parse make the call throw, and a function call
    without an id gets a generated one. *)
Example transformMessages_function_call :
  transformMessages no_parse sample_random
    [("messages",
      JArr [JObj [("role", JStr "assistant");
                  ("function_call", JObj [("name", JStr "f"); ("arguments", JStr "{")])]])]
  = Thrown "SyntaxError: JSON.parse" /\
  transformMessages no_parse sample_random
    [("messages",
      JArr [JObj [("role", JStr "assistant");
                  ("function_call", JObj [("name", JStr "f")])]])]
  = Returned
      [("messages",
        JArr [assistant [tool_use (Some (JStr "call_r0")) (Some (JStr "f")) None]])].
Proof. split; reflexivity. Qed.

Lemma transformMessages_leaves_no_openai_role_witness :
  exists req' out,
    transformMessages no_parse sample_random conversation_sample = Returned req' /\
    get "messages" req' = Some (JArr out) /\
    forallb (fun m => negb (openai_only_role m)) out = true /\
    length out = 3%nat.
Proof.
  destruct (transformMessages no_parse sample_random conversation_sample)
    as [req'|e] eqn:E; [|vm_compute in E; discriminate E].
  destruct (transformMessages_leaves_no_openai_role no_parse sample_random
              conversation_sample req' _ eq_refl E) as (out & Hout & Hroles & Hlen).
  exists req', out. split; [reflexivity|]. split; [exact Hout|].
  split; [exact Hroles | exact Hlen].
Defined.


Lemma transformMessages_keeps_a_plain_conversation_witness :
  transformMessages no_parse sample_random plain_sample = Returned plain_sample.
Proof.
  exact (transformMessages_keeps_a_plain_conversation no_parse sample_random
           plain_sample _ eq_refl eq_refl).
Defined.

Lemma transformMessages_throws_on_a_null_message_witness :
  exists error,
    transformMessages no_parse sample_random
      [("messages", JArr [JObj [("role", JStr "user")]; JNull])]
    = Thrown error.
Proof.
  apply (transformMessages_throws_on_a_null_message no_parse sample_random
           [("messages", JArr [JObj [("role", JStr "user")]; JNull])]
           [JObj [("role", JStr "user")]; JNull] eq_refl).
  right. left. reflexivity.
Defined.

(** *** [transformOpenAIToClaude]: the shape of the result *)

Lemma clean_tool_schema t schema :
  prop "input_schema" (clean_tool t) = Some schema -> is_uri_string schema = false.
Proof.
  unfold clean_tool. destruct t as [ | | | | | props ]; try discriminate.
  destruct (get "input_schema" props) as [given|] eqn:Egiven.
  - destruct (truthy given) eqn:Etruthy.
    + cbn [prop]. rewrite get_set_same. intros [= <-].
      apply SchemaFacts.removeUriFormat_top.
    + cbn [prop]. rewrite Egiven. intros [= <-].
      destruct given as [ | | | | | ps ]; try reflexivity. discriminate Etruthy.
  - cbn [prop]. rewrite Egiven. discriminate.
Qed.

Lemma finish_request_shapes o3 req result :
  OpenAIAux.finish_request o3 req = Returned result ->
  (exists ms, get "messages" (claudeRequest result) = Some (JArr ms)) /\
  (exists ts,
     get "tools" (claudeRequest result) = Some (JArr ts) /\
     Forall (fun t => forall schema, prop "input_schema" t = Some schema ->
                                     is_uri_string schema = false) ts) /\
  get "system" (claudeRequest result) = get "system" req.
Proof.
  unfold OpenAIAux.finish_request. cbv zeta. intros [= <-]. cbn [claudeRequest].
  set (req1 := match get "messages" req with Some _ => _ | None => _ end).
  assert (H1 : (exists ms, get "messages" req1 = Some (JArr ms)) /\
               get "system" req1 = get "system" req).
  { unfold req1. destruct (get "messages" req) as [[ | | | | ms | ]|] eqn:E;
      rewrite ?get_set_same, ?get_set_other by discriminate;
      (split; [eexists; try reflexivity; exact E | reflexivity]). }
  destruct H1 as [[ms Hms] Hsys1].
  set (req2 := match get "tools" req1 with Some _ => _ | None => _ end).
  assert (H2 : (exists ts, get "tools" req2 = Some (JArr ts)) /\
               get "messages" req2 = Some (JArr ms) /\
               get "system" req2 = get "system" req).
  { unfold req2. destruct (get "tools" req1) as [[ | | | | ts | ]|] eqn:E;
      rewrite ?get_set_same, ?get_set_other by discriminate;
      (split; [eexists; try reflexivity; exact E | split; assumption]). }
  destruct H2 as ([ts Hts] & Hms2 & Hsys2).
  rewrite Hts. rewrite get_set_same, !get_set_other by discriminate.
  split; [exists ms; exact Hms2|]. split; [|exact Hsys2].
  eexists. split; [reflexivity|].
  clear. induction ts as [|t ts IH]; cbn [map]; constructor; [|exact IH].
  intros schema. apply clean_tool_schema.
Qed.

(** X21.  When [transformOpenAIToClaude] returns, the request it returns is in
    one shape whatever the input: [messages] is an array, [tools] is an
    array in which no tool has an input schema that is itself of type
    [string] with format [uri], and [system] is no array. *)
Theorem transformOpenAIToClaude_normalizes_the_request
    (input : object) (result : OpenAIToClaude) :
  transformOpenAIToClaude input = Returned result ->
  (exists ms, get "messages" (claudeRequest result) = Some (JArr ms)) /\
  (exists ts,
     get "tools" (claudeRequest result) = Some (JArr ts) /\
     Forall (fun t => forall schema, prop "input_schema" t = Some schema ->
                                     is_uri_string schema = false) ts) /\
  (forall items, get "system" (claudeRequest result) <> Some (JArr items)).
Proof.
  rewrite OpenAIFacts.transformOpenAIToClaude_eq.
  set (o3 := match get "model" input with Some _ => _ | None => _ end).
  intros H.
  assert (Hflat : exists req,
            OpenAIAux.finish_request o3 req = Returned result /\
            forall items, get "system" req <> Some (JArr items)).
  { destruct (get "system" input) as [[ | | | | items | ]|] eqn:E;
      try (exists input; split; [exact H|]; rewrite E; discriminate).
    destruct (filter_system_texts _) as [texts|e]; cbn [bind] in H; [|discriminate H].
    eexists. split; [exact H|]. rewrite get_set_same. discriminate. }
  destruct Hflat as (req & Hfinish & Hsystem).
  destruct (finish_request_shapes o3 req result Hfinish) as (Hms & Hts & Hsys).
  split; [exact Hms|]. split; [exact Hts|].
  intros items. rewrite Hsys. apply Hsystem.
Qed.

Lemma transformOpenAIToClaude_normalizes_the_request_witness :
  exists result ts,
    transformOpenAIToClaude OpenAIAux.openai_sample = Returned result /\
    get "messages" (claudeRequest result) = Some (JArr []) /\
    get "tools" (claudeRequest result) = Some (JArr ts) /\
    get "system" (claudeRequest result)
    = Some (JStr ("be brief" +:+ nl +:+ nl +:+ "be kind")).
Proof.
  destruct (transformOpenAIToClaude OpenAIAux.openai_sample) as [result|e] eqn:E;
    [|vm_compute in E; discriminate E].
  destruct (transformOpenAIToClaude_normalizes_the_request _ _ E)
    as (_ & (ts & Hts & _) & _).
  exists result, ts. split; [reflexivity|].
  vm_compute in E. injection E as <-.
  split; [reflexivity|]. split; [exact Hts | reflexivity].
Defined.

End MappingFacts.

(** ** Whole sessions of the stream re-emitter *)

Module SessionFacts.
Import Handler Observe StreamAux SessionObs StreamFacts.

#[local] Hint Rewrite send_isClosed send_usage send_finalized send_textStarted
  send_textIdx send_curIdx send_stamps : stream.

Section Sessions.

Variable JSON_parse : string -> option Chunk.
Variable stamp : nat -> string.

#[local] Abbreviation handle_function_call := (Handler.handle_function_call stamp).
#[local] Abbreviation handle_part := (Handler.handle_part stamp).
#[local] Abbreviation handle_chunk := (Handler.handle_chunk stamp).
#[local] Abbreviation handle_line := (Handler.handle_line JSON_parse stamp).
#[local] Abbreviation read_loop := (Handler.read_loop JSON_parse stamp).
#[local] Abbreviation handleStreamingResponse :=
  (Handler.handleStreamingResponse JSON_parse stamp).
#[local] Abbreviation response_frames := (SessionObs.response_frames JSON_parse).

(** *** The text of the response and the reads *)

Lemma handle_lines_frames lines : forall s,
  fold_left handle_line lines s
  = fold_left handle_chunk (omap (line_frame JSON_parse) lines) s.
Proof.
  induction lines as [|l lines IH]; intros s; [reflexivity|].
  cbn [fold_left omap list_omap]. rewrite handle_line_frame.
  destruct (line_frame JSON_parse l); cbn [fold_left]; apply IH.
Qed.

(** Reads that all give text are as good as one read of the whole text. *)
Lemma read_loop_whole texts s :
  read_loop (map Data texts) "" s = read_loop [Data (String.concat "" texts)] "" s.
Proof.
  destruct texts as [|t texts]; [reflexivity|].
  apply read_loop_concat.
Qed.

Lemma read_loop_frames texts s :
  read_loop (map Data texts) "" s
  = (fold_left handle_chunk (response_frames (String.concat "" texts)) s, None).
Proof.
  rewrite read_loop_whole. cbn [Handler.read_loop].
  change ("" +:+ String.concat "" texts) with (String.concat "" texts).
  rewrite handle_lines_frames. reflexivity.
Qed.

(** X22.  When every read gives text, the read loop handles exactly the frames
    on the complete lines of the response text, in order, and throws
    nothing.  Blank lines, comment lines, lines of other fields, the
    [[DONE]] line and data lines whose JSON does not parse are passed over;
    the text after the last line feed is never handled, not even when the
    response ends. *)
Theorem read_loop_handles_the_complete_lines (texts : list string) (s : Stream) :
  read_loop (map Data texts) "" s
  = (fold_left handle_chunk (response_frames (String.concat "" texts)) s, None).
Proof. apply read_loop_frames. Qed.

(** X23.  The places where the reads cut the response text do not matter: two
    sequences of successful reads that give the same text as a whole give
    the same session, events and token counters alike. *)
Theorem reads_may_cut_the_text_anywhere
    (this : GeminiHandler) (texts texts' : list string) :
  String.concat "" texts = String.concat "" texts' ->
  handleStreamingResponse this (Some (map Data texts))
  = handleStreamingResponse this (Some (map Data texts')).
Proof.
  intros Hsame. unfold Handler.handleStreamingResponse.
  rewrite !read_loop_frames, Hsame. reflexivity.
Qed.

(** *** Failure *)

(** X24.  A session that fails (the response has no body, or a read throws)
    leaves the token counters of the handler as they were, whatever usage
    the frames before the failure reported. *)
Theorem failed_session_keeps_the_counters
    (this : GeminiHandler) (body : option (list ReadStep)) (err : string) :
  failure body = Some err ->
  fst (handleStreamingResponse this body) = this.
Proof.
  intros Hfail. unfold Handler.handleStreamingResponse.
  set (s0 := send "message_start" _ initial).
  destruct body as [steps|].
  - pose proof (read_loop_thrown JSON_parse stamp steps "" s0) as Hthrown.
    destruct (read_loop steps "" s0) as [s thrown]. cbn [snd] in Hthrown.
    cbn [failure] in Hfail. rewrite Hthrown, Hfail.
    destruct (isClosed s); reflexivity.
  - destruct (isClosed s0); reflexivity.
Qed.

(** *** The first event *)






(** *** Cancellation *)

Lemma handle_chunks_closed frames : forall s,
  isClosed s = true ->
  enqueued (fold_left handle_chunk frames s) = enqueued s /\
  isClosed (fold_left handle_chunk frames s) = true.
Proof.
  induction frames as [|chunk frames IH]; intros s Hclosed; cbn [fold_left].
  - split; [reflexivity | exact Hclosed].
  - assert (H1 : isClosed (handle_chunk s chunk) = true)
      by (rewrite handle_chunk_isClosed; exact Hclosed).
    destruct (IH _ H1) as [Hq Hc]. split; [|exact Hc].
    rewrite Hq. apply handle_chunk_closed. exact Hclosed.
Qed.

(** Once the stream is closed the read loop enqueues nothing. *)
Lemma read_loop_closed steps : forall buffer s,
  isClosed s = true ->
  enqueued (fst (read_loop steps buffer s)) = enqueued s /\
  isClosed (fst (read_loop steps buffer s)) = true.
Proof.
  induction steps as [|[decoded|err|] steps IH]; intros buffer s Hclosed;
    cbn [Handler.read_loop fst].
  - split; [reflexivity | exact Hclosed].
  - rewrite handle_lines_frames.
    match goal with
    | |- context [Handler.read_loop _ _ steps ?b (fold_left _ ?fs s)] =>
        destruct (handle_chunks_closed fs s Hclosed) as [Hq Hc];
        destruct (IH b (fold_left handle_chunk fs s) Hc) as [Hq' Hc']
    end.
    split; [rewrite Hq', Hq; reflexivity | exact Hc'].
  - split; [reflexivity | exact Hclosed].
  - apply (IH buffer (set_isClosed true s)). reflexivity.
Qed.

Lemma read_loop_cancelled rest pre : forall buffer s,
  first_failure pre = None ->
  enqueued (fst (read_loop (pre ++ Cancel :: rest) buffer s))
  = enqueued (fst (read_loop pre buffer s)) /\
  isClosed (fst (read_loop (pre ++ Cancel :: rest) buffer s)) = true.
Proof.
  induction pre as [|[decoded|err|] pre IH]; intros buffer s Hfail;
    cbn [app Handler.read_loop fst].
  - apply (read_loop_closed rest buffer (set_isClosed true s)). reflexivity.
  - apply IH. exact Hfail.
  - discriminate Hfail.
  - apply IH. exact Hfail.
Qed.

(** X26.  A session enqueues nothing once the consumer has cancelled: its
    events are the events the read loop had enqueued up to the cancel.
    Neither [message_stop] nor an [error] event follows, whatever the
    later reads give. *)
Theorem cancel_ends_the_events
    (this : GeminiHandler) (pre rest : list ReadStep) :
  first_failure pre = None ->
  enqueued (snd (handleStreamingResponse this (Some (pre ++ Cancel :: rest))))
  = enqueued (fst (read_loop pre "" (opened ("msg_" +:+ stamp 0) (targetModel this)))).
Proof.
  intros Hfail. unfold Handler.handleStreamingResponse.
  fold (opened ("msg_" +:+ stamp 0) (targetModel this)).
  set (s0 := opened _ _).
  destruct (read_loop_cancelled rest pre "" s0 Hfail) as [Hq Hclosed].
  destruct (read_loop (pre ++ Cancel :: rest) "" s0) as [s thrown].
  cbn [fst] in Hq, Hclosed. rewrite <- Hq.
  destruct thrown as [err|].
  - rewrite Hclosed. reflexivity.
  - destruct (usage _); cbn [snd]; sends_closed Hclosed;
      destruct (finalized s); sends_closed Hclosed; try reflexivity;
      destruct (textStarted s); sends_closed Hclosed; reflexivity.
Qed.

(** *** The closing [message_delta] *)

Lemma count_events_app name q q' :
  count_events name (q ++ q') = (count_events name q + count_events name q')%nat.
Proof. unfold count_events. rewrite List.filter_app, length_app. reflexivity. Qed.

Lemma count_events_none name new :
  (forall e, In e new -> event e <> name) -> count_events name new = 0%nat.
Proof.
  unfold count_events. induction new as [|e new IH]; intros H; [reflexivity|].
  cbn [List.filter]. destruct (String.eqb_spec (event e) name) as [Heq|_].
  - destruct (H e (or_introl eq_refl) Heq).
  - apply IH. intros e' He'. apply H. right. exact He'.
Qed.

Lemma count_send name e d s :
  e <> name ->
  count_events name (enqueued (send e d s)) = count_events name (enqueued s).
Proof.
  intros Hne. unfold send. destruct (isClosed s); [reflexivity|].
  cbn [enqueued set_enqueued]. rewrite count_events_app.
  unfold count_events at 2. cbn [List.filter event].
  destruct (String.eqb_spec e name) as [Heq|_]; [contradiction|].
  cbn [length]. lia.
Qed.

Lemma handle_parts_no_delta ps s :
  count_events "message_delta" (enqueued (fold_left handle_part ps s))
  = count_events "message_delta" (enqueued s).
Proof.
  destruct (handle_parts_emission stamp ps s) as (new & -> & Hown & _).
  rewrite count_events_app, (count_events_none _ new); [lia|].
  intros e He. apply (Hown e He).
Qed.

(** Events that are no [message_delta], on a stream whose flags stay. *)
Lemma one_delta_same s s' :
  count_events "message_delta" (enqueued s')
  = count_events "message_delta" (enqueued s) ->
  finalized s' = finalized s -> isClosed s' = isClosed s ->
  one_delta s -> one_delta s'.
Proof.
  unfold one_delta. intros -> -> ->. tauto.
Qed.

(** The closing events: the stop of the open text block and the
    [message_delta]. *)
Lemma closing_events s d :
  let s' :=
    send "message_delta" d
      (if textStarted s
       then send "content_block_stop" (content_block_stop (textIdx s)) s
       else s) in
  isClosed s' = isClosed s /\ finalized s' = finalized s /\
  count_events "message_delta" (enqueued s')
  = (count_events "message_delta" (enqueued s) + (if isClosed s then 0 else 1))%nat.
Proof.
  cbv zeta. destruct (isClosed s) eqn:Hclosed.
  - destruct (textStarted s); sends_closed Hclosed;
      rewrite ?Hclosed; repeat split; lia.
  - assert (Hstop : forall i,
              count_events "message_delta"
                [{| event := "content_block_stop"; data := content_block_stop i |}]
              = 0%nat) by reflexivity.
    assert (Hdelta : count_events "message_delta"
                       [{| event := "message_delta"; data := d |}] = 1%nat)
      by reflexivity.
    destruct (textStarted s); sends Hclosed; rewrite ?Hclosed;
      rewrite !count_events_app, ?Hstop, Hdelta; repeat split; lia.
Qed.

Lemma one_delta_finalize s s' :
  isClosed s' = isClosed s -> finalized s = false -> finalized s' = true ->
  count_events "message_delta" (enqueued s')
  = (count_events "message_delta" (enqueued s) + (if isClosed s then 0 else 1))%nat ->
  one_delta s -> one_delta s'.
Proof.
  unfold one_delta. intros -> Hbefore -> ->. rewrite Hbefore.
  intros [Hle Hopen]. destruct (isClosed s).
  - split; [lia | discriminate].
  - rewrite (Hopen eq_refl). split; [lia | reflexivity].
Qed.

Lemma one_delta_handle_chunk s chunk : one_delta s -> one_delta (handle_chunk s chunk).
Proof.
  intros Hinv. unfold Handler.handle_chunk.
  destruct (head (candidates chunk)) as [candidate|]; [|exact Hinv]. cbv zeta.
  set (s1 := fold_left handle_part _ s).
  assert (H1 : one_delta s1).
  { apply (one_delta_same s); [apply handle_parts_no_delta | | | exact Hinv].
    - apply handle_parts_finalized.
    - apply handle_parts_isClosed. }
  clearbody s1.
  set (s2 := match usageMetadata chunk with Some _ => _ | None => _ end).
  assert (H2 : one_delta s2).
  { unfold s2. destruct (usageMetadata chunk); [|exact H1].
    apply (one_delta_same s1); [reflexivity .. | exact H1]. }
  clearbody s2.
  destruct (finishReason candidate) as [reason|]; [|exact H2].
  destruct (negb (reason =? "")%string && negb (finalized s2)) eqn:Hfinish; [|exact H2].
  apply andb_prop in Hfinish as [_ Hfinal]. apply negb_true_iff in Hfinal.
  set (d := message_delta _ _).
  destruct (closing_events (set_finalized true s2) d) as (Hc & Hf & Hn).
  apply (one_delta_finalize s2); [exact Hc | exact Hfinal | exact Hf | exact Hn | exact H2].
Qed.

Lemma one_delta_handle_chunks frames : forall s,
  one_delta s -> one_delta (fold_left handle_chunk frames s).
Proof.
  induction frames as [|chunk frames IH]; intros s Hinv; [exact Hinv|].
  cbn [fold_left]. apply IH, one_delta_handle_chunk, Hinv.
Qed.

Lemma one_delta_close s : one_delta s -> one_delta (set_isClosed true s).
Proof.
  unfold one_delta. cbn [enqueued finalized isClosed set_isClosed].
  intros [Hle _]. split; [exact Hle | discriminate].
Qed.

Lemma one_delta_read_loop steps : forall buffer s,
  one_delta s -> one_delta (fst (read_loop steps buffer s)).
Proof.
  induction steps as [|[decoded|err|] steps IH]; intros buffer s Hinv;
    cbn [Handler.read_loop fst]; try exact Hinv.
  - apply IH. rewrite handle_lines_frames. apply one_delta_handle_chunks, Hinv.
  - apply IH, one_delta_close, Hinv.
Qed.

(** X27.  No session enqueues more than one [message_delta], and a session
    that is not cancelled and does not fail enqueues exactly one: the one
    of the first frame with a finish reason, or the one sent when the
    response ends without any. *)
Theorem one_message_delta_per_session
    (this : GeminiHandler) (body : option (list ReadStep)) :
  let q := enqueued (snd (handleStreamingResponse this body)) in
  (count_events "message_delta" q <= 1)%nat /\
  (cancelled_body body = false -> failure body = None ->
   count_events "message_delta" q = 1%nat).
Proof.
  cbv zeta. unfold Handler.handleStreamingResponse.
  set (s0 := send "message_start" _ initial).
  assert (H0 : one_delta s0).
  { split; [cbn; lia | intros _; reflexivity]. }
  assert (Hloop : exists s thrown,
            match body with
            | Some steps => read_loop steps "" s0
            | None => (s0, Some "Error: No response body")
            end = (s, thrown) /\
            one_delta s /\ thrown = failure body /\
            (cancelled_body body = false -> isClosed s = false)).
  { destruct body as [steps|].
    - exists (fst (read_loop steps "" s0)), (snd (read_loop steps "" s0)).
      split; [apply surjective_pairing|]. split; [apply one_delta_read_loop, H0|].
      split; [apply read_loop_thrown|].
      intros Hopen. apply read_loop_open; [reflexivity | exact Hopen].
    - exists s0, (Some "Error: No response body").
      split; [reflexivity|]. split; [exact H0|]. split; [reflexivity|].
      intros _. reflexivity. }
  destruct Hloop as (s & thrown & -> & Hinv & Hthrown & Hopen).
  destruct thrown as [err|].
  - split.
    + destruct (isClosed s); cbn [snd]; fields;
        rewrite ?count_send by discriminate;
        destruct Hinv as [Hle _]; destruct (finalized s); lia.
    + intros _ Hnone. congruence.
  - set (s2 := if finalized s then s else _).
    assert (H2 : (count_events "message_delta" (enqueued s2) <= 1)%nat /\
                 (isClosed s = false ->
                  count_events "message_delta" (enqueued s2) = 1%nat)).
    { unfold s2. destruct Hinv as [Hle Heq].
      destruct (finalized s) eqn:Hfinal; [split; [exact Hle | exact Heq]|].
      set (d := message_delta _ _).
      destruct (closing_events s d) as (_ & _ & ->).
      destruct (isClosed s); [split; [lia | discriminate]|].
      rewrite (Heq eq_refl). split; [lia | reflexivity]. }
    clearbody s2.
    destruct (usage _); cbn [snd enqueued set_isClosed];
      rewrite count_send by discriminate;
      (split; [exact (proj1 H2)|]); intros Hcancel _;
      exact (proj2 H2 (Hopen Hcancel)).
Qed.

(** *** The text *)

Lemma delta_texts_app q q' : delta_texts (q ++ q') = delta_texts q ++ delta_texts q'.
Proof. apply flat_map_app. Qed.

Lemma delta_texts_send e d s :
  delta_texts [{| event := e; data := d |}] = [] ->
  delta_texts (enqueued (send e d s)) = delta_texts (enqueued s).
Proof.
  intros Hnone. unfold send. destruct (isClosed s); [reflexivity|].
  cbn [enqueued set_enqueued]. rewrite delta_texts_app, Hnone, app_nil_r. reflexivity.
Qed.

Lemma handle_text_texts s part :
  isClosed s = false ->
  delta_texts (enqueued (Handler.handle_text s part))
  = delta_texts (enqueued s) ++ part_texts part.
Proof.
  intros Hopen. unfold Handler.handle_text, part_texts.
  destruct (text part) as [t|]; [|rewrite app_nil_r; reflexivity].
  destruct (t =? "")%string; cbn [negb]; [rewrite app_nil_r; reflexivity|].
  destruct (textStarted s); sends Hopen; rewrite !delta_texts_app;
    rewrite <- ?app_assoc; reflexivity.
Qed.

Lemma handle_function_call_texts s part :
  delta_texts (enqueued (handle_function_call s part)) = delta_texts (enqueued s).
Proof.
  unfold Handler.handle_function_call.
  destruct (functionCall part) as [call|]; [|reflexivity]. cbv zeta.
  cbn [enqueued record_tool].
  rewrite !delta_texts_send; [reflexivity | reflexivity | | reflexivity].
  destruct (args call); reflexivity.
Qed.

Lemma handle_parts_texts ps : forall s,
  isClosed s = false ->
  delta_texts (enqueued (fold_left handle_part ps s))
  = delta_texts (enqueued s) ++ flat_map part_texts ps.
Proof.
  induction ps as [|part ps IH]; intros s Hopen; cbn [fold_left flat_map].
  - rewrite app_nil_r. reflexivity.
  - rewrite IH by (rewrite handle_part_isClosed; exact Hopen).
    unfold Handler.handle_part.
    rewrite handle_function_call_texts, handle_text_texts by exact Hopen.
    rewrite <- app_assoc. reflexivity.
Qed.

Lemma handle_chunk_texts s chunk :
  isClosed s = false ->
  delta_texts (enqueued (handle_chunk s chunk))
  = delta_texts (enqueued s) ++ chunk_texts chunk.
Proof.
  intros Hopen. unfold Handler.handle_chunk, chunk_texts, first_parts.
  destruct (head (candidates chunk)) as [candidate|];
    [|rewrite app_nil_r; reflexivity].
  cbv zeta. rewrite <- (handle_parts_texts _ s Hopen).
  set (s1 := fold_left handle_part _ s). clearbody s1.
  set (s2 := match usageMetadata chunk with Some _ => _ | None => _ end).
  assert (H2 : enqueued s2 = enqueued s1)
    by (unfold s2; destruct (usageMetadata chunk); reflexivity).
  rewrite <- H2. clearbody s2.
  destruct (finishReason candidate) as [reason|]; [|reflexivity].
  destruct (negb _ && negb _); [|reflexivity].
  rewrite delta_texts_send by reflexivity.
  destruct (textStarted _); [|reflexivity].
  rewrite delta_texts_send by reflexivity. reflexivity.
Qed.

Lemma handle_chunks_texts frames : forall s,
  isClosed s = false ->
  delta_texts (enqueued (fold_left handle_chunk frames s))
  = delta_texts (enqueued s) ++ flat_map chunk_texts frames.
Proof.
  induction frames as [|chunk frames IH]; intros s Hopen; cbn [fold_left flat_map].
  - rewrite app_nil_r. reflexivity.
  - rewrite IH by (rewrite handle_chunk_isClosed; exact Hopen).
    rewrite handle_chunk_texts by exact Hopen.
    rewrite <- app_assoc. reflexivity.
Qed.

(** X28.  When every read gives text, the [text_delta] events of the session
    carry, in order, the texts of the parts of the frames on the complete
    lines of the response: every text that is not empty is sent once, as
    it came, and nothing else is sent as text. *)
Theorem text_deltas_carry_the_text_parts (this : GeminiHandler) (texts : list string) :
  delta_texts (enqueued (snd (handleStreamingResponse this (Some (map Data texts)))))
  = flat_map chunk_texts (response_frames (String.concat "" texts)).
Proof.
  unfold Handler.handleStreamingResponse. rewrite read_loop_frames.
  set (s0 := send "message_start" _ initial).
  pose proof (handle_chunks_texts (response_frames (String.concat "" texts)) s0 eq_refl)
    as Hloop.
  assert (H0 : delta_texts (enqueued s0) = []) by reflexivity.
  rewrite H0 in Hloop. cbn [app] in Hloop. rewrite <- Hloop.
  set (s := fold_left handle_chunk _ s0). clearbody s.
  destruct (usage _); cbn [snd enqueued set_isClosed];
    rewrite delta_texts_send by reflexivity;
    destruct (finalized s); try reflexivity;
    rewrite delta_texts_send by reflexivity;
    destruct (textStarted s); try reflexivity;
    rewrite delta_texts_send by reflexivity; reflexivity.
Qed.

(** *** Blocks are closed once *)

Lemma stopped_blocks_app q q' :
  stopped_blocks (q ++ q') = stopped_blocks q ++ stopped_blocks q'.
Proof. apply flat_map_app. Qed.

Lemma stopped_blocks_send e d s :
  stopped_blocks [{| event := e; data := d |}] = [] ->
  stopped_blocks (enqueued (send e d s)) = stopped_blocks (enqueued s).
Proof.
  intros Hnone. unfold send. destruct (isClosed s); [reflexivity|].
  cbn [enqueued set_enqueued]. rewrite stopped_blocks_app, Hnone, app_nil_r. reflexivity.
Qed.

Lemma well_indexed_text s :
  well_indexed s -> isClosed s = false -> textStarted s = true ->
  textIdx s < curIdx s.
Proof.
  intros (n & _ & _ & Hcur) Hopen Hstarted.
  destruct (Hcur Hopen) as [-> Htext]. specialize (Htext Hstarted). lia.
Qed.

Lemma closes_once_frozen s s' :
  enqueued s' = enqueued s -> isClosed s' = true -> closes_once s -> closes_once s'.
Proof.
  unfold closes_once. intros -> -> [Hnd _]. split; [exact Hnd | discriminate].
Qed.

(** A fresh index is closed: the index [i] is at or above every closed
    index and below the new counter. *)
Lemma NoDup_snoc (l : list Z) (i : Z) :
  List.NoDup l -> ~ In i l -> List.NoDup (l ++ [i]).
Proof.
  intros Hnd Hnotin. induction l as [|x l IH]; cbn [app].
  - constructor; [intros [] | constructor].
  - inversion Hnd as [|? ? Hx Hl]; subst. constructor.
    + rewrite in_app_iff. intros [H|[H|[]]]; [contradiction|].
      apply Hnotin. left. symmetry. exact H.
    + apply IH; [exact Hl|]. intros H. apply Hnotin. right. exact H.
Qed.

Lemma handle_text_finalized s part :
  finalized (Handler.handle_text s part) = finalized s.
Proof.
  unfold Handler.handle_text. destruct (text part); [|reflexivity].
  destruct (negb _); [|reflexivity].
  destruct (textStarted s); fields; reflexivity.
Qed.

Lemma handle_text_isClosed s part :
  isClosed (Handler.handle_text s part) = isClosed s.
Proof.
  unfold Handler.handle_text. destruct (text part); [|reflexivity].
  destruct (negb _); [|reflexivity].
  destruct (textStarted s); fields; reflexivity.
Qed.

Lemma handle_text_closed s part :
  isClosed s = true -> enqueued (Handler.handle_text s part) = enqueued s.
Proof.
  intros Hclosed. unfold Handler.handle_text. destruct (text part); [|reflexivity].
  destruct (negb _); [|reflexivity].
  destruct (textStarted s); sends_closed Hclosed; reflexivity.
Qed.

Lemma closes_once_handle_text s part :
  well_indexed s -> closes_once s -> closes_once (Handler.handle_text s part).
Proof.
  intros Hwf Hinv. destruct (isClosed s) eqn:Hclosed.
  - apply (closes_once_frozen s); [apply handle_text_closed; exact Hclosed | | exact Hinv].
    rewrite handle_text_isClosed. exact Hclosed.
  - destruct Hinv as [Hnd Hopen]. destruct (Hopen Hclosed) as [Hbelow Htext].
    pose proof (handle_text_finalized s part) as Hfinal.
    destruct (handle_text_open s part Hclosed)
      as [-> | [(t & Hstarted & Hq & Hcur & Hidx & Hst & _)
               | (t & Hstarted & Hq & Hcur & Hidx & Hst & _)]].
    + split; [exact Hnd | intros _; split; assumption].
    + unfold closes_once. rewrite Hq, stopped_blocks_app, Hcur, Hidx, Hfinal.
      change (stopped_blocks [_]) with (@nil Z). rewrite app_nil_r.
      split; [exact Hnd | intros _; split; [exact Hbelow|]].
      intros Hf _. apply Htext; assumption.
    + unfold closes_once. rewrite Hq, stopped_blocks_app, Hcur, Hidx, Hfinal.
      change (stopped_blocks [_; _]) with (@nil Z). rewrite app_nil_r.
      split; [exact Hnd | intros _; split].
      * intros i Hi. specialize (Hbelow i Hi). lia.
      * intros _ _ Hin. specialize (Hbelow _ Hin). lia.
Qed.

Lemma handle_function_call_finalized s part :
  finalized (handle_function_call s part) = finalized s.
Proof.
  unfold Handler.handle_function_call.
  destruct (functionCall part); cbv zeta; fields; reflexivity.
Qed.

Lemma handle_function_call_isClosed s part :
  isClosed (handle_function_call s part) = isClosed s.
Proof.
  unfold Handler.handle_function_call.
  destruct (functionCall part); cbv zeta; fields; reflexivity.
Qed.

Lemma handle_function_call_closed s part :
  isClosed s = true -> enqueued (handle_function_call s part) = enqueued s.
Proof.
  intros Hclosed. unfold Handler.handle_function_call.
  destruct (functionCall part); [|reflexivity].
  cbv zeta. sends_closed Hclosed. reflexivity.
Qed.

Lemma closes_once_handle_function_call s part :
  well_indexed s -> closes_once s -> closes_once (handle_function_call s part).
Proof.
  intros Hwf Hinv. destruct (isClosed s) eqn:Hclosed.
  - apply (closes_once_frozen s);
      [apply handle_function_call_closed; exact Hclosed | | exact Hinv].
    rewrite handle_function_call_isClosed. exact Hclosed.
  - destruct (functionCall part) as [call|] eqn:Hcall;
      [|rewrite handle_function_call_absent by exact Hcall; exact Hinv].
    destruct Hinv as [Hnd Hopen]. destruct (Hopen Hclosed) as [Hbelow Htext].
    destruct (handle_function_call_open stamp s part call Hclosed Hcall)
      as (Hq & Hcur & _).
    destruct (handle_function_call_text stamp s part) as [Hstarted Hidx].
    pose proof (handle_function_call_finalized s part) as Hfinal.
    cbv zeta in Hq, Hcur.
    unfold closes_once. rewrite Hq, stopped_blocks_app, Hcur, Hidx, Hstarted, Hfinal.
    change (stopped_blocks [_; _; _]) with [curIdx s].
    assert (Hfresh : ~ In (curIdx s) (stopped_blocks (enqueued s))).
    { intros Hin. specialize (Hbelow _ Hin). lia. }
    split; [apply NoDup_snoc; assumption | intros _; split].
    + intros i Hi. apply in_app_iff in Hi as [Hi|[<-|[]]]; [|lia].
      specialize (Hbelow i Hi). lia.
    + intros Hf Hs Hin. apply in_app_iff in Hin as [Hin|[Heq|[]]].
      * exact (Htext Hf Hs Hin).
      * pose proof (well_indexed_text s Hwf Hclosed Hs). lia.
Qed.

Lemma closes_once_handle_parts ps : forall s,
  well_indexed s -> closes_once s -> closes_once (fold_left handle_part ps s).
Proof.
  induction ps as [|part ps IH]; intros s Hwf Hinv; [exact Hinv|].
  cbn [fold_left]. apply IH.
  - apply well_indexed_handle_part, Hwf.
  - unfold Handler.handle_part. apply closes_once_handle_function_call.
    + apply well_indexed_handle_text, Hwf.
    + apply closes_once_handle_text; assumption.
Qed.

(** The text block that is open before the stream is finalized can be
    closed. *)
Lemma close_text_once s :
  well_indexed s -> closes_once s ->
  isClosed s = false -> finalized s = false -> textStarted s = true ->
  List.NoDup (stopped_blocks (enqueued s) ++ [textIdx s]) /\
  forall i, In i (stopped_blocks (enqueued s) ++ [textIdx s]) -> i < curIdx s.
Proof.
  intros Hwf [Hnd Hopen] Hclosed Hfinal Hstarted.
  destruct (Hopen Hclosed) as [Hbelow Htext].
  split; [apply NoDup_snoc; [exact Hnd | exact (Htext Hfinal Hstarted)]|].
  intros i Hi. apply in_app_iff in Hi as [Hi|[<-|[]]]; [exact (Hbelow i Hi)|].
  apply well_indexed_text; assumption.
Qed.

(** The closing events on a stream that is not finalized: afterwards no
    index has been closed twice, and the closed indices are below the
    counter. *)
Lemma closing_events_once s d :
  well_indexed s -> closes_once s -> finalized s = false ->
  let s' :=
    send "message_delta" d
      (if textStarted s
       then send "content_block_stop" (content_block_stop (textIdx s)) s
       else s) in
  List.NoDup (stopped_blocks (enqueued s')) /\
  (isClosed s = false ->
   forall i, In i (stopped_blocks (enqueued s')) -> i < curIdx s).
Proof.
  intros Hwf Hinv Hfinal. cbv zeta.
  rewrite stopped_blocks_send by reflexivity.
  destruct (isClosed s) eqn:Hclosed.
  - destruct (textStarted s); sends_closed Hclosed;
      (split; [exact (proj1 Hinv) | discriminate]).
  - destruct (textStarted s) eqn:Hstarted.
    + sends Hclosed. rewrite stopped_blocks_app.
      change (stopped_blocks [_]) with [textIdx s].
      destruct (close_text_once s Hwf Hinv Hclosed Hfinal Hstarted) as [Hnd Hbelow].
      split; [exact Hnd | intros _; exact Hbelow].
    + destruct Hinv as [Hnd Hopen]. split; [exact Hnd|].
      intros _. exact (proj1 (Hopen Hclosed)).
Qed.

(** Setting the flag first does not change what the closing events
    enqueue. *)
Lemma closing_events_after_finalized s d :
  enqueued
    (send "message_delta" d
       (if textStarted (set_finalized true s)
        then send "content_block_stop"
               (content_block_stop (textIdx (set_finalized true s)))
               (set_finalized true s)
        else set_finalized true s))
  = enqueued
      (send "message_delta" d
         (if textStarted s
          then send "content_block_stop" (content_block_stop (textIdx s)) s
          else s)).
Proof.
  cbn [textStarted textIdx set_finalized].
  destruct (isClosed s) eqn:Hclosed; destruct (textStarted s);
    [sends_closed Hclosed | sends_closed Hclosed | sends Hclosed | sends Hclosed];
    reflexivity.
Qed.

Lemma closes_once_handle_chunk s chunk :
  well_indexed s -> closes_once s -> closes_once (handle_chunk s chunk).
Proof.
  intros Hwf Hinv. unfold Handler.handle_chunk.
  destruct (head (candidates chunk)) as [candidate|]; [|exact Hinv]. cbv zeta.
  set (s1 := fold_left handle_part _ s).
  assert (Hwf1 : well_indexed s1) by (apply well_indexed_handle_parts, Hwf).
  assert (H1 : closes_once s1) by (apply closes_once_handle_parts; assumption).
  clearbody s1.
  set (s2 := match usageMetadata chunk with Some _ => _ | None => _ end).
  assert (Hwf2 : well_indexed s2).
  { unfold s2. destruct (usageMetadata chunk); [|exact Hwf1].
    eapply well_indexed_fields; [.. | exact Hwf1]; reflexivity. }
  assert (H2 : closes_once s2)
    by (unfold s2; destruct (usageMetadata chunk); exact H1).
  clearbody s2.
  destruct (finishReason candidate) as [reason|]; [|exact H2].
  destruct (negb (reason =? "")%string && negb (finalized s2)) eqn:Hfinish; [|exact H2].
  apply andb_prop in Hfinish as [_ Hfinal]. apply negb_true_iff in Hfinal.
  set (d := message_delta _ _). clearbody d.
  set (s3 := set_finalized true s2).
  assert (Hwf3 : well_indexed s3)
    by (eapply well_indexed_fields; [.. | exact Hwf2]; reflexivity).
  destruct (closing_events_once s2 d Hwf2 H2 Hfinal) as [Hnd Hbelow].
  cbv zeta in Hnd, Hbelow.
  pose proof (closing_events_after_finalized s2 d) as Hq. fold s3 in Hq.
  set (s4 := send "message_delta" d _) in Hq |- *.
  assert (H4 : isClosed s4 = isClosed s2 /\ curIdx s4 = curIdx s2 /\
               finalized s4 = true).
  { unfold s4, s3. cbn [textStarted set_finalized].
    destruct (textStarted s2); fields; (split; [|split]); reflexivity. }
  destruct H4 as (Hc4 & Hi4 & Hf4). clearbody s4.
  unfold closes_once. rewrite Hq, Hc4, Hi4, Hf4. split; [exact Hnd|].
  intros Hopen. split; [exact (Hbelow Hopen) | discriminate].
Qed.

Lemma closes_once_handle_chunks frames : forall s,
  well_indexed s -> closes_once s -> closes_once (fold_left handle_chunk frames s).
Proof.
  induction frames as [|chunk frames IH]; intros s Hwf Hinv; [exact Hinv|].
  cbn [fold_left]. apply IH.
  - apply well_indexed_handle_chunk, Hwf.
  - apply closes_once_handle_chunk; assumption.
Qed.

Lemma closes_once_read_loop steps : forall buffer s,
  well_indexed s -> closes_once s -> closes_once (fst (read_loop steps buffer s)).
Proof.
  induction steps as [|[decoded|err|] steps IH]; intros buffer s Hwf Hinv;
    cbn [Handler.read_loop fst]; try exact Hinv.
  - apply IH.
    + apply well_indexed_handle_lines, Hwf.
    + rewrite handle_lines_frames. apply closes_once_handle_chunks; assumption.
  - apply IH.
    + apply (well_indexed_frozen s); [reflexivity | reflexivity | exact Hwf].
    + apply (closes_once_frozen s); [reflexivity | reflexivity | exact Hinv].
Qed.

(** Every index below the number of started blocks is a started block. *)
Lemma indexed_event_started (q : list SseEvent) (n : nat) (i : Z) :
  started_blocks q = map Z.of_nat (seq 0 n) ->
  indices_below (Z.of_nat n) q = true ->
  In i (stopped_blocks q) -> In i (started_blocks q).
Proof.
  intros Hstarted Hbelow Hin. rewrite Hstarted.
  unfold stopped_blocks in Hin. apply in_flat_map in Hin as (e & He & Hi).
  destruct (event e =? "content_block_stop")%string; [|destruct Hi].
  destruct (event_index e) as [j|] eqn:Hj; [|destruct Hi].
  destruct Hi as [<-|[]].
  unfold indices_below in Hbelow. rewrite forallb_forall in Hbelow.
  specialize (Hbelow e He). rewrite Hj in Hbelow.
  apply andb_prop in Hbelow as [Hlo Hhi].
  apply in_map_iff. exists (Z.to_nat j). split; [lia|].
  apply in_seq. lia.
Qed.

(** X29.  In every session each [content_block_stop] closes a block that a
    [content_block_start] of the session has started, and no block is
    closed twice: the indices of the [content_block_stop] events are
    pairwise distinct. *)
Theorem blocks_are_closed_once (this : GeminiHandler) (body : option (list ReadStep)) :
  let q := enqueued (snd (handleStreamingResponse this body)) in
  List.NoDup (stopped_blocks q) /\
  forall i, In i (stopped_blocks q) -> In i (started_blocks q).
Proof.
  cbv zeta. split.
  - unfold Handler.handleStreamingResponse.
    set (s0 := send "message_start" _ initial).
    assert (Hwf0 : well_indexed s0).
    { exists 0%nat. repeat split; try reflexivity. discriminate. }
    assert (H0 : closes_once s0).
    { split; [constructor|]. intros _. split; [intros i []|discriminate]. }
    assert (Hloop : exists s thrown,
              match body with
              | Some steps => read_loop steps "" s0
              | None => (s0, Some "Error: No response body")
              end = (s, thrown) /\ well_indexed s /\ closes_once s).
    { destruct body as [steps|].
      - exists (fst (read_loop steps "" s0)), (snd (read_loop steps "" s0)).
        split; [apply surjective_pairing|].
        split; [apply well_indexed_read_loop | apply closes_once_read_loop]; assumption.
      - exists s0, (Some "Error: No response body").
        split; [reflexivity|]. split; assumption. }
    destruct Hloop as (s & thrown & -> & Hwf & Hinv).
    destruct thrown as [err|].
    + destruct (isClosed s); cbn [snd enqueued set_isClosed];
        rewrite ?stopped_blocks_send by reflexivity; exact (proj1 Hinv).
    + set (s2 := if finalized s then s else _).
      assert (H2 : List.NoDup (stopped_blocks (enqueued s2))).
      { unfold s2. destruct (finalized s) eqn:Hfinal; [exact (proj1 Hinv)|].
        set (d := message_delta _ _).
        exact (proj1 (closing_events_once s d Hwf Hinv Hfinal)). }
      clearbody s2.
      destruct (usage _); cbn [snd enqueued set_isClosed];
        rewrite stopped_blocks_send by reflexivity; exact H2.
  - destruct (well_indexed_session JSON_parse stamp this body) as (n & Hstarted & Hbelow & _).
    intros i. apply (indexed_event_started _ n); assumption.
Qed.

End Sessions.

Lemma cancel_ends_the_events_witness :
  first_failure [Data (sse hi_json)] = None /\
  enqueued (snd (Handler.handleStreamingResponse sample_parse sample_stamp
                   sample_handler (Some cancelled_body_sample)))
  = enqueued (fst (Handler.read_loop sample_parse sample_stamp [Data (sse hi_json)] ""
                     (opened ("msg_" +:+ sample_stamp 0) (targetModel sample_handler)))).
Proof.
  split; [reflexivity|].
  exact (cancel_ends_the_events sample_parse sample_stamp sample_handler
           [Data (sse hi_json)] [Data (sse there_json)] eq_refl).
Defined.

Example cancelled_session_events :
  map event
    (enqueued (snd (Handler.handleStreamingResponse sample_parse sample_stamp
                      sample_handler (Some cancelled_body_sample))))
  = ["message_start"; "content_block_start"; "content_block_delta"].
Proof. vm_compute. reflexivity. Qed.

Lemma reads_may_cut_the_text_anywhere_witness :
  String.concat "" hi_there_pieces = String.concat "" [sse hi_json; sse there_json] /\
  Handler.handleStreamingResponse sample_parse sample_stamp sample_handler
    (Some (map Data hi_there_pieces))
  = Handler.handleStreamingResponse sample_parse sample_stamp sample_handler
      (Some hi_there_body).
Proof.
  assert (H : String.concat "" hi_there_pieces
              = String.concat "" [sse hi_json; sse there_json])
    by (vm_compute; reflexivity).
  split; [exact H|].
  exact (reads_may_cut_the_text_anywhere sample_parse sample_stamp sample_handler
           hi_there_pieces [sse hi_json; sse there_json] H).
Defined.

Lemma failed_session_keeps_the_counters_witness :
  failure (Some failing_body) = Some "boom" /\
  fst (Handler.handleStreamingResponse sample_parse sample_stamp sample_handler
         (Some failing_body)) = sample_handler.
Proof.
  split; [reflexivity|].
  exact (failed_session_keeps_the_counters sample_parse sample_stamp sample_handler
           (Some failing_body) "boom" eq_refl).
Defined.

(** The last frame of a response that does not end in a line feed is
    lost. *)
Example unterminated_line_is_dropped :
  response_frames sample_parse (String.concat "" unterminated_body) = [hi_frame].
Proof. vm_compute. reflexivity. Qed.

End SessionFacts.
